(** * Numerical trait extraction: answer selection and unit normalisation

    A shallow embedding of the functions of [Code/05. Numerical_Traits_QA.ipynb]:
    [QA_Prediction], [is_float], [post_process_answer_height],
    [post_process_answer_leaf_length], [post_process_answer_leaf_width] and
    [post_post_process_answer].

    Python [str] values are modelled by [string]; a character is a code point
    below 256.  Python [float] and [numpy.float64] values are IEEE 754
    binary64 numbers ([spec_float] at precision 53, with exact integer
    arithmetic underneath).  Python exceptions are modelled by the error
    monad [py]. *)

From Stdlib Require Import ZArith List Bool Ascii String Lia.
From Stdlib Require Import Floats.SpecFloat Numbers.DecimalString Numbers.DecimalN.
Import ListNotations.

Local Open Scope string_scope.
Local Open Scope Z_scope.

(** ** Exceptions *)

Inductive exn : Type := ValueError | IndexError | KeyError | NameError.

Inductive py (A : Type) : Type :=
| Ok (a : A)
| Raise (e : exn).

Arguments Ok {A} a.
Arguments Raise {A} e.

Definition py_bind {A B : Type} (c : py A) (k : A -> py B) : py B :=
  match c with
  | Ok a => k a
  | Raise e => Raise e
  end.

Declare Scope py_scope.
Delimit Scope py_scope with py.
Notation "x <- c ;; k" := (py_bind c (fun x => k))
  (at level 61, c at next level, right associativity) : py_scope.

(** [seq[i]] on a Python list. *)
Definition py_index {A : Type} (l : list A) (i : nat) : py A :=
  match nth_error l i with
  | Some a => Ok a
  | None => Raise IndexError
  end.

(** ** Characters and [str] methods *)

Definition code (c : ascii) : Z := Z.of_N (N_of_ascii c).

Definition is_decimal (c : ascii) : bool := (48 <=? code c) && (code c <=? 57).

Definition digit_value (c : ascii) : Z := code c - 48.

(** [str.isdigit] on one character: the decimal digits and the
    superscripts U+00B2, U+00B3, U+00B9. *)
Definition isdigit (c : ascii) : bool :=
  is_decimal c || (code c =? 178) || (code c =? 179) || (code c =? 185).

(** [string.punctuation] *)
Definition punctuation : string :=
  String "!" (String "034"%char "#$%&'()*+,-./:;<=>?@[\]^_`{|}~").

Fixpoint str_contains (c : ascii) (s : string) : bool :=
  match s with
  | EmptyString => false
  | String a s' => Ascii.eqb a c || str_contains c s'
  end.

(** [s.translate(str.maketrans('', '', deleted))] *)
Fixpoint translate_delete (deleted : string) (s : string) : string :=
  match s with
  | EmptyString => EmptyString
  | String a s' =>
      if str_contains a deleted then translate_delete deleted s'
      else String a (translate_delete deleted s')
  end.

(** [s.split(sep)] for a one-character separator. *)
Fixpoint str_split (sep : ascii) (s : string) : list string :=
  match s with
  | EmptyString => [EmptyString]
  | String a s' =>
      if Ascii.eqb a sep then EmptyString :: str_split sep s'
      else match str_split sep s' with
           | w :: ws => String a w :: ws
           | [] => [String a EmptyString]
           end
  end.

(** [sep.join(l)] *)
Fixpoint join (sep : string) (l : list string) : string :=
  match l with
  | [] => EmptyString
  | [w] => w
  | w :: ws => w ++ sep ++ join sep ws
  end.

(** [s.replace(old, new)] for one-character [old] and [new]. *)
Fixpoint replace (old new : ascii) (s : string) : string :=
  match s with
  | EmptyString => EmptyString
  | String a s' => String (if Ascii.eqb a old then new else a) (replace old new s')
  end.

(** [w in l] for a list of strings. *)
Definition str_in (w : string) (l : list string) : bool :=
  existsb (String.eqb w) l.

(** ** Regular expressions: [re.sub] with the empty replacement

    The two patterns of the notebook are sequences of one-character classes,
    each taken once or under the lazy star. *)

Inductive char_class : Type :=
| Lit (c : ascii)      (* an escaped literal *)
| AnyChar.             (* [.]: anything but a newline *)

Inductive quantifier : Type := Once | LazyStar.

Definition regex : Type := list (char_class * quantifier).

Definition class_matches (cl : char_class) (a : ascii) : bool :=
  match cl with
  | Lit c => Ascii.eqb a c
  | AnyChar => negb (Ascii.eqb a "010"%char)
  end.

(** Length of the match of [p] anchored at the start of [s], found by
    backtracking: a lazy star first tries to stop. *)
Fixpoint match_here (p : regex) (s : string) {struct p} : option nat :=
  match p with
  | [] => Some O
  | (cl, Once) :: p' =>
      match s with
      | String a s' =>
          if class_matches cl a then option_map S (match_here p' s') else None
      | EmptyString => None
      end
  | (cl, LazyStar) :: p' =>
      (fix lazy (s : string) : option nat :=
         match match_here p' s with
         | Some n => Some n
         | None =>
             match s with
             | String a s' =>
                 if class_matches cl a then option_map S (lazy s') else None
             | EmptyString => None
             end
         end) s
  end.

(** Leftmost non-overlapping matches are deleted; [skip] counts the
    characters of the current match that are still to be dropped. *)
Fixpoint re_sub_from (p : regex) (s : string) (skip : nat) : string :=
  match s with
  | EmptyString => EmptyString
  | String a s' =>
      match skip with
      | S k => re_sub_from p s' k
      | O =>
          match match_here p s with
          | Some (S n) => re_sub_from p s' n
          | _ => String a (re_sub_from p s' O)
          end
      end
  end.

Definition re_sub_empty (p : regex) (s : string) : string := re_sub_from p s O.

(** The pattern of the height and leaf length variants: an escaped opening
    parenthesis under the lazy star, then an escaped closing parenthesis. *)
Definition pattern_paren_star : regex := [(Lit "(", LazyStar); (Lit ")", Once)].

(** The pattern of the leaf width variant: an escaped opening parenthesis,
    any character under the lazy star, an escaped closing parenthesis. *)
Definition pattern_paren_any : regex :=
  [(Lit "(", Once); (AnyChar, LazyStar); (Lit ")", Once)].

(** ** Binary64 arithmetic, [float(str)], [numpy.round] and [str(float)] *)

Module Float64.

Definition prec : Z := 53.
Definition emax : Z := 1024.

Definition float : Type := spec_float.

Definition mul : float -> float -> float := SFmul prec emax.
Definition div : float -> float -> float := SFdiv prec emax.
Definition leb : float -> float -> bool := SFleb.

Definition is_nan (x : float) : bool :=
  match x with
  | S754_nan => true
  | _ => false
  end.

(** Conversion of a Python [int]. *)
Definition of_Z (z : Z) : float := binary_normalize prec emax z 0 false.

(** The binary64 number nearest to [m * 10^e] (ties to even), for [0 <= m];
    this is what [strtod] computes from the digits of a literal. *)
Definition of_decimal (neg : bool) (m : Z) (e : Z) : float :=
  match m with
  | Zpos p =>
      if 0 <=? e then binary_normalize prec emax (cond_Zopp neg (m * 10 ^ e)) 0 neg
      else
        let d := 10 ^ (- e) in
        let k := Z.max 0 (Zdigits2 d - Zdigits2 m + 64) in
        let '(q, r) := Z.div_eucl (Z.shiftl m k) d in
        binary_round_aux prec emax neg q (- k) (new_location d r)
  | _ => S754_zero neg
  end.

(** [numpy.rint]: the nearest integer, ties to even. *)
Definition rint (x : float) : float :=
  match x with
  | S754_finite s m e =>
      if 0 <=? e then x
      else
        let d := 2 ^ (- e) in
        let q := Zpos m / d in
        let r := Zpos m mod d in
        let z := match 2 * r ?= d with
                 | Lt => q
                 | Gt => q + 1
                 | Eq => if Z.even q then q else q + 1
                 end in
        binary_normalize prec emax (cond_Zopp s z) 0 s
  | _ => x
  end.

(** [numpy.round(x, decimals)] for [0 < decimals]: scale, [rint], unscale. *)
Definition np_round (x : float) (decimals : Z) : float :=
  let f := of_Z (10 ^ decimals) in
  div (rint (mul x f)) f.

(** *** [float(s)] for a [str] *)

(** White space that [float] strips at both ends. *)
Definition is_space (c : ascii) : bool :=
  let n := code c in
  ((9 <=? n) && (n <=? 13)) || (n =? 32) || (n =? 133) || (n =? 160).

(** Underscores are legal between two digits only, and are dropped. *)
Fixpoint remove_underscores (prev : ascii) (s : string) : option string :=
  match s with
  | EmptyString => if Ascii.eqb prev "_" then None else Some EmptyString
  | String c s' =>
      if Ascii.eqb c "_" then
        if is_decimal prev then remove_underscores c s' else None
      else if Ascii.eqb prev "_" && negb (is_decimal c) then None
      else option_map (String c) (remove_underscores c s')
  end.

Fixpoint lstrip (s : string) : string :=
  match s with
  | EmptyString => EmptyString
  | String c s' => if is_space c then lstrip s' else s
  end.

Fixpoint rstrip (s : string) : string :=
  match s with
  | EmptyString => EmptyString
  | String c s' =>
      match rstrip s' with
      | EmptyString => if is_space c then EmptyString else String c EmptyString
      | t => String c t
      end
  end.

Definition strip (s : string) : string := rstrip (lstrip s).

Definition to_lower (c : ascii) : ascii :=
  if (65 <=? code c) && (code c <=? 90)
  then ascii_of_N (Z.to_N (code c + 32)) else c.

Fixpoint lower (s : string) : string :=
  match s with
  | EmptyString => EmptyString
  | String c s' => String (to_lower c) (lower s')
  end.

(** Reads decimal digits: the number read so far, how many digits were
    read, and the rest of the text. *)
Fixpoint take_digits (s : string) (acc count : Z) : Z * Z * string :=
  match s with
  | String c s' =>
      if is_decimal c then take_digits s' (10 * acc + digit_value c) (count + 1)
      else (acc, count, s)
  | EmptyString => (acc, count, s)
  end.

Definition take_sign (s : string) : bool * string :=
  match s with
  | String "-" s' => (true, s')
  | String "+" s' => (false, s')
  | _ => (false, s)
  end.

(** Digits, an optional point and more digits (one digit at least), an
    optional exponent; the whole text must be used.  The value read is
    [m * 10^e]. *)
Definition parse_number (s : string) : option (Z * Z) :=
  let '(m1, n1, r1) := take_digits s 0 0 in
  let '(m2, n2, r2) := match r1 with
                       | String "." r1' => take_digits r1' m1 0
                       | _ => (m1, 0, r1)
                       end in
  if n1 + n2 <=? 0 then None
  else
    match r2 with
    | EmptyString => Some (m2, - n2)
    | String c r2' =>
        if Ascii.eqb c "e" || Ascii.eqb c "E" then
          let '(eneg, r3) := take_sign r2' in
          match take_digits r3 0 0 with
          | (ev, en, EmptyString) =>
              if en <=? 0 then None else Some (m2, cond_Zopp eneg ev - n2)
          | _ => None
          end
        else None
    end.

(** [float(s)]; raises [ValueError] on text that is not a number. *)
Definition of_str (s : string) : py float :=
  match remove_underscores "000"%char s with
  | None => Raise ValueError
  | Some t =>
      let '(neg, body) := take_sign (strip t) in
      let low := lower body in
      if String.eqb low "inf" || String.eqb low "infinity" then Ok (S754_infinity neg)
      else if String.eqb low "nan" then Ok S754_nan
      else match parse_number body with
           | Some (m, e) => Ok (of_decimal neg m e)
           | None => Raise ValueError
           end
  end.

(** *** Shortest round-trip digits, as [repr] and [numpy.float64.__str__]
    print them *)

(** The decimal point position of [num / den]: the first [k], counted up
    from [k0], with [num / den < 10^k]; [num] is pre-scaled by [10^(-k0)]. *)
Fixpoint decpt_from (fuel : nat) (k : Z) (num den : Z) : Z :=
  match fuel with
  | O => k
  | S fuel' => if num <? den then k else decpt_from fuel' (k + 1) num (10 * den)
  end.

Definition decpt_of (num den : Z) : Z :=
  decpt_from 800 (-400) (num * 10 ^ 400) den.

Definition string_of_Z (z : Z) : string :=
  NilZero.string_of_uint (N.to_uint (Z.to_N z)).

Fixpoint strip_trailing_zeros (s : string) : string :=
  match s with
  | EmptyString => EmptyString
  | String a s' =>
      match strip_trailing_zeros s' with
      | EmptyString => if Ascii.eqb a "0" then EmptyString else String a EmptyString
      | t => String a t
      end
  end.

Fixpoint zeros (n : nat) : string :=
  match n with
  | O => EmptyString
  | S n' => String "0" (zeros n')
  end.

Definition len (s : string) : Z := Z.of_nat (String.length s).

(** The text of the digits [ds] with the decimal point after the first
    [decpt] of them: in scientific notation when [decpt] is below -3 or
    above 16, positional otherwise. *)
Definition format_digits (ds : string) (decpt : Z) : string :=
  if (decpt <=? -4) || (16 <? decpt) then
    let ex := decpt - 1 in
    let mant := match ds with
                | String a EmptyString => ds
                | String a rest => String a (String "." rest)
                | EmptyString => ds
                end in
    let ea := string_of_Z (Z.abs ex) in
    mant ++ "e" ++ (if ex <? 0 then "-" else "+")
         ++ (if Z.abs ex <? 10 then "0" else EmptyString) ++ ea
  else if decpt <=? 0 then
    "0." ++ zeros (Z.to_nat (- decpt)) ++ ds
  else if len ds <=? decpt then
    ds ++ zeros (Z.to_nat (decpt - len ds)) ++ ".0"
  else
    substring 0 (Z.to_nat decpt) ds ++ "."
      ++ substring (Z.to_nat decpt) (String.length ds - Z.to_nat decpt) ds.

(** The text of [c * 10^(k-n)], for an integer [c] of [n] digits, or of
    [n + 1] digits when it is [10^n]: the digits of [c] without the zeros
    at their end, and the position of the decimal point. *)
Definition digits_text (c k n : Z) : string * Z :=
  let ds := string_of_Z c in
  (strip_trailing_zeros ds, k + (len ds - n)).

Definition render (c k n : Z) : string :=
  let '(ds, decpt) := digits_text c k n in format_digits ds decpt.

(** [float(s) == x] *)
Definition reads_back (x : float) (s : string) : bool :=
  match of_str s with
  | Ok y => SFeqb y x
  | Raise _ => false
  end.

(** The candidate with [n] significant digits for [num / den], whose
    decimal point position is [k]: of the two neighbours
    [c * 10^(k-n)] and [(c+1) * 10^(k-n)], those whose text [float] reads
    back as [x]; the nearer one when both do. *)
Definition digits_at (x : float) (num den k : Z) (n : Z) : option Z :=
  let sn := if 0 <=? k - n then num else num * 10 ^ (n - k) in
  let sd := if 0 <=? k - n then den * 10 ^ (k - n) else den in
  let lo := sn / sd in
  let r := sn mod sd in
  let ok c := reads_back x (render c k n) in
  let nearest := match 2 * r ?= sd with
                 | Lt => lo
                 | Gt => lo + 1
                 | Eq => if Z.even lo then lo else lo + 1
                 end in
  if r =? 0 then (if ok lo then Some lo else None)
  else if ok lo && ok (lo + 1) then Some nearest
  else if ok lo then Some lo
  else if ok (lo + 1) then Some (lo + 1)
  else None.

(** The first number of digits, counted up from [n], with a candidate that
    reads back as [x]. *)
Fixpoint shortest_from (fuel : nat) (x : float) (num den k : Z) (n : Z) : Z * Z :=
  match fuel with
  | O => ((if 0 <=? k - n then num / (den * 10 ^ (k - n)) else (num * 10 ^ (n - k)) / den), n)
  | S fuel' =>
      match digits_at x num den k n with
      | Some c => (c, n)
      | None => shortest_from fuel' x num den k (n + 1)
      end
  end.

(** The search ends with the shortest text that reads back as [x]: no
    binary64 number needs more than 17 digits, and with [search_limit]
    digits the decimal expansion of every binary64 number is complete. *)
Definition search_limit : nat := 1500.

(** The shortest digit string of a positive finite [x = m * 2^e], and the
    position of its decimal point. *)
Definition shortest_digits (x : float) (m : positive) (e : Z) : string * Z :=
  let num := if 0 <=? e then Zpos m * 2 ^ e else Zpos m in
  let den := if 0 <=? e then 1 else 2 ^ (- e) in
  let k := decpt_of num den in
  let '(c, n) := shortest_from search_limit x num den k 1 in
  digits_text c k n.

(** [str(x)] for a [numpy.float64] (and [repr(x)] for a [float]). *)
Definition to_str (x : float) : string :=
  match x with
  | S754_nan => "nan"
  | S754_infinity s => if s then "-inf" else "inf"
  | S754_zero s => if s then "-0.0" else "0.0"
  | S754_finite s m e =>
      let '(ds, decpt) := shortest_digits (S754_finite false m e) m e in
      (if s then "-" else EmptyString) ++ format_digits ds decpt
  end.

End Float64.

(** ** Python values that the functions return *)

Inductive value : Type :=
| PyInt (z : Z)
| PyFloat (x : Float64.float)
| PyStr (s : string)
| PyNone.

Definition isinstance_str (v : value) : bool :=
  match v with
  | PyStr _ => true
  | _ => false
  end.

(** ** [is_float] *)

(** [try: float(element); return True / except ValueError: return False] *)
Definition is_float (element : string) : py bool :=
  match Float64.of_str element with
  | Ok _ => Ok true
  | Raise ValueError => Ok false
  | Raise e => Raise e
  end.

(** ** The unit table *)

Definition available_units : list string :=
  ["mm"; "cm"; "m"; "km"; "inches"; "ft"; "yds"; "miles"].

(** [(1, 10, 1000, 1e6, 25.4, 304.8, 914.4, 1.609344e6)]; the three [int]
    entries are given as the floats they become when multiplied by one. *)
Definition conversions : list Float64.float :=
  [ Float64.of_Z 1; Float64.of_Z 10; Float64.of_Z 1000;
    Float64.of_decimal false 1 6; Float64.of_decimal false 254 (-1);
    Float64.of_decimal false 3048 (-1); Float64.of_decimal false 9144 (-1);
    Float64.of_decimal false 1609344 0 ].

(** [{unit: rate for unit, rate in zip(available_units, conversions)}] *)
Definition conversion_dict : list (string * Float64.float) :=
  combine available_units conversions.

Fixpoint dict_get {A : Type} (d : list (string * A)) (key : string) : py A :=
  match d with
  | [] => Raise KeyError
  | (k, v) :: d' => if String.eqb k key then Ok v else dict_get d' key
  end.

(** ** Unit detection

    The state of the scan is the pair of [flag] and [metric]; [metric] is
    unbound until a unit is found. *)

Definition unit_state : Type := (Z * option string)%type.

Definition unit_tokens (answer : string) : list string :=
  str_split " " (translate_delete punctuation answer).

(** The loop of the height variant, which ends with [break]. *)
Fixpoint scan_units_break (units tokens : list string) (st : unit_state) : unit_state :=
  match units with
  | [] => st
  | unit :: rest =>
      if str_in unit tokens then (1, Some unit)
      else scan_units_break rest tokens st
  end.

(** The loop of the two leaf variants, which has no [break]. *)
Fixpoint scan_units (units tokens : list string) (st : unit_state) : unit_state :=
  match units with
  | [] => st
  | unit :: rest =>
      scan_units rest tokens (if str_in unit tokens then (1, Some unit) else st)
  end.

Definition read_metric (metric : option string) : py string :=
  match metric with
  | Some u => Ok u
  | None => Raise NameError
  end.

(** ** The loop over the parts of the answer *)

Local Open Scope py_scope.

(** [str(np.round(float(part) * conversion_dict[metric] / divisor, 4))] *)
Definition convert_part (divisor : Z) (metric : option string) (part : string) : py string :=
  x <- Float64.of_str part ;;
  unit <- read_metric metric ;;
  rate <- dict_get conversion_dict unit ;;
  Ok (Float64.to_str
        (Float64.np_round (Float64.div (Float64.mul x rate) (Float64.of_Z divisor)) 4)).

Fixpoint parts_loop (divisor : Z) (metric : option string) (parts : list string)
    (counter : Z) (result : list string) : py string :=
  match parts with
  | [] => Ok (join " " result)
  | part :: rest =>
      if 2 <? counter then Ok "Too many numbers"
      else
        b <- is_float part ;;
        if (b : bool) then
          tmp <- convert_part divisor metric part ;;
          parts_loop divisor metric rest (counter + 1) (result ++ [tmp])%list
        else parts_loop divisor metric rest counter result
  end.

(** ** The three variants of the parser *)

Definition post_process_answer_height (answer : string) : py string :=
  let '(flag, metric) := scan_units_break available_units (unit_tokens answer) (0, None) in
  if flag =? 0 then Ok "No metric"
  else
    let answer := re_sub_empty pattern_paren_star answer in
    let answer := replace "-" " " answer in
    parts_loop 1000 metric (str_split " " answer) 0 [].

Definition post_process_answer_leaf_length (answer : string) : py string :=
  let '(flag, metric) := scan_units available_units (unit_tokens answer) (0, None) in
  if flag =? 0 then Ok "No metric"
  else
    answer <- (if str_contains "x" answer then py_index (str_split "x" answer) 0
               else Ok answer) ;;
    let answer := re_sub_empty pattern_paren_star answer in
    let answer := replace "-" " " answer in
    parts_loop 10 metric (str_split " " answer) 0 [].

Definition post_process_answer_leaf_width (answer : string) : py string :=
  let '(flag, metric) := scan_units available_units (unit_tokens answer) (0, None) in
  if flag =? 0 then Ok "No metric"
  else
    answer <- (if str_contains "x" answer then py_index (str_split "x" answer) 1
               else Ok answer) ;;
    let answer := re_sub_empty pattern_paren_any answer in
    let answer := replace "-" " " answer in
    parts_loop 10 metric (str_split " " answer) 0 [].

Inductive trait_kind : Type := Height | LeafLength | LeafWidth.

Definition normalize (kind : trait_kind) (answer : string) : py string :=
  match kind with
  | Height => post_process_answer_height answer
  | LeafLength => post_process_answer_leaf_length answer
  | LeafWidth => post_process_answer_leaf_width answer
  end.

(** ** The value resolver *)

Definition post_post_process_answer (answer : string) : py value :=
  let answer_parts := str_split " " answer in
  c1 <- (if (List.length answer_parts =? 1)%nat
         then p0 <- py_index answer_parts 0 ;; is_float p0
         else Ok false) ;;
  if (c1 : bool) then
    p0 <- py_index answer_parts 0 ;;
    x <- Float64.of_str p0 ;;
    Ok (PyFloat x)
  else
    c2 <- (if (List.length answer_parts =? 2)%nat
           then p0 <- py_index answer_parts 0 ;;
                b0 <- is_float p0 ;;
                if (b0 : bool) then p1 <- py_index answer_parts 1 ;; is_float p1
                else Ok false
           else Ok false) ;;
    if (c2 : bool) then
      p1 <- py_index answer_parts 1 ;;
      x <- Float64.of_str p1 ;;
      Ok (PyFloat x)
    else Ok (PyInt (-1)).

(** ** The best-answer selector *)

(** The dictionary that the question-answering pipeline returns. *)
Record qa_output : Type := { answer : string; score : Float64.float }.

(** [any(map(f, s))] over the characters of [s]. *)
Fixpoint str_any (f : ascii -> bool) (s : string) : bool :=
  match s with
  | EmptyString => false
  | String a s' => f a || str_any f s'
  end.

(** The scan of [numpy.argmax] over float64 data: a later element replaces
    the current maximum when it is not below or equal to it, and the first
    NaN ends the scan. *)
Fixpoint argmax_loop (l : list Float64.float) (i : nat) (mp : Float64.float)
    (max_ind : nat) : nat :=
  match l with
  | [] => max_ind
  | x :: rest =>
      if negb (Float64.leb x mp) then
        if Float64.is_nan x then i else argmax_loop rest (S i) x i
      else argmax_loop rest (S i) mp max_ind
  end.

(** [numpy.argmax(l)]; raises [ValueError] on an empty sequence. *)
Definition np_argmax (l : list Float64.float) : py nat :=
  match l with
  | [] => Raise ValueError
  | x :: rest => if Float64.is_nan x then Ok O else Ok (argmax_loop rest 1%nat x O)
  end.

Definition call : Type := (string * string)%type.

Section Selector.

(** The question-answering model is an opaque capability: a call takes the
    question and the context, returns an answer with its score or raises,
    and may change the state of the world either way. *)
Variable World : Type.

Definition pipeline : Type := string -> string -> World -> py qa_output * World.

(** The loop over the questions, with the two lists it appends to; an
    exception of the call ends it. *)
Fixpoint questions_loop (model_pipeline : pipeline) (Questions : list string)
    (Description : string) (answer_list : list string)
    (score_list : list Float64.float) (w : World)
  : py (list string * list Float64.float) * World :=
  match Questions with
  | [] => (Ok (answer_list, score_list), w)
  | question :: rest =>
      match model_pipeline question Description w with
      | (Ok res, w') =>
          let answer := answer res in
          let score := Float64.np_round (score res) 3 in
          questions_loop model_pipeline rest Description
            (answer_list ++ [answer])%list (score_list ++ [score])%list w'
      | (Raise e, w') => (Raise e, w')
      end
  end.

Definition QA_Prediction (Questions : list string) (Description : value)
    (model_pipeline : pipeline) (w : World) : py (string * string * value) * World :=
  match Description with
  | PyStr d =>
      if negb (str_any isdigit d) then (Ok (EmptyString, "No Number", PyInt 0), w)
      else
        match questions_loop model_pipeline Questions d [] [] w with
        | (Ok (answer_list, score_list), w') =>
            (best_answer_i <- np_argmax score_list ;;
             best_question <- py_index Questions best_answer_i ;;
             best_answer <- py_index answer_list best_answer_i ;;
             best_score <- py_index score_list best_answer_i ;;
             Ok (best_question, best_answer, PyFloat best_score), w')
        | (Raise e, w') => (Raise e, w')
        end
  | _ => (Ok (EmptyString, "No Description", PyInt 0), w)
  end.

(** The answers of the capability when it is asked the questions of a list
    once each, in the order of the list, up to the first call that raises. *)
Fixpoint ask_all (model_pipeline : pipeline) (Questions : list string)
    (Description : string) (w : World) : py (list qa_output) * World :=
  match Questions with
  | [] => (Ok [], w)
  | question :: rest =>
      match model_pipeline question Description w with
      | (Ok res, w') =>
          match ask_all model_pipeline rest Description w' with
          | (Ok more, w'') => (Ok (res :: more), w'')
          | (Raise e, w'') => (Raise e, w'')
          end
      | (Raise e, w') => (Raise e, w')
      end
  end.

(** The questions that are asked then: all of them, or those up to the call
    that raises, that call included. *)
Fixpoint asked (model_pipeline : pipeline) (Questions : list string)
    (Description : string) (w : World) : list string :=
  match Questions with
  | [] => []
  | question :: rest =>
      match model_pipeline question Description w with
      | (Ok _, w') => question :: asked model_pipeline rest Description w'
      | (Raise _, _) => [question]
      end
  end.

(** A capability that returns from every call. *)
Definition never_raises (model_pipeline : pipeline) : Prop :=
  forall question context w,
    exists res w', model_pipeline question context w = (Ok res, w').

(** A pipeline that also records each call it receives. *)
Definition recording (model_pipeline : pipeline)
  : string -> string -> World * list call -> py qa_output * (World * list call) :=
  fun question context st =>
    let '(res, w') := model_pipeline question context (fst st) in
    (res, (w', (snd st ++ [(question, context)])%list)).

End Selector.

Arguments questions_loop {World}.
Arguments QA_Prediction {World}.
Arguments ask_all {World}.
Arguments asked {World}.
Arguments never_raises {World}.
Arguments recording {World}.

(** The capability of the worked examples: it answers the first question
    with one answer and score and every other question with another, and
    counts its calls. *)
Definition two_answers (first_question : string) (first other : qa_output)
  : pipeline nat :=
  fun question _ n =>
    (Ok (if String.eqb question first_question then first else other), S n).

(** [i] is the first position of a maximum of [l]. *)
Definition first_max (l : list Float64.float) (i : nat) : Prop :=
  exists x,
    nth_error l i = Some x /\
    (forall j y, nth_error l j = Some y -> Float64.leb y x = true) /\
    (forall j y, (j < i)%nat -> nth_error l j = Some y -> SFltb y x = true).

(** ** Rounding to a number of decimals, as the specification words it

    [r] is the float of the integer nearest to the float [p], the even one
    of two integers that are equally near.  A finite [p] whose exponent is
    negative is the quotient [Zpos m / 2 ^ (- e)]: the integer [n] differs
    from it by a half at most.  A finite [p] whose exponent is not negative
    is an integer already. *)
Definition nearest_integer_float (p r : Float64.float) : Prop :=
  match p with
  | S754_finite s m e =>
      if 0 <=? e then r = p
      else
        exists n : Z,
          0 <= n /\
          2 * Z.abs (Zpos m - n * 2 ^ (- e)) <= 2 ^ (- e) /\
          (2 * Z.abs (Zpos m - n * 2 ^ (- e)) = 2 ^ (- e) -> Z.even n = true) /\
          r = binary_normalize Float64.prec Float64.emax (cond_Zopp s n) 0 s
  | _ => r = p
  end.

(** [y] is [x] rounded to [decimals] decimals: the quotient by
    [10 ^ decimals] of the integer nearest to the product of [x] and
    [10 ^ decimals], product and quotient being those of binary64. *)
Definition rounded_to_decimals (decimals : Z) (x y : Float64.float) : Prop :=
  exists r,
    nearest_integer_float (Float64.mul x (Float64.of_Z (10 ^ decimals))) r /\
    y = Float64.div r (Float64.of_Z (10 ^ decimals)).

(** ** The resolver, as the specification words it

    A measurement is a sequence of elements.  One element that reads as a
    number resolves to that number, two such elements resolve to the second,
    and every other shape is unresolved. *)
Definition resolve_spec (elements : list string) : value :=
  match elements with
  | [p] =>
      match Float64.of_str p with
      | Ok x => PyFloat x
      | Raise _ => PyInt (-1)
      end
  | [p0; p1] =>
      match Float64.of_str p0, Float64.of_str p1 with
      | Ok _, Ok x1 => PyFloat x1
      | _, _ => PyInt (-1)
      end
  | _ => PyInt (-1)
  end.

Definition no_space (s : string) : Prop := str_contains " " s = false.

Definition valid_number (p : string) : Prop := exists x, Float64.of_str p = Ok x.

(** The driver applies the resolver to the output of the parser. *)
Definition predict (kind : trait_kind) (answer : string) : py value :=
  post_processed <- normalize kind answer ;;
  post_post_process_answer post_processed.

(** ** Unit detection: the notions that the properties speak of *)

Definition unit_matches (tokens : list string) (unit : string) : bool :=
  str_in unit tokens.

(** The first unit, in the order of the table, that is one of the tokens. *)
Definition first_unit (tokens : list string) : option string :=
  find (unit_matches tokens) available_units.

(** The last unit, in the order of the table, that is one of the tokens. *)
Definition last_unit (tokens : list string) : option string :=
  find (unit_matches tokens) (rev available_units).

Definition found (o : option string) : unit_state :=
  match o with
  | Some unit => (1, Some unit)
  | None => (0, None)
  end.

(** The scan that each variant runs. *)
Definition detect_unit (kind : trait_kind) (answer : string) : unit_state :=
  match kind with
  | Height => scan_units_break available_units (unit_tokens answer) (0, None)
  | LeafLength => scan_units available_units (unit_tokens answer) (0, None)
  | LeafWidth => scan_units available_units (unit_tokens answer) (0, None)
  end.

Definition detected_metric (kind : trait_kind) (answer : string) : option string :=
  snd (detect_unit kind answer).

(** What each variant does once the unit is known. *)
Definition after_detection (kind : trait_kind) (metric : option string)
    (answer : string) : py string :=
  match kind with
  | Height =>
      parts_loop 1000 metric
        (str_split " " (replace "-" " " (re_sub_empty pattern_paren_star answer))) 0 []
  | LeafLength =>
      answer <- (if str_contains "x" answer then py_index (str_split "x" answer) 0
                 else Ok answer) ;;
      parts_loop 10 metric
        (str_split " " (replace "-" " " (re_sub_empty pattern_paren_star answer))) 0 []
  | LeafWidth =>
      answer <- (if str_contains "x" answer then py_index (str_split "x" answer) 1
                 else Ok answer) ;;
      parts_loop 10 metric
        (str_split " " (replace "-" " " (re_sub_empty pattern_paren_any answer))) 0 []
  end.

(** [u] stands in [s] as a word of its own: it holds no space, and on each
    side it meets a space or the end of [s]. *)
Definition standalone_word (u s : string) : Prop :=
  exists pre post,
    s = pre ++ u ++ post /\ no_space u /\
    (pre = EmptyString \/ exists pre', pre = pre' ++ " ") /\
    (post = EmptyString \/ exists post', post = String " " post').

Definition is_lower_letter (c : ascii) : bool := (97 <=? code c) && (code c <=? 122).

Definition not_nan (x : Float64.float) : Prop := Float64.is_nan x = false.

(** ** The parts that a variant loops over *)

(** Whether [float(part)] succeeds. *)
Definition numeric (part : string) : bool :=
  match Float64.of_str part with
  | Ok _ => true
  | Raise _ => false
  end.

Definition count_numeric (parts : list string) : Z :=
  Z.of_nat (List.length (filter numeric parts)).

(** The conversions of the numeric parts, in the order of the parts. *)
Definition converted_values (divisor : Z) (unit : string) (parts : list string)
  : list string :=
  flat_map (fun part => match convert_part divisor (Some unit) part with
                        | Ok tmp => [tmp]
                        | Raise _ => []
                        end) parts.

Definition divisor_of (kind : trait_kind) : Z :=
  match kind with
  | Height => 1000
  | LeafLength => 10
  | LeafWidth => 10
  end.

Definition pattern_of (kind : trait_kind) : regex :=
  match kind with
  | Height => pattern_paren_star
  | LeafLength => pattern_paren_star
  | LeafWidth => pattern_paren_any
  end.

(** The text that is left after the split on the dimension separator. *)
Definition kept_segment (kind : trait_kind) (answer : string) : string :=
  match kind with
  | Height => answer
  | LeafLength =>
      if str_contains "x" answer then nth 0 (str_split "x" answer) EmptyString
      else answer
  | LeafWidth =>
      if str_contains "x" answer then nth 1 (str_split "x" answer) EmptyString
      else answer
  end.

Definition answer_parts (kind : trait_kind) (answer : string) : list string :=
  str_split " " (replace "-" " " (re_sub_empty (pattern_of kind) (kept_segment kind answer))).

Fixpoint str_all (f : ascii -> bool) (s : string) : bool :=
  match s with
  | EmptyString => true
  | String a s' => f a && str_all f s'
  end.

(** The characters of a printed float. *)
Definition float_char (c : ascii) : bool :=
  is_decimal c || str_contains c ".e+-infa".

(** ** Notions for the two regular expressions *)

Definition is_paren (c : ascii) : bool := Ascii.eqb c "(" || Ascii.eqb c ")".

(** The first [n] characters of [s] are parentheses. *)
Fixpoint parens_prefix (n : nat) (s : string) : Prop :=
  match n with
  | O => True
  | S k =>
      match s with
      | String a s' => is_paren a = true /\ parens_prefix k s'
      | EmptyString => False
      end
  end.

(** A run of opening parentheses that ends with a closing one. *)
Fixpoint star_len (s : string) : option nat :=
  match s with
  | EmptyString => None
  | String a s' =>
      if Ascii.eqb a ")" then Some 1%nat
      else if Ascii.eqb a "(" then option_map S (star_len s')
      else None
  end.

(** Anything but a newline, up to the first closing parenthesis. *)
Fixpoint any_len (s : string) : option nat :=
  match s with
  | EmptyString => None
  | String a s' =>
      if Ascii.eqb a ")" then Some 1%nat
      else if negb (Ascii.eqb a "010"%char) then option_map S (any_len s')
      else None
  end.

(** ** The driver: one pass over the rows of a dataset

    The rows are the pairs of a description and a trait value that the mask
    of the trait selects.  The pass is followed up to the list of the
    resolved predictions, before it is turned into an array and written
    back into the frame. *)

Record collected : Type := {
  question_list : list string;
  answer_list : list string;
  score_list : list value;
  true_list : list value;
  description_list : list value
}.

Definition no_rows : collected :=
  {| question_list := []; answer_list := []; score_list := [];
     true_list := []; description_list := [] |}.

(** [[f(x) for x in l]] *)
Fixpoint list_comprehension {A B : Type} (f : A -> py B) (l : list A) : py (list B) :=
  match l with
  | [] => Ok []
  | x :: rest =>
      y <- f x ;;
      ys <- list_comprehension f rest ;;
      Ok (y :: ys)
  end.

Section Driver.

Variable World : Type.

(** The loop over the rows, with the five lists it appends to; an
    exception of the selector ends it. *)
Fixpoint rows_loop (Questions : list string) (model_pipeline : pipeline World)
    (rows : list (value * value)) (acc : collected) (w : World)
  : py collected * World :=
  match rows with
  | [] => (Ok acc, w)
  | (description, trait_value) :: rest =>
      match QA_Prediction Questions description model_pipeline w with
      | (Ok (ques, ans, score), w') =>
          rows_loop Questions model_pipeline rest
            {| question_list := (question_list acc ++ [ques])%list;
               answer_list := (answer_list acc ++ [ans])%list;
               score_list := (score_list acc ++ [score])%list;
               true_list := (true_list acc ++ [trait_value])%list;
               description_list := (description_list acc ++ [description])%list |}
            w'
      | (Raise e, w') => (Raise e, w')
      end
  end.

Definition dataset_predictions (kind : trait_kind) (Questions : list string)
    (model_pipeline : pipeline World) (rows : list (value * value)) (w : World)
  : py (collected * list string * list value) * World :=
  match rows_loop Questions model_pipeline rows no_rows w with
  | (Ok acc, w') =>
      (post_predictions <- list_comprehension (normalize kind) (answer_list acc) ;;
       post_post_predictions <-
         list_comprehension post_post_process_answer post_predictions ;;
       Ok (acc, post_predictions, post_post_predictions), w')
  | (Raise e, w') => (Raise e, w')
  end.

End Driver.

Arguments rows_loop {World}.
Arguments dataset_predictions {World}.

(** The entries that a pass collects, row by row: what the selector returns
    for the description of the row, on the state that the rows before it
    left. *)
Fixpoint rows_selected {World : Type} (Questions : list string)
    (model_pipeline : pipeline World) (rows : list (value * value)) (w : World)
    (questions answers : list string) (scores : list value) (w' : World) : Prop :=
  match rows, questions, answers, scores with
  | [], [], [], [] => w' = w
  | (description, _) :: rows', ques :: questions', ans :: answers', score :: scores' =>
      exists w1,
        QA_Prediction Questions description model_pipeline w = (Ok (ques, ans, score), w1) /\
        rows_selected Questions model_pipeline rows' w1 questions' answers' scores' w'
  | _, _, _, _ => False
  end.

(** The calls that a pass over the rows is expected to make: every question,
    in order, for every row whose description is a [str] with a digit. *)
Definition expected_calls (Questions : list string) (rows : list (value * value))
  : list call :=
  flat_map (fun row => match fst row with
                       | PyStr d =>
                           if str_any isdigit d
                           then map (fun question => (question, d)) Questions
                           else []
                       | _ => []
                       end) rows.

(** A description on which the selector returns at once. *)
Definition degenerate (Description : value) : bool :=
  match Description with
  | PyStr d => negb (str_any isdigit d)
  | _ => true
  end.

Definition early_answer (Description : value) : string :=
  match Description with
  | PyStr _ => "No Number"
  | _ => "No Description"
  end.

(** The value of the parser, which never raises. *)
Definition normalized (kind : trait_kind) (answer : string) : string :=
  match detected_metric kind answer with
  | None => "No metric"
  | Some unit =>
      if 3 <=? count_numeric (removelast (answer_parts kind answer))
      then "Too many numbers"
      else join " " (converted_values (divisor_of kind) unit (answer_parts kind answer))
  end.

(** A float whose sign bit is clear, or a NaN. *)
Definition sign_clear (x : Float64.float) : Prop :=
  match x with
  | S754_zero s => s = false
  | S754_infinity s => s = false
  | S754_finite s _ _ => s = false
  | S754_nan => True
  end.

(** A finite float above zero. *)
Definition positive_finite (x : Float64.float) : Prop :=
  match x with
  | S754_finite s _ _ => s = false
  | _ => False
  end.

Definition first_char_ok (f : ascii -> bool) (s : string) : Prop :=
  match s with
  | String a _ => f a = true
  | EmptyString => True
  end.

Definition not_sign_char (c : ascii) : bool :=
  negb (Ascii.eqb c "-") && negb (Ascii.eqb c "+").

(** ** Notions for printing a float and reading it back *)

(** A binary64 number: a mantissa of 53 bits at most in its canonical
    position, and an exponent in range. *)
Definition binary64 (x : Float64.float) : Prop :=
  valid_binary Float64.prec Float64.emax x = true.

(** The number that a string of decimal digits denotes, after [acc]. *)
Fixpoint digits_value (acc : Z) (s : string) : Z :=
  match s with
  | String c s' => digits_value (10 * acc + digit_value c) s'
  | EmptyString => acc
  end.

(** [M * 10^E = m * 2^e], over the integers. *)
Definition same_value (M E : Z) (m : positive) (e : Z) : Prop :=
  M * 10 ^ Z.max 0 E * 2 ^ Z.max 0 (- e) = Zpos m * 2 ^ Z.max 0 e * 10 ^ Z.max 0 (- E).

Definition exponent_sign (neg : bool) : string := if neg then "-" else "+".

Definition starts_with_digit (s : string) : Prop :=
  match s with
  | String a _ => is_decimal a = true
  | EmptyString => False
  end.

(** * Properties *)

(** ** Splitting and joining *)

Lemma str_split_not_nil (sep : ascii) (s : string) : str_split sep s <> [].
Proof.
  destruct s as [|a s']; simpl.
  - discriminate.
  - destruct (Ascii.eqb a sep); [discriminate|].
    destruct (str_split sep s'); discriminate.
Qed.

Lemma str_split_no_sep (sep : ascii) (s : string) :
  str_contains sep s = false -> str_split sep s = [s].
Proof.
  induction s as [|a s' IH]; simpl; intros H.
  - reflexivity.
  - apply orb_false_iff in H. destruct H as [Ha Hs].
    rewrite Ha, (IH Hs). reflexivity.
Qed.

Lemma str_split_app (sep : ascii) (p s : string) :
  str_contains sep p = false ->
  str_split sep (p ++ String sep s) = p :: str_split sep s.
Proof.
  induction p as [|a p' IH]; simpl; intros H.
  - rewrite Ascii.eqb_refl. reflexivity.
  - apply orb_false_iff in H. destruct H as [Ha Hp].
    rewrite Ha, (IH Hp). reflexivity.
Qed.

(** Joining elements that hold no space and splitting again gives the
    elements back. *)
Lemma str_split_join (elements : list string) :
  elements <> [] -> Forall no_space elements ->
  str_split " " (join " " elements) = elements.
Proof.
  induction elements as [|p rest IH]; intros Hne Hall.
  - contradiction.
  - inversion Hall as [|? ? Hp Hrest]; subst.
    destruct rest as [|p' rest'].
    + simpl. apply str_split_no_sep, Hp.
    + change (join " " (p :: p' :: rest')) with (p ++ String " " (join " " (p' :: rest'))).
      rewrite str_split_app by exact Hp.
      rewrite IH; [reflexivity | discriminate | exact Hrest].
Qed.

(** ** [float] and [is_float] never raise anything but [ValueError] *)

Lemma of_str_raises (s : string) (e : exn) :
  Float64.of_str s = Raise e -> e = ValueError.
Proof.
  unfold Float64.of_str.
  destruct (Float64.remove_underscores _ s) as [t|]; [|congruence].
  destruct (Float64.take_sign (Float64.strip t)) as [neg body].
  destruct (_ || _); [discriminate|].
  destruct (String.eqb _ "nan"); [discriminate|].
  destruct (Float64.parse_number body) as [[m ex]|]; congruence.
Qed.

Lemma is_float_spec (element : string) :
  is_float element = Ok (match Float64.of_str element with
                         | Ok _ => true
                         | Raise _ => false
                         end).
Proof.
  unfold is_float.
  destruct (Float64.of_str element) as [x|e] eqn:E; [reflexivity|].
  rewrite (of_str_raises _ _ E). reflexivity.
Qed.

(** The resolver computes [resolve_spec] on the parts of its input and
    never raises. *)
Lemma post_post_process_answer_spec (answer : string) :
  post_post_process_answer answer = Ok (resolve_spec (str_split " " answer)).
Proof.
  unfold post_post_process_answer.
  pose proof (str_split_not_nil " " answer) as Hne.
  destruct (str_split " " answer) as [|p0 [|p1 [|p2 rest]]]; [contradiction| | |].
  - cbn [List.length Nat.eqb py_index nth_error py_bind resolve_spec].
    rewrite is_float_spec.
    destruct (Float64.of_str p0) as [x|e]; reflexivity.
  - cbn [List.length Nat.eqb py_index nth_error py_bind resolve_spec].
    rewrite !is_float_spec.
    destruct (Float64.of_str p0) as [x0|e0]; cbn [py_bind].
    + destruct (Float64.of_str p1) as [x1|e1]; reflexivity.
    + destruct (Float64.of_str p1); reflexivity.
  - reflexivity.
Qed.

(** ** The resolver *)

(** C10: on every string the resolver returns, without raising, either a
    parsed float or the integer -1: [is_float] turns the failure of [float]
    into [False], and a split on spaces has at least one part. *)
Theorem C10_resolver_total (answer : string) :
  (exists v, post_post_process_answer answer = Ok v /\
             (v = PyInt (-1) \/ exists x, v = PyFloat x)) /\
  (exists b, is_float answer = Ok b) /\
  str_split " " answer <> [].
Proof.
  split; [|split].
  - exists (resolve_spec (str_split " " answer)).
    split; [apply post_post_process_answer_spec|].
    unfold resolve_spec.
    destruct (str_split " " answer) as [|p0 [|p1 [|p2 rest]]]; auto.
    + destruct (Float64.of_str p0) as [x|e]; eauto.
    + destruct (Float64.of_str p0) as [x0|e0]; auto.
      destruct (Float64.of_str p1) as [x1|e1]; eauto.
  - rewrite is_float_spec. eauto.
  - apply str_split_not_nil.
Qed.

(** ** Worked examples of the specification *)

(** C6: for the height, the answer 20-37 cm is normalised to the two
    values 0.2 and 0.37 and resolves to 0.37; the answer 1.8 m is normalised
    to the single value 1.8 and resolves to 1.8. *)
Theorem C6_height_examples :
  normalize Height "20-37 cm" = Ok "0.2 0.37" /\
  post_post_process_answer "0.2 0.37" = Ok (PyFloat (Float64.of_decimal false 37 (-2))) /\
  predict Height "20-37 cm" = Ok (PyFloat (Float64.of_decimal false 37 (-2))) /\
  normalize Height "1.8 m" = Ok "1.8" /\
  post_post_process_answer "1.8" = Ok (PyFloat (Float64.of_decimal false 18 (-1))) /\
  predict Height "1.8 m" = Ok (PyFloat (Float64.of_decimal false 18 (-1))) /\
  Float64.to_str (Float64.of_decimal false 37 (-2)) = "0.37" /\
  Float64.to_str (Float64.of_decimal false 18 (-1)) = "1.8".
Proof.
  repeat split; vm_compute; reflexivity.
Qed.

(** C7: on 20-40x10-30 mm the unit mm is found on the whole text; the leaf
    length variant keeps the segment before the first x and returns 2.0 4.0,
    which resolves to 4.0; the leaf width variant keeps the segment after it
    and returns 1.0 3.0, which resolves to 3.0. *)
Theorem C7_leaf_examples :
  scan_units available_units (unit_tokens "20-40x10-30 mm") (0, None) = (1, Some "mm") /\
  str_split "x" "20-40x10-30 mm" = ["20-40"; "10-30 mm"] /\
  normalize LeafLength "20-40x10-30 mm" = Ok "2.0 4.0" /\
  predict LeafLength "20-40x10-30 mm" = Ok (PyFloat (Float64.of_decimal false 4 0)) /\
  normalize LeafWidth "20-40x10-30 mm" = Ok "1.0 3.0" /\
  predict LeafWidth "20-40x10-30 mm" = Ok (PyFloat (Float64.of_decimal false 3 0)) /\
  normalize LeafLength "20-40" = Ok "No metric" /\
  Float64.to_str (Float64.of_decimal false 4 0) = "4.0" /\
  Float64.to_str (Float64.of_decimal false 3 0) = "3.0".
Proof.
  repeat split; vm_compute; reflexivity.
Qed.

(** ** Where the code departs from its own comments *)

(** C1: an answer with a unit and three numbers, the third of which is the
    last part, comes back with three values and not as the sentinel; the
    sentinel is returned only when a further part follows the third number. *)
Theorem C1_three_values_returned :
  normalize Height "1.5 m, rarely 2-3" = Ok "1.5 2.0 3.0" /\
  normalize LeafLength "1.5 m, rarely 2-3" = Ok "150.0 200.0 300.0" /\
  normalize LeafWidth "1.5 m, rarely 2-3" = Ok "150.0 200.0 300.0" /\
  normalize Height "1 2 3 cm" = Ok "Too many numbers".
Proof.
  repeat split; vm_compute; reflexivity.
Qed.

(** C5: the pattern of the height and leaf length variants deletes closing
    parentheses only, so a number inside parentheses is still read; the
    pattern of the leaf width variant deletes the parenthesis with its
    content. *)
Theorem C5_parenthesis_content_kept :
  re_sub_empty pattern_paren_star "3 m (rarely 10)" = "3 m (rarely 10" /\
  normalize Height "3 m (rarely 10)" = Ok "3.0 10.0" /\
  normalize LeafLength "3 m (rarely 10)" = Ok "300.0 1000.0" /\
  re_sub_empty pattern_paren_any "3 m (rarely 10)" = "3 m " /\
  normalize LeafWidth "3 m (rarely 10)" = Ok "300.0".
Proof.
  repeat split; vm_compute; reflexivity.
Qed.

(** ** Unit detection *)

Section Scan.

Variable tokens : list string.

Lemma scan_units_break_find (units : list string) (st : unit_state) :
  scan_units_break units tokens st =
  match find (unit_matches tokens) units with
  | Some unit => (1, Some unit)
  | None => st
  end.
Proof.
  induction units as [|unit rest IH]; simpl.
  - reflexivity.
  - unfold unit_matches at 1. destruct (str_in unit tokens); [reflexivity | apply IH].
Qed.

Lemma find_app_last (units : list string) (unit : string) :
  find (unit_matches tokens) (units ++ [unit]) =
  match find (unit_matches tokens) units with
  | Some v => Some v
  | None => if unit_matches tokens unit then Some unit else None
  end.
Proof.
  induction units as [|v rest IH]; simpl.
  - reflexivity.
  - destruct (unit_matches tokens v); [reflexivity | apply IH].
Qed.

Lemma scan_units_find_rev (units : list string) (st : unit_state) :
  scan_units units tokens st =
  match find (unit_matches tokens) (rev units) with
  | Some unit => (1, Some unit)
  | None => st
  end.
Proof.
  revert st. induction units as [|unit rest IH]; intros st; simpl.
  - reflexivity.
  - rewrite IH, find_app_last.
    destruct (find (unit_matches tokens) (rev rest)); [reflexivity|].
    unfold unit_matches. destruct (str_in unit tokens); reflexivity.
Qed.

End Scan.

Lemma detect_unit_height (answer : string) :
  detect_unit Height answer = found (first_unit (unit_tokens answer)).
Proof.
  unfold detect_unit, first_unit. rewrite scan_units_break_find.
  destruct (find _ _); reflexivity.
Qed.

Lemma detect_unit_leaf (kind : trait_kind) (answer : string) :
  kind <> Height ->
  detect_unit kind answer = found (last_unit (unit_tokens answer)).
Proof.
  intros Hk. destruct kind; [contradiction| |];
    unfold detect_unit, last_unit; rewrite scan_units_find_rev;
    destruct (find _ _); reflexivity.
Qed.

(** Every variant is its scan followed by the rest of its body. *)
Lemma normalize_detect (kind : trait_kind) (answer : string) :
  normalize kind answer =
  match detected_metric kind answer with
  | None => Ok "No metric"
  | Some unit => after_detection kind (Some unit) answer
  end.
Proof.
  unfold detected_metric.
  destruct kind.
  - rewrite detect_unit_height. unfold normalize, post_process_answer_height.
    change (scan_units_break available_units (unit_tokens answer) (0, None))
      with (detect_unit Height answer).
    rewrite detect_unit_height.
    destruct (first_unit (unit_tokens answer)); reflexivity.
  - rewrite detect_unit_leaf by discriminate.
    unfold normalize, post_process_answer_leaf_length.
    change (scan_units available_units (unit_tokens answer) (0, None))
      with (detect_unit LeafLength answer).
    rewrite detect_unit_leaf by discriminate.
    destruct (last_unit (unit_tokens answer)); reflexivity.
  - rewrite detect_unit_leaf by discriminate.
    unfold normalize, post_process_answer_leaf_width.
    change (scan_units available_units (unit_tokens answer) (0, None))
      with (detect_unit LeafWidth answer).
    rewrite detect_unit_leaf by discriminate.
    destruct (last_unit (unit_tokens answer)); reflexivity.
Qed.

(** C2, as the code has it: the units are tried in the order mm, cm, m, km,
    inches, ft, yds, miles against the space-separated tokens of the answer
    without its punctuation; the height variant takes the first unit that
    matches, the leaf length and the leaf width variants take the last. *)
Theorem C2_unit_priority (answer : string) :
  available_units = ["mm"; "cm"; "m"; "km"; "inches"; "ft"; "yds"; "miles"] /\
  detected_metric Height answer = first_unit (unit_tokens answer) /\
  detected_metric LeafLength answer = last_unit (unit_tokens answer) /\
  detected_metric LeafWidth answer = last_unit (unit_tokens answer) /\
  (forall kind,
     normalize kind answer =
     match detected_metric kind answer with
     | None => Ok "No metric"
     | Some unit => after_detection kind (Some unit) answer
     end).
Proof.
  unfold detected_metric.
  rewrite detect_unit_height, !detect_unit_leaf by discriminate.
  repeat split.
  - destruct (first_unit _); reflexivity.
  - destruct (last_unit _); reflexivity.
  - destruct (last_unit _); reflexivity.
  - intros kind. apply normalize_detect.
Qed.

(** C2 fails for the leaf length: on an answer with the tokens m and cm the
    first unit of the table that matches is cm, and the variant takes m. *)
Lemma C2_counterexample :
  first_unit (unit_tokens "2 m 50 cm") = Some "cm" /\
  detected_metric Height "2 m 50 cm" = Some "cm" /\
  detected_metric LeafLength "2 m 50 cm" = Some "m" /\
  detected_metric LeafLength "2 m 50 cm" <> first_unit (unit_tokens "2 m 50 cm") /\
  normalize LeafLength "2 m 50 cm" = Ok "200.0 5000.0".
Proof.
  repeat split; try (vm_compute; reflexivity).
  vm_compute. discriminate.
Qed.

(** ** Tokens are standalone words *)

Lemma append_empty_r (s : string) : s ++ EmptyString = s.
Proof.
  induction s as [|a s' IH]; simpl; [reflexivity | rewrite IH; reflexivity].
Qed.

Lemma append_assoc (a b c : string) : (a ++ b) ++ c = a ++ (b ++ c).
Proof.
  induction a as [|x a' IH]; simpl; [reflexivity | rewrite IH; reflexivity].
Qed.

Lemma str_split_parts_no_sep (sep : ascii) (s : string) :
  Forall (fun w => str_contains sep w = false) (str_split sep s).
Proof.
  induction s as [|a s' IH]; simpl.
  - repeat constructor.
  - destruct (Ascii.eqb a sep) eqn:E.
    + constructor; [reflexivity | exact IH].
    + destruct (str_split sep s') as [|w ws].
      * repeat constructor. simpl. rewrite E. reflexivity.
      * inversion IH as [|? ? Hw Hws]; subst.
        constructor; [|exact Hws]. simpl. rewrite E. exact Hw.
Qed.

(** [s.split(sep)] cuts at every separator and nowhere else. *)
Lemma str_split_app_sep (sep : ascii) (a b : string) :
  str_split sep (a ++ String sep b) = (str_split sep a ++ str_split sep b)%list.
Proof.
  induction a as [|c a' IH]; simpl.
  - rewrite Ascii.eqb_refl. reflexivity.
  - destruct (Ascii.eqb c sep).
    + rewrite IH. reflexivity.
    + rewrite IH.
      pose proof (str_split_not_nil sep a') as Hne.
      destruct (str_split sep a') as [|w ws]; [contradiction | reflexivity].
Qed.

Lemma join_split (sep : ascii) (s : string) :
  join (String sep EmptyString) (str_split sep s) = s.
Proof.
  induction s as [|a s' IH]; simpl.
  - reflexivity.
  - destruct (Ascii.eqb a sep) eqn:E.
    + apply Ascii.eqb_eq in E. subst a.
      pose proof (str_split_not_nil sep s') as Hne.
      destruct (str_split sep s') as [|w ws]; [contradiction|].
      change (join (String sep EmptyString) (EmptyString :: w :: ws))
        with (String sep (join (String sep EmptyString) (w :: ws))).
      rewrite IH. reflexivity.
    + pose proof (str_split_not_nil sep s') as Hne.
      destruct (str_split sep s') as [|w ws]; [contradiction|].
      destruct ws as [|w' ws'].
      * simpl in *. rewrite IH. reflexivity.
      * change (join (String sep EmptyString) (String a w :: w' :: ws'))
          with (String a (w ++ String sep (join (String sep EmptyString) (w' :: ws')))).
        change (join (String sep EmptyString) (w :: w' :: ws'))
          with (w ++ String sep (join (String sep EmptyString) (w' :: ws'))) in IH.
        rewrite IH. reflexivity.
Qed.

Lemma join_middle (l1 l2 : list string) (u : string) :
  exists pre post,
    join " " (l1 ++ u :: l2) = pre ++ u ++ post /\
    (pre = EmptyString \/ exists pre', pre = pre' ++ " ") /\
    (post = EmptyString \/ exists post', post = String " " post').
Proof.
  induction l1 as [|w l1' IH].
  - exists EmptyString. destruct l2 as [|v l2'].
    + exists EmptyString. simpl. rewrite append_empty_r. auto.
    + exists (String " " (join " " (v :: l2'))). simpl. split; [reflexivity|].
      split; [auto | right; eauto].
  - destruct IH as (pre & post & Heq & Hpre & Hpost).
    exists (w ++ String " " pre), post.
    split; [|split; [right | exact Hpost]].
    + assert (Hcons : join " " ((w :: l1') ++ u :: l2)
                      = w ++ String " " (join " " (l1' ++ u :: l2))).
      { simpl. destruct (l1' ++ u :: l2)%list eqn:E; [|reflexivity].
        destruct l1'; discriminate. }
      rewrite Hcons, Heq.
      rewrite append_assoc. reflexivity.
    + destruct Hpre as [-> | [pre' ->]].
      * exists w. reflexivity.
      * exists (w ++ String " " pre'). rewrite append_assoc. reflexivity.
Qed.

(** The tokens of a text are exactly its standalone words. *)
Lemma token_standalone (u s : string) :
  In u (str_split " " s) <-> standalone_word u s.
Proof.
  split.
  - intros Hin.
    destruct (in_split _ _ Hin) as (l1 & l2 & Hl).
    destruct (join_middle l1 l2 u) as (pre & post & Heq & Hpre & Hpost).
    exists pre, post. split; [|split; [|split; assumption]].
    + rewrite <- Heq, <- Hl. symmetry. apply join_split.
    + pose proof (str_split_parts_no_sep " " s) as Hall.
      rewrite Forall_forall in Hall. apply Hall, Hin.
  - intros (pre & post & Heq & Hu & Hpre & Hpost). subst s.
    assert (Htail : In u (str_split " " (u ++ post))).
    { destruct Hpost as [-> | [post' ->]].
      - rewrite append_empty_r, (str_split_no_sep _ _ Hu). left. reflexivity.
      - rewrite (str_split_app _ _ _ Hu). left. reflexivity. }
    destruct Hpre as [-> | [pre' ->]].
    + exact Htail.
    + rewrite append_assoc. simpl.
      rewrite str_split_app_sep. apply in_or_app. right. exact Htail.
Qed.

(** ** Punctuation and letter case *)

Lemma translate_delete_app (deleted a b : string) :
  translate_delete deleted (a ++ b) =
  translate_delete deleted a ++ translate_delete deleted b.
Proof.
  induction a as [|c a' IH]; simpl.
  - reflexivity.
  - destruct (str_contains c deleted); rewrite IH; reflexivity.
Qed.

Lemma str_contains_app (c : ascii) (a b : string) :
  str_contains c (a ++ b) = str_contains c a || str_contains c b.
Proof.
  induction a as [|x a' IH]; simpl.
  - reflexivity.
  - rewrite IH. apply orb_assoc.
Qed.

Lemma str_contains_translate_delete (c : ascii) (deleted s : string) :
  str_contains c (translate_delete deleted s) = true -> str_contains c s = true.
Proof.
  induction s as [|a s' IH]; simpl; intros H.
  - discriminate.
  - destruct (str_contains a deleted).
    + rewrite (IH H). apply orb_true_r.
    + simpl in H. apply orb_true_iff in H. destruct H as [H|H].
      * rewrite H. reflexivity.
      * rewrite (IH H). apply orb_true_r.
Qed.

Lemma find_some_unit (tokens : list string) (units : list string) (u : string) :
  find (unit_matches tokens) units = Some u -> In u units /\ In u tokens.
Proof.
  intros H. apply find_some in H. destruct H as [Hin Hm].
  split; [exact Hin|].
  unfold unit_matches, str_in in Hm. apply existsb_exists in Hm.
  destruct Hm as (w & Hw & Heq). apply String.eqb_eq in Heq. subst w. exact Hw.
Qed.

Lemma find_none_unit (tokens : list string) (units : list string) :
  (forall u, In u units -> ~ In u tokens) ->
  find (unit_matches tokens) units = None.
Proof.
  intros H. destruct (find (unit_matches tokens) units) as [u|] eqn:E; [|reflexivity].
  apply find_some_unit in E. destruct E as [Hu Ht]. exfalso. exact (H u Hu Ht).
Qed.

Lemma detected_metric_token (kind : trait_kind) (answer u : string) :
  detected_metric kind answer = Some u ->
  In u available_units /\ In u (unit_tokens answer).
Proof.
  unfold detected_metric. intros H.
  destruct kind.
  - rewrite detect_unit_height in H. unfold first_unit in H.
    destruct (find _ _) as [v|] eqn:E; simpl in H; [|discriminate].
    injection H as ->. exact (find_some_unit _ _ _ E).
  - rewrite detect_unit_leaf in H by discriminate. unfold last_unit in H.
    destruct (find _ _) as [v|] eqn:E; simpl in H; [|discriminate].
    injection H as ->. apply find_some_unit in E. destruct E as [Hin Ht].
    split; [apply in_rev; exact Hin | exact Ht].
  - rewrite detect_unit_leaf in H by discriminate. unfold last_unit in H.
    destruct (find _ _) as [v|] eqn:E; simpl in H; [|discriminate].
    injection H as ->. apply find_some_unit in E. destruct E as [Hin Ht].
    split; [apply in_rev; exact Hin | exact Ht].
Qed.

Lemma detected_metric_none (kind : trait_kind) (answer : string) :
  (forall u, In u available_units -> ~ In u (unit_tokens answer)) ->
  detected_metric kind answer = None.
Proof.
  intros H. destruct (detected_metric kind answer) as [u|] eqn:E; [|reflexivity].
  apply detected_metric_token in E. destruct E as [Hu Ht].
  exfalso. exact (H u Hu Ht).
Qed.

(** Every unit symbol starts with a lower-case letter. *)
Lemma unit_has_lower_letter (u : string) :
  In u available_units ->
  exists c, is_lower_letter c = true /\ str_contains c u = true.
Proof.
  intros Hin. simpl in Hin.
  repeat (destruct Hin as [<- | Hin];
          [match goal with
           | |- context [str_contains _ (String ?a _)] => exists a
           end; split; reflexivity|]).
  contradiction.
Qed.

Lemma unit_tokens_punctuation (pre post : string) (c : ascii) :
  str_contains c punctuation = true ->
  unit_tokens (pre ++ String c post) = unit_tokens (pre ++ post).
Proof.
  intros Hc. unfold unit_tokens.
  rewrite !translate_delete_app.
  cbn [translate_delete]. rewrite Hc. reflexivity.
Qed.

(** C9, as the code has it: unit detection does not depend on punctuation
    characters in the answer; it is sensitive to letter case, the symbols
    being matched as the table spells them, in lower case; the unit that is
    detected stands as a word of its own in the answer without its
    punctuation; and an answer in which no unit symbol stands so is
    answered with the sentinel for a missing unit. *)
Theorem C9_unit_detection (kind : trait_kind) (answer : string) :
  (forall pre c post,
     answer = pre ++ String c post -> str_contains c punctuation = true ->
     detect_unit kind answer = detect_unit kind (pre ++ post)) /\
  (forall u, detected_metric kind answer = Some u ->
     In u available_units /\
     standalone_word u (translate_delete punctuation answer)) /\
  ((forall u, In u available_units ->
      ~ standalone_word u (translate_delete punctuation answer)) ->
   normalize kind answer = Ok "No metric") /\
  ((forall c, is_lower_letter c = true -> str_contains c answer = false) ->
   normalize kind answer = Ok "No metric").
Proof.
  assert (Hnone : (forall u, In u available_units ->
                     ~ standalone_word u (translate_delete punctuation answer)) ->
                  normalize kind answer = Ok "No metric").
  { intros H. rewrite normalize_detect, detected_metric_none; [reflexivity|].
    intros u Hu Ht. apply (H u Hu). apply token_standalone. exact Ht. }
  split; [|split; [|split]].
  - intros pre c post -> Hc.
    destruct kind; unfold detect_unit; rewrite (unit_tokens_punctuation _ _ _ Hc);
      reflexivity.
  - intros u H. apply detected_metric_token in H. destruct H as [Hu Ht].
    split; [exact Hu | apply token_standalone; exact Ht].
  - exact Hnone.
  - intros Hlow. apply Hnone. intros u Hu (pre & post & Heq & _).
    destruct (unit_has_lower_letter u Hu) as (c & Hc & Hcu).
    assert (Hin : str_contains c (translate_delete punctuation answer) = true).
    { rewrite Heq, !str_contains_app, Hcu. apply orb_true_iff. right. reflexivity. }
    apply str_contains_translate_delete in Hin.
    rewrite (Hlow c Hc) in Hin. discriminate.
Qed.

Lemma C9_unit_detection_witness :
  detect_unit LeafWidth "20 c.m" = detect_unit LeafWidth "20 cm" /\
  standalone_word "cm" (translate_delete punctuation "(20 cm)") /\
  normalize Height "20 CM" = Ok "No metric" /\
  normalize LeafLength "5 kmh" = Ok "No metric".
Proof.
  split; [|split; [|split]]; cycle 3.
  - apply (proj1 (proj2 (proj2 (C9_unit_detection LeafLength "5 kmh")))).
    intros u Hu Hs. apply token_standalone in Hs.
    simpl in Hu.
    repeat (destruct Hu as [<- | Hu];
            [vm_compute in Hs; intuition discriminate|]).
    exact Hu.
  - apply (proj1 (C9_unit_detection LeafWidth "20 c.m") "20 c" "."%char "m");
      reflexivity.
  - apply (proj1 (proj2 (C9_unit_detection Height "(20 cm)")) "cm"). reflexivity.
  - apply (proj2 (proj2 (proj2 (C9_unit_detection Height "20 CM")))).
    intros c Hc.
    destruct c as [[] [] [] [] [] [] [] []]; try reflexivity; discriminate Hc.
Defined.

(** C9 fails on letter case: the upper-case spelling of a unit is not
    recognised. *)
Lemma C9_counterexample :
  detected_metric Height "20 cm" = Some "cm" /\
  detected_metric Height "20 CM" = None /\
  normalize Height "20 cm" = Ok "0.2" /\
  normalize Height "20 CM" = Ok "No metric".
Proof.
  repeat split; vm_compute; reflexivity.
Qed.

(** ** The order of binary64 numbers that are not NaN *)

Ltac order_cases :=
  repeat match goal with
         | |- context [Z.compare ?a ?b] => destruct (Z.compare_spec a b); subst
         | H : context [Z.compare ?a ?b] |- _ => destruct (Z.compare_spec a b); subst
         | |- context [Pos.compare_cont Eq ?a ?b] =>
             change (Pos.compare_cont Eq a b) with (Pos.compare a b);
             destruct (Pos.compare_spec a b); subst
         | H : context [Pos.compare_cont Eq ?a ?b] |- _ =>
             change (Pos.compare_cont Eq a b) with (Pos.compare a b) in H;
             destruct (Pos.compare_spec a b); subst
         end;
  simpl in *; try discriminate; try reflexivity; try lia.

Lemma SFleb_refl (x : spec_float) : Float64.is_nan x = false -> SFleb x x = true.
Proof.
  unfold SFleb, SFcompare. destruct x as [s|s| |s m e]; simpl; intros H;
    try discriminate; try reflexivity.
  - destruct s; reflexivity.
  - destruct s; order_cases.
Qed.

Lemma SFltb_SFleb (x y : spec_float) : SFltb x y = true -> SFleb x y = true.
Proof.
  unfold SFltb, SFleb. destruct (SFcompare x y) as [[]|]; congruence.
Qed.

Lemma SFleb_false_SFltb (x y : spec_float) :
  Float64.is_nan x = false -> Float64.is_nan y = false ->
  SFleb x y = false -> SFltb y x = true.
Proof.
  unfold SFleb, SFltb, SFcompare.
  destruct x as [s1|s1| |s1 m1 e1], y as [s2|s2| |s2 m2 e2]; simpl; intros Hx Hy;
    try discriminate; try (destruct s1); try (destruct s2); simpl;
    try discriminate; try reflexivity; intros H; order_cases.
Qed.

Lemma SFleb_SFltb_trans (x y z : spec_float) :
  SFleb x y = true -> SFltb y z = true -> SFltb x z = true.
Proof.
  unfold SFleb, SFltb, SFcompare.
  destruct x as [s1|s1| |s1 m1 e1], y as [s2|s2| |s2 m2 e2], z as [s3|s3| |s3 m3 e3];
    simpl; try discriminate;
    try (destruct s1); try (destruct s2); try (destruct s3); simpl;
    try discriminate; try reflexivity; intros H1 H2; order_cases.
Qed.

Lemma SFleb_trans (x y z : spec_float) :
  SFleb x y = true -> SFleb y z = true -> SFleb x z = true.
Proof.
  unfold SFleb, SFcompare.
  destruct x as [s1|s1| |s1 m1 e1], y as [s2|s2| |s2 m2 e2], z as [s3|s3| |s3 m3 e3];
    simpl; try discriminate;
    try (destruct s1); try (destruct s2); try (destruct s3); simpl;
    try discriminate; try reflexivity; intros H1 H2; order_cases.
Qed.

(** ** Rounding a score never produces a NaN *)

Lemma shr_1_nonneg (mrs : shr_record) : 0 <= shr_m mrs -> 0 <= shr_m (shr_1 mrs).
Proof.
  destruct mrs as [m r s]. simpl.
  destruct m as [|p|p]; [simpl; lia | | lia].
  intros _. destruct p; simpl; lia.
Qed.

Lemma iter_shr_1_nonneg (p : positive) (mrs : shr_record) :
  0 <= shr_m mrs -> 0 <= shr_m (iter_pos shr_1 p mrs).
Proof.
  revert mrs. induction p as [p IH|p IH|]; intros mrs H; simpl.
  - apply IH, IH, shr_1_nonneg, H.
  - apply IH, IH, H.
  - apply shr_1_nonneg, H.
Qed.

Lemma shr_fexp_nonneg (m e : Z) (l : location) :
  0 <= m -> 0 <= shr_m (fst (shr_fexp Float64.prec Float64.emax m e l)).
Proof.
  intros H. unfold shr_fexp, shr.
  assert (H0 : 0 <= shr_m (shr_record_of_loc m l)).
  { destruct l as [|[]]; exact H. }
  destruct (_ - e) as [|p|p]; simpl; try exact H0.
  apply iter_shr_1_nonneg, H0.
Qed.

Lemma round_nearest_even_nonneg (m : Z) (l : location) :
  0 <= m -> 0 <= round_nearest_even m l.
Proof.
  intros H. destruct l as [|[]]; simpl; try lia.
  destruct (Z.even m); lia.
Qed.

Lemma binary_round_aux_not_nan (sx : bool) (mx ex : Z) (lx : location) :
  0 <= mx ->
  Float64.is_nan (binary_round_aux Float64.prec Float64.emax sx mx ex lx) = false.
Proof.
  intros H. unfold binary_round_aux.
  pose proof (shr_fexp_nonneg mx ex lx H) as H1.
  destruct (shr_fexp Float64.prec Float64.emax mx ex lx) as [mrs' e'].
  simpl in H1.
  pose proof (shr_fexp_nonneg _ e' loc_Exact
                (round_nearest_even_nonneg _ (loc_of_shr_record mrs') H1)) as H2.
  destruct (shr_fexp Float64.prec Float64.emax _ e' loc_Exact) as [mrs'' e''].
  simpl in H2.
  destruct (shr_m mrs'') as [|p|p]; [reflexivity | | lia].
  destruct (_ <=? _); reflexivity.
Qed.

Lemma binary_normalize_not_nan (m e : Z) (sz : bool) :
  Float64.is_nan (binary_normalize Float64.prec Float64.emax m e sz) = false.
Proof.
  destruct m as [|p|p]; simpl; [reflexivity | |];
    unfold binary_round;
    destruct (shl_align _ _ _) as [mz ez]; apply binary_round_aux_not_nan; lia.
Qed.

Lemma mul_not_nan (x : Float64.float) (m : positive) (e : Z) :
  Float64.is_nan x = false ->
  Float64.is_nan (Float64.mul x (S754_finite false m e)) = false.
Proof.
  destruct x as [s|s| |s mx ex]; simpl; intros H; try reflexivity; try discriminate.
  apply binary_round_aux_not_nan. lia.
Qed.

Lemma rint_not_nan (x : Float64.float) :
  Float64.is_nan x = false -> Float64.is_nan (Float64.rint x) = false.
Proof.
  destruct x as [s|s| |s m e]; simpl; intros H; try reflexivity; try discriminate.
  destruct (0 <=? e); [reflexivity|]. apply binary_normalize_not_nan.
Qed.

Lemma div_not_nan (x : Float64.float) (m : positive) (e : Z) :
  Float64.is_nan x = false ->
  Float64.is_nan (Float64.div x (S754_finite false m e)) = false.
Proof.
  destruct x as [s|s| |s mx ex]; simpl; intros H; try reflexivity; try discriminate.
  unfold SFdiv_core_binary.
  set (sh := _ - _ - _).
  set (m' := match sh with Z0 => Zpos mx | Zpos _ => Z.shiftl (Zpos mx) sh | Zneg _ => 0 end).
  assert (Hm' : 0 <= m').
  { subst m'. destruct sh; try lia. apply Z.shiftl_nonneg. lia. }
  pose proof (Z.div_pos m' (Zpos m) Hm' ltac:(lia)) as Hq.
  unfold Z.div in Hq.
  destruct (Z.div_eucl m' (Zpos m)) as [q r]. simpl in Hq.
  apply binary_round_aux_not_nan, Hq.
Qed.

Lemma np_round_not_nan (x : Float64.float) :
  Float64.is_nan x = false -> Float64.is_nan (Float64.np_round x 3) = false.
Proof.
  intros H. unfold Float64.np_round.
  change (Float64.of_Z (10 ^ 3)) with (S754_finite false 8796093022208000 (-43)).
  apply div_not_nan, rint_not_nan, mul_not_nan, H.
Qed.

(** ** [numpy.argmax] and the loop over the questions *)

Lemma argmax_loop_first_max (rest pre : list Float64.float) (mp : Float64.float)
    (max_ind : nat) :
  Forall not_nan rest ->
  nth_error pre max_ind = Some mp ->
  (forall j y, nth_error pre j = Some y -> Float64.leb y mp = true) ->
  (forall j y, (j < max_ind)%nat -> nth_error pre j = Some y -> SFltb y mp = true) ->
  first_max (pre ++ rest) (argmax_loop rest (List.length pre) mp max_ind).
Proof.
  revert pre mp max_ind.
  induction rest as [|x rest IH]; intros pre mp max_ind Hnan Hmp Hle Hlt.
  - simpl. rewrite app_nil_r. exists mp. auto.
  - inversion Hnan as [|? ? Hx Hrest]; subst.
    assert (Hmpnan : Float64.is_nan mp = false).
    { specialize (Hle _ _ Hmp). destruct mp; try reflexivity. discriminate Hle. }
    assert (Hlen : List.length (pre ++ [x]) = S (List.length pre)).
    { rewrite length_app. simpl. lia. }
    replace (pre ++ x :: rest)%list with ((pre ++ [x]) ++ rest)%list
      by (rewrite <- app_assoc; reflexivity).
    simpl. destruct (Float64.leb x mp) eqn:E; simpl.
    + rewrite <- Hlen. apply IH; try assumption.
      * rewrite nth_error_app1; [exact Hmp|]. apply nth_error_Some. congruence.
      * intros j y Hj.
        destruct (Nat.lt_ge_cases j (List.length pre)) as [Hlt'|Hge].
        -- rewrite nth_error_app1 in Hj by exact Hlt'. exact (Hle _ _ Hj).
        -- rewrite nth_error_app2 in Hj by exact Hge.
           destruct (j - List.length pre)%nat as [|n]; simpl in Hj.
           ++ injection Hj as <-. exact E.
           ++ destruct n; discriminate.
      * intros j y Hj Hy.
        assert (Hm : (max_ind < List.length pre)%nat).
        { apply nth_error_Some. congruence. }
        rewrite nth_error_app1 in Hy by lia. exact (Hlt _ _ Hj Hy).
    + rewrite Hx. rewrite <- Hlen.
      assert (Hmx : SFltb mp x = true).
      { apply SFleb_false_SFltb; assumption. }
      apply IH; try assumption.
      * rewrite nth_error_app2 by lia. rewrite Nat.sub_diag. reflexivity.
      * intros j y Hj.
        destruct (Nat.lt_ge_cases j (List.length pre)) as [Hlt'|Hge].
        -- rewrite nth_error_app1 in Hj by exact Hlt'.
           apply SFltb_SFleb. exact (SFleb_SFltb_trans _ _ _ (Hle _ _ Hj) Hmx).
        -- rewrite nth_error_app2 in Hj by exact Hge.
           destruct (j - List.length pre)%nat as [|n]; simpl in Hj.
           ++ injection Hj as <-. apply SFleb_refl, Hx.
           ++ destruct n; discriminate.
      * intros j y Hj Hy.
        rewrite nth_error_app1 in Hy by exact Hj.
        exact (SFleb_SFltb_trans _ _ _ (Hle _ _ Hy) Hmx).
Qed.

Lemma np_argmax_first_max (l : list Float64.float) :
  l <> [] -> Forall not_nan l ->
  exists i, np_argmax l = Ok i /\ first_max l i.
Proof.
  intros Hne Hnan. destruct l as [|x rest]; [contradiction|].
  inversion Hnan as [|? ? Hx Hrest]; subst.
  simpl. rewrite Hx. eexists. split; [reflexivity|].
  apply (argmax_loop_first_max rest [x] x 0); try assumption.
  - reflexivity.
  - intros [|[|j]] y Hj; simpl in Hj; try discriminate.
    injection Hj as <-. apply SFleb_refl, Hx.
  - intros j y Hj. lia.
Qed.

(** ** Rounding to decimals *)

Lemma rint_nearest (p : Float64.float) : nearest_integer_float p (Float64.rint p).
Proof.
  destruct p as [s|s| |s m e]; try reflexivity.
  unfold nearest_integer_float, Float64.rint.
  destruct (0 <=? e) eqn:Ee; [reflexivity|].
  apply Z.leb_gt in Ee.
  assert (Hd : 0 < 2 ^ (- e)) by (apply Z.pow_pos_nonneg; lia).
  pose proof (Z.div_mod (Zpos m) (2 ^ (- e)) ltac:(lia)) as Hdm.
  pose proof (Z.mod_pos_bound (Zpos m) (2 ^ (- e)) Hd) as Hr.
  assert (Hq : 0 <= Zpos m / 2 ^ (- e)) by (apply Z.div_pos; lia).
  set (d := 2 ^ (- e)) in *.
  set (q := Zpos m / d) in *.
  set (r := Zpos m mod d) in *.
  destruct (2 * r ?= d) eqn:Ec.
  - apply Z.compare_eq in Ec.
    destruct (Z.even q) eqn:Eq.
    + exists q. split; [exact Hq|]. split; [lia|]. split; [auto|reflexivity].
    + exists (q + 1). split; [lia|]. split; [lia|]. split; [|reflexivity].
      intros _. rewrite Z.even_add, Eq. reflexivity.
  - rewrite Z.compare_lt_iff in Ec.
    exists q. split; [exact Hq|]. split; [lia|]. split; [lia|reflexivity].
  - rewrite Z.compare_gt_iff in Ec.
    exists (q + 1). split; [lia|]. split; [lia|]. split; [lia|reflexivity].
Qed.

Lemma np_round_rounded (x : Float64.float) (decimals : Z) :
  rounded_to_decimals decimals x (Float64.np_round x decimals).
Proof.
  exists (Float64.rint (Float64.mul x (Float64.of_Z (10 ^ decimals)))).
  split; [apply rint_nearest | reflexivity].
Qed.

(** The integer that [nearest_integer_float] speaks of is the only one. *)
Lemma nearest_integer_unique (m d n1 n2 : Z) :
  0 < d ->
  2 * Z.abs (m - n1 * d) <= d -> (2 * Z.abs (m - n1 * d) = d -> Z.even n1 = true) ->
  2 * Z.abs (m - n2 * d) <= d -> (2 * Z.abs (m - n2 * d) = d -> Z.even n2 = true) ->
  n1 = n2.
Proof.
  intros Hd H1 E1 H2 E2.
  assert (Hclose : Z.abs (n1 - n2) <= 1) by nia.
  destruct (Z.eq_dec n1 n2) as [|Hne]; [assumption|exfalso].
  assert (Hcase : n1 = n2 + 1 \/ n2 = n1 + 1) by lia.
  assert (T1 : 2 * Z.abs (m - n1 * d) = d) by nia.
  assert (T2 : 2 * Z.abs (m - n2 * d) = d) by nia.
  specialize (E1 T1). specialize (E2 T2).
  destruct Hcase as [-> | ->].
  - rewrite Z.even_add, E2 in E1. discriminate.
  - rewrite Z.even_add, E1 in E2. discriminate.
Qed.

Lemma rounded_to_decimals_unique (decimals : Z) (x y1 y2 : Float64.float) :
  rounded_to_decimals decimals x y1 -> rounded_to_decimals decimals x y2 -> y1 = y2.
Proof.
  intros (r1 & H1 & ->) (r2 & H2 & ->). f_equal.
  unfold nearest_integer_float in *.
  destruct (Float64.mul x (Float64.of_Z (10 ^ decimals))) as [s|s| |s m e];
    try congruence.
  destruct (0 <=? e) eqn:Ee; [congruence|].
  apply Z.leb_gt in Ee.
  destruct H1 as (n1 & _ & A1 & B1 & ->). destruct H2 as (n2 & _ & A2 & B2 & ->).
  assert (Hd : 0 < 2 ^ (- e)) by (apply Z.pow_pos_nonneg; lia).
  rewrite (nearest_integer_unique _ _ n1 n2 Hd A1 B1 A2 B2). reflexivity.
Qed.

Section SelectorFacts.

Variable World : Type.
Variable model_pipeline : pipeline World.

Lemma questions_loop_ask_all (Questions : list string) (d : string)
    (answer_list : list string) (score_list : list Float64.float) (w : World) :
  questions_loop model_pipeline Questions d answer_list score_list w =
  match ask_all model_pipeline Questions d w with
  | (Ok outs, w') =>
      (Ok ((answer_list ++ map answer outs)%list,
           (score_list ++ map (fun res => Float64.np_round (score res) 3) outs)%list),
       w')
  | (Raise e, w') => (Raise e, w')
  end.
Proof.
  revert answer_list score_list w.
  induction Questions as [|question rest IH]; intros answer_list score_list w; simpl.
  - rewrite !app_nil_r. reflexivity.
  - destruct (model_pipeline question d w) as [[res|e] w']; [|reflexivity].
    rewrite IH.
    destruct (ask_all model_pipeline rest d w') as [[more|e] w'']; [|reflexivity].
    simpl. rewrite <- !app_assoc. reflexivity.
Qed.

Lemma ask_all_length (Questions : list string) (d : string) (w w' : World)
    (outs : list qa_output) :
  ask_all model_pipeline Questions d w = (Ok outs, w') ->
  List.length outs = List.length Questions.
Proof.
  revert w outs. induction Questions as [|question rest IH]; intros w outs; simpl.
  - intros [= <- _]. reflexivity.
  - destruct (model_pipeline question d w) as [[res|e] w1]; [|discriminate].
    specialize (IH w1).
    destruct (ask_all model_pipeline rest d w1) as [[more|e] w2]; [|discriminate].
    intros [= <- <-]. simpl. rewrite (IH more eq_refl). reflexivity.
Qed.

(** When no call raises, every question is asked. *)
Lemma asked_all (Questions : list string) (d : string) (w w' : World)
    (outs : list qa_output) :
  ask_all model_pipeline Questions d w = (Ok outs, w') ->
  asked model_pipeline Questions d w = Questions.
Proof.
  revert w outs. induction Questions as [|question rest IH]; intros w outs; simpl.
  - reflexivity.
  - destruct (model_pipeline question d w) as [[res|e] w1]; [|discriminate].
    specialize (IH w1).
    destruct (ask_all model_pipeline rest d w1) as [[more|e] w2]; [|discriminate].
    intros [= _ <-]. rewrite (IH more eq_refl). reflexivity.
Qed.

(** The questions asked are the first questions of the list. *)
Lemma asked_prefix (Questions : list string) (d : string) (w : World) :
  exists later, Questions = (asked model_pipeline Questions d w ++ later)%list.
Proof.
  revert w. induction Questions as [|question rest IH]; intros w; simpl.
  - exists []. reflexivity.
  - destruct (model_pipeline question d w) as [[res|e] w1].
    + destruct (IH w1) as (later & H). exists later. simpl. rewrite <- H. reflexivity.
    + exists rest. reflexivity.
Qed.

Lemma asked_never_raises (Questions : list string) (d : string) (w : World) :
  never_raises model_pipeline ->
  exists outs w', ask_all model_pipeline Questions d w = (Ok outs, w').
Proof.
  intros Hnr. revert w. induction Questions as [|question rest IH]; intros w; simpl.
  - eauto.
  - destruct (Hnr question d w) as (res & w1 & ->).
    destruct (IH w1) as (more & w2 & ->). eauto.
Qed.

(** A call raises exactly when the questions before it were answered and
    the call on the state they left raises. *)
Lemma ask_all_raises (Questions : list string) (d : string) (w w' : World) (e : exn) :
  ask_all model_pipeline Questions d w = (Raise e, w') <->
  exists before question after outs w1,
    Questions = (before ++ question :: after)%list /\
    ask_all model_pipeline before d w = (Ok outs, w1) /\
    model_pipeline question d w1 = (Raise e, w').
Proof.
  revert w. induction Questions as [|question rest IH]; intros w; simpl.
  - split; [discriminate|].
    intros (before & q & after & outs & w1 & H & _). destruct before; discriminate.
  - split.
    + destruct (model_pipeline question d w) as [[res|e0] w1] eqn:Ecall.
      * destruct (ask_all model_pipeline rest d w1) as [[more|e1] w2] eqn:Erest;
          [discriminate|].
        intros [= -> ->].
        destruct (proj1 (IH w1) Erest) as (before & q & after & outs & w3 & -> & Hb & Hq).
        exists (question :: before), q, after, (res :: outs), w3.
        split; [reflexivity|]. split; [|exact Hq].
        simpl. rewrite Ecall, Hb. reflexivity.
      * intros [= -> ->].
        exists [], question, rest, [], w. repeat split. exact Ecall.
    + intros (before & q & after & outs & w1 & Hsplit & Hb & Hq).
      destruct before as [|b before]; simpl in Hsplit; injection Hsplit as <- ->.
      * simpl in Hb. injection Hb as _ <-. rewrite Hq. reflexivity.
      * simpl in Hb.
        destruct (model_pipeline question d w) as [[res|e0] w2]; [|discriminate].
        destruct (ask_all model_pipeline before d w2) as [[more|e1] w3] eqn:Eb;
          [|discriminate].
        injection Hb as _ <-.
        assert (Hr : ask_all model_pipeline (before ++ q :: after) d w2 = (Raise e, w')).
        { apply IH. exists before, q, after, more, w3. auto. }
        rewrite Hr. reflexivity.
Qed.

Lemma ask_all_recording (Questions : list string) (d : string) (w : World)
    (log : list call) :
  ask_all (recording model_pipeline) Questions d (w, log) =
  (fst (ask_all model_pipeline Questions d w),
   (snd (ask_all model_pipeline Questions d w),
    (log ++ map (fun question => (question, d))
              (asked model_pipeline Questions d w))%list)).
Proof.
  revert w log. induction Questions as [|question rest IH]; intros w log; simpl.
  - rewrite app_nil_r. reflexivity.
  - unfold recording at 1. simpl.
    destruct (model_pipeline question d w) as [[res|e] w']; [|reflexivity].
    rewrite IH.
    destruct (ask_all model_pipeline rest d w') as [[more|e] w'']; simpl;
      rewrite <- app_assoc; reflexivity.
Qed.

(** The state in which the selector leaves the world is the one that the
    calls leave. *)
Lemma QA_Prediction_state (Questions : list string) (d : string) (w : World) :
  str_any isdigit d = true ->
  snd (QA_Prediction Questions (PyStr d) model_pipeline w) =
  snd (ask_all model_pipeline Questions d w).
Proof.
  intros Hd. unfold QA_Prediction. rewrite Hd. cbn [negb].
  rewrite questions_loop_ask_all.
  destruct (ask_all model_pipeline Questions d w) as [[outs|e] w']; reflexivity.
Qed.

End SelectorFacts.

(** ** The selector *)

(** C3: whatever the questions, a description that is not a [str] is
    answered with an empty question, the text No Description and the score
    0, and a [str] without a digit with an empty question, the text
    No Number and the score 0; in both cases the capability is left
    untouched and a recording capability has recorded no call. *)
Theorem C3_selector_short_circuit (World : Type) (model_pipeline : pipeline World)
    (Questions : list string) (Description : value) (w : World) :
  (isinstance_str Description = false ->
   QA_Prediction Questions Description model_pipeline w =
     (Ok (EmptyString, "No Description", PyInt 0), w)) /\
  (forall d, Description = PyStr d -> str_any isdigit d = false ->
   QA_Prediction Questions Description model_pipeline w =
     (Ok (EmptyString, "No Number", PyInt 0), w)) /\
  (isinstance_str Description = false \/
   (exists d, Description = PyStr d /\ str_any isdigit d = false) ->
   snd (snd (QA_Prediction Questions Description (recording model_pipeline) (w, []))) = []).
Proof.
  split; [|split].
  - intros H. destruct Description; try reflexivity. discriminate H.
  - intros d -> Hd. unfold QA_Prediction. rewrite Hd. reflexivity.
  - intros [H | (d & -> & Hd)].
    + destruct Description; try reflexivity. discriminate H.
    + unfold QA_Prediction. rewrite Hd. reflexivity.
Qed.

Lemma C3_selector_short_circuit_witness :
  QA_Prediction ["How tall is the plant?"; "What is the height?"]
    (PyFloat S754_nan)
    (fun _ _ (n : nat) =>
       (Ok {| answer := "2 m"; score := Float64.of_decimal false 9 (-1) |}, S n))
    O
  = (Ok (EmptyString, "No Description", PyInt 0), O) /\
  QA_Prediction ["How tall is the plant?"; "What is the height?"]
    (PyStr "A tall tree.")
    (fun _ _ (n : nat) =>
       (Ok {| answer := "2 m"; score := Float64.of_decimal false 9 (-1) |}, S n))
    O
  = (Ok (EmptyString, "No Number", PyInt 0), O).
Proof.
  split.
  - apply (proj1 (C3_selector_short_circuit nat _ _ (PyFloat S754_nan) O)).
    reflexivity.
  - apply (proj1 (proj2 (C3_selector_short_circuit nat _ _ (PyStr "A tall tree.") O))
             "A tall tree."); reflexivity.
Defined.

(** C8: for a [str] description with a digit and a question list that is
    not empty, when every call of the capability returns, with a score that
    is not NaN: the capability has been asked once for every question, in
    the order of the list, each on the state that the call before it left;
    each score is rounded to three decimals, that is, replaced by the
    quotient by 1000 of the integer nearest to its product with 1000, and
    no other float is that; the result is the question, the answer and the
    rounded score at the first position where the rounded score is maximal,
    so that of two scores that round to the same float the earlier wins. *)
Theorem C8_selector_best_answer (World : Type) (model_pipeline : pipeline World)
    (Questions : list string) (d : string) (w w' : World) (outs : list qa_output) :
  str_any isdigit d = true ->
  Questions <> [] ->
  ask_all model_pipeline Questions d w = (Ok outs, w') ->
  Forall (fun res => not_nan (score res)) outs ->
  exists scores,
    Forall2 (fun res rounded =>
               rounded_to_decimals 3 (score res) rounded /\
               forall y, rounded_to_decimals 3 (score res) y -> y = rounded)
            outs scores /\
    (exists i question res rounded,
       first_max scores i /\
       nth_error Questions i = Some question /\
       nth_error outs i = Some res /\
       nth_error scores i = Some rounded /\
       QA_Prediction Questions (PyStr d) model_pipeline w =
         (Ok (question, answer res, PyFloat rounded), w')) /\
    snd (snd (QA_Prediction Questions (PyStr d) (recording model_pipeline) (w, []))) =
      map (fun question => (question, d)) Questions.
Proof.
  intros Hd Hne Hask Hnan.
  exists (map (fun res => Float64.np_round (score res) 3) outs).
  set (scores := map (fun res => Float64.np_round (score res) 3) outs).
  split; [|split].
  - subst scores. clear. induction outs as [|res outs IH]; simpl; constructor.
    + split; [apply np_round_rounded|].
      intros y Hy. exact (rounded_to_decimals_unique _ _ _ _ Hy (np_round_rounded _ _)).
    + exact IH.
  - assert (Hlen : List.length outs = List.length Questions)
      by (eapply ask_all_length; exact Hask).
    assert (Hscores : Forall not_nan scores).
    { subst scores. apply Forall_map.
      eapply Forall_impl; [|exact Hnan]. intros res. apply np_round_not_nan. }
    assert (Hsne : scores <> []).
    { subst scores. destruct outs; [|discriminate].
      destruct Questions; [contradiction | discriminate Hlen]. }
    destruct (np_argmax_first_max scores Hsne Hscores) as (i & Harg & Hmax).
    assert (Hi : (i < List.length scores)%nat).
    { destruct Hmax as (x & Hx & _). apply nth_error_Some. congruence. }
    assert (Hls : List.length scores = List.length outs)
      by (subst scores; apply length_map).
    destruct (nth_error Questions i) as [question|] eqn:Eq;
      [|apply nth_error_None in Eq; lia].
    destruct (nth_error outs i) as [res|] eqn:Er;
      [|apply nth_error_None in Er; lia].
    exists i, question, res, (Float64.np_round (score res) 3).
    assert (Hsi : nth_error scores i = Some (Float64.np_round (score res) 3)).
    { subst scores.
      exact (map_nth_error (fun res => Float64.np_round (score res) 3) _ _ Er). }
    repeat split; try assumption.
    unfold QA_Prediction. rewrite Hd. cbn [negb].
    rewrite questions_loop_ask_all, Hask. cbn [app].
    fold scores. rewrite Harg. cbn [py_bind]. unfold py_index.
    rewrite Eq. cbn [py_bind].
    rewrite (map_nth_error answer _ _ Er). cbn [py_bind].
    rewrite Hsi. reflexivity.
  - rewrite QA_Prediction_state by exact Hd.
    rewrite ask_all_recording. cbn [snd app].
    rewrite (asked_all _ _ _ _ _ _ _ Hask). reflexivity.
Qed.

(** The scores 0.9121 and 0.9124 both round to 0.912: the answer of the
    first question is returned, though the second score is the larger
    one. *)
Lemma C8_selector_best_answer_witness :
  let model_pipeline :=
    two_answers "How tall is the plant?"
      {| answer := "2 m"; score := Float64.of_decimal false 9121 (-4) |}
      {| answer := "20-37 cm"; score := Float64.of_decimal false 9124 (-4) |} in
  let Questions := ["How tall is the plant?"; "What is the height?"] in
  (exists scores,
     Forall2 (fun res rounded =>
                rounded_to_decimals 3 (score res) rounded /\
                forall y, rounded_to_decimals 3 (score res) y -> y = rounded)
       [ {| answer := "2 m"; score := Float64.of_decimal false 9121 (-4) |};
         {| answer := "20-37 cm"; score := Float64.of_decimal false 9124 (-4) |} ]
       scores /\
     (exists i question res rounded,
        first_max scores i /\
        nth_error Questions i = Some question /\
        nth_error
          [ {| answer := "2 m"; score := Float64.of_decimal false 9121 (-4) |};
            {| answer := "20-37 cm"; score := Float64.of_decimal false 9124 (-4) |} ]
          i = Some res /\
        nth_error scores i = Some rounded /\
        QA_Prediction Questions (PyStr "Shrub, 20-37 cm tall.") model_pipeline O =
          (Ok (question, answer res, PyFloat rounded), 2%nat)) /\
     snd (snd (QA_Prediction Questions (PyStr "Shrub, 20-37 cm tall.")
                 (recording model_pipeline) (O, []))) =
       [("How tall is the plant?", "Shrub, 20-37 cm tall.");
        ("What is the height?", "Shrub, 20-37 cm tall.")]) /\
  QA_Prediction Questions (PyStr "Shrub, 20-37 cm tall.") model_pipeline O =
    (Ok ("How tall is the plant?", "2 m", PyFloat (Float64.of_decimal false 912 (-3))),
     2%nat).
Proof.
  intros model_pipeline Questions. split.
  - apply (C8_selector_best_answer nat model_pipeline Questions
             "Shrub, 20-37 cm tall." O 2%nat).
    + reflexivity.
    + discriminate.
    + reflexivity.
    + repeat constructor.
  - vm_compute. reflexivity.
Defined.

(** ** What the variants return *)

(** The loop over the parts lets a third number through: what a variant
    returns is a sentinel or at most three values. *)
Lemma parts_loop_values (divisor : Z) (metric : option string) (parts : list string)
    (counter : Z) (result : list string) (s : string) :
  counter = Z.of_nat (List.length result) -> counter <= 3 ->
  parts_loop divisor metric parts counter result = Ok s ->
  s = "Too many numbers" \/
  exists values, s = join " " values /\ (List.length values <= 3)%nat.
Proof.
  revert counter result.
  induction parts as [|part rest IH]; intros counter result Hc Hle H; simpl in H.
  - injection H as <-. right. exists result. split; [reflexivity | lia].
  - destruct (2 <? counter) eqn:E.
    + injection H as <-. left. reflexivity.
    + apply Z.ltb_ge in E. rewrite is_float_spec in H. cbn [py_bind] in H.
      destruct (Float64.of_str part) as [x|e].
      * destruct (convert_part divisor metric part) as [tmp|e]; cbn [py_bind] in H;
          [|discriminate].
        apply IH in H; [exact H | | lia].
        rewrite length_app. simpl. lia.
      * apply IH in H; assumption.
Qed.

Lemma normalize_values (kind : trait_kind) (answer s : string) :
  normalize kind answer = Ok s ->
  s = "No metric" \/ s = "Too many numbers" \/
  exists values, s = join " " values /\ (List.length values <= 3)%nat.
Proof.
  rewrite normalize_detect.
  destruct (detected_metric kind answer) as [unit|].
  - intros H. right. destruct kind; simpl in H.
    + eapply parts_loop_values; [| |exact H]; simpl; lia.
    + destruct (if str_contains "x" answer then _ else _) as [a|e]; cbn [py_bind] in H;
        [|discriminate].
      eapply parts_loop_values; [| |exact H]; simpl; lia.
    + destruct (if str_contains "x" answer then _ else _) as [a|e]; cbn [py_bind] in H;
        [|discriminate].
      eapply parts_loop_values; [| |exact H]; simpl; lia.
  - intros H. injection H as <-. left. reflexivity.
Qed.

(** * Further properties of the parser, the resolver and the selector *)

(** ** The loop over the parts, in closed form *)

Lemma dict_get_unit (unit : string) :
  In unit available_units -> exists rate, dict_get conversion_dict unit = Ok rate.
Proof.
  intros Hin. simpl in Hin.
  repeat (destruct Hin as [<- | Hin]; [eexists; vm_compute; reflexivity|]).
  contradiction.
Qed.

Lemma convert_part_numeric (divisor : Z) (unit part : string) :
  In unit available_units -> numeric part = true ->
  exists tmp, convert_part divisor (Some unit) part = Ok tmp.
Proof.
  intros Hin Hnum. unfold numeric in Hnum. unfold convert_part.
  destruct (Float64.of_str part) as [x|e]; [|discriminate].
  destruct (dict_get_unit unit Hin) as [rate Hrate].
  cbn [py_bind read_metric]. rewrite Hrate. cbn [py_bind]. eauto.
Qed.

Lemma convert_part_not_numeric (divisor : Z) (metric : option string) (part : string) :
  numeric part = false -> exists e, convert_part divisor metric part = Raise e.
Proof.
  intros Hnum. unfold numeric in Hnum. unfold convert_part.
  destruct (Float64.of_str part) as [x|e]; [discriminate|].
  cbn [py_bind]. eauto.
Qed.

Lemma is_float_numeric (part : string) : is_float part = Ok (numeric part).
Proof. apply is_float_spec. Qed.

Lemma removelast_cons2 (A : Type) (a b : A) (l : list A) :
  removelast (a :: b :: l) = a :: removelast (b :: l).
Proof. reflexivity. Qed.

Lemma count_numeric_nonneg (parts : list string) : 0 <= count_numeric parts.
Proof. unfold count_numeric. lia. Qed.

Lemma count_numeric_cons (part : string) (parts : list string) :
  count_numeric (part :: parts) =
  (if numeric part then 1 else 0) + count_numeric parts.
Proof.
  unfold count_numeric. cbn [filter]. destruct (numeric part); cbn [List.length]; lia.
Qed.

(** The sentinel is returned exactly when a part follows the third number;
    otherwise every numeric part is converted and kept. *)
Lemma parts_loop_closed_form (divisor : Z) (unit : string) (parts : list string)
    (counter : Z) (result : list string) :
  In unit available_units ->
  parts_loop divisor (Some unit) parts counter result =
  Ok (if match parts with [] => false | _ => true end
         && (3 <=? counter + count_numeric (removelast parts))
      then "Too many numbers"
      else join " " (result ++ converted_values divisor unit parts)).
Proof.
  intros Hin. revert counter result.
  induction parts as [|part rest IH]; intros counter result.
  - simpl. rewrite app_nil_r. reflexivity.
  - cbn [parts_loop andb].
    destruct (2 <? counter) eqn:E.
    + apply Z.ltb_lt in E.
      pose proof (count_numeric_nonneg (removelast (part :: rest))) as Hc.
      destruct (3 <=? _) eqn:E3; [reflexivity|].
      apply Z.leb_gt in E3. lia.
    + apply Z.ltb_ge in E.
      rewrite is_float_numeric. cbn [py_bind].
      unfold converted_values. cbn [flat_map]. fold (converted_values divisor unit rest).
      destruct (numeric part) eqn:Hnum.
      * destruct (convert_part_numeric divisor unit part Hin Hnum) as [tmp Htmp].
        rewrite Htmp. cbn [py_bind]. rewrite IH.
        rewrite <- app_assoc. cbn [app].
        destruct rest as [|part' rest'].
        -- cbn [andb removelast]. unfold count_numeric at 1. cbn.
           destruct (3 <=? counter + 0) eqn:E3; [apply Z.leb_le in E3; lia | reflexivity].
        -- rewrite removelast_cons2, count_numeric_cons, Hnum. cbn [andb].
           replace (counter + (1 + count_numeric (removelast (part' :: rest'))))
             with (counter + 1 + count_numeric (removelast (part' :: rest'))) by lia.
           reflexivity.
      * destruct (convert_part_not_numeric divisor (Some unit) part Hnum) as [e He].
        rewrite He. cbn [app]. rewrite IH.
        destruct rest as [|part' rest'].
        -- cbn [andb removelast]. unfold count_numeric at 1. cbn.
           destruct (3 <=? counter + 0) eqn:E3; [apply Z.leb_le in E3; lia | reflexivity].
        -- rewrite removelast_cons2, count_numeric_cons, Hnum. cbn [andb].
           replace (counter + (0 + count_numeric (removelast (part' :: rest'))))
             with (counter + count_numeric (removelast (part' :: rest'))) by lia.
           reflexivity.
Qed.

Lemma str_split_two (sep : ascii) (s : string) :
  str_contains sep s = true ->
  exists a b rest, str_split sep s = a :: b :: rest.
Proof.
  induction s as [|c s' IH]; simpl; intros H.
  - discriminate.
  - destruct (Ascii.eqb c sep) eqn:E.
    + pose proof (str_split_not_nil sep s') as Hne.
      destruct (str_split sep s') as [|w ws]; [contradiction|]. eauto.
    + simpl in H. destruct (IH H) as (a & b & rest & ->). eauto.
Qed.

Lemma after_detection_parts (kind : trait_kind) (metric : option string)
    (answer : string) :
  after_detection kind metric answer =
  parts_loop (divisor_of kind) metric (answer_parts kind answer) 0 [].
Proof.
  destruct kind; unfold after_detection, answer_parts, kept_segment, divisor_of, pattern_of.
  - reflexivity.
  - destruct (str_contains "x" answer) eqn:E; [|reflexivity].
    pose proof (str_split_not_nil "x" answer) as Hne.
    destruct (str_split "x" answer) as [|a rest]; [contradiction | reflexivity].
  - destruct (str_contains "x" answer) eqn:E; [|reflexivity].
    destruct (str_split_two _ _ E) as (a & b & rest & ->). reflexivity.
Qed.

(** Every variant in closed form: the sentinel for a missing unit, the
    sentinel for too many numbers, or all the converted numbers. *)
Lemma normalize_closed_form (kind : trait_kind) (answer : string) :
  normalize kind answer =
  Ok match detected_metric kind answer with
     | None => "No metric"
     | Some unit =>
         if 3 <=? count_numeric (removelast (answer_parts kind answer))
         then "Too many numbers"
         else join " " (converted_values (divisor_of kind) unit (answer_parts kind answer))
     end.
Proof.
  rewrite normalize_detect.
  destruct (detected_metric kind answer) as [unit|] eqn:E; [|reflexivity].
  apply detected_metric_token in E. destruct E as [Hin _].
  rewrite after_detection_parts, (parts_loop_closed_form _ _ _ _ _ Hin).
  unfold answer_parts at 1.
  pose proof (str_split_not_nil " "
    (replace "-" " " (re_sub_empty (pattern_of kind) (kept_segment kind answer)))) as Hne.
  fold (answer_parts kind answer) in Hne |- *.
  destruct (answer_parts kind answer) as [|part rest]; [contradiction|].
  reflexivity.
Qed.

(** ** The characters of a printed float *)

Lemma str_all_app (f : ascii -> bool) (a b : string) :
  str_all f (a ++ b) = str_all f a && str_all f b.
Proof.
  induction a as [|c a' IH]; simpl; [reflexivity|].
  rewrite IH. apply andb_assoc.
Qed.

Lemma str_all_uint (d : Decimal.uint) :
  str_all is_decimal (NilEmpty.string_of_uint d) = true.
Proof.
  induction d; simpl; try reflexivity; exact IHd.
Qed.

Lemma str_all_string_of_Z (z : Z) :
  str_all is_decimal (Float64.string_of_Z z) = true.
Proof.
  unfold Float64.string_of_Z, NilZero.string_of_uint.
  destruct (N.to_uint (Z.to_N z)); try reflexivity; apply str_all_uint.
Qed.

Lemma str_all_strip_trailing_zeros (f : ascii -> bool) (s : string) :
  str_all f s = true -> str_all f (Float64.strip_trailing_zeros s) = true.
Proof.
  induction s as [|a s' IH]; simpl; intros H; [reflexivity|].
  apply andb_true_iff in H. destruct H as [Ha Hs]. specialize (IH Hs).
  destruct (Float64.strip_trailing_zeros s') as [|b t].
  - destruct (Ascii.eqb a "0"); simpl; [reflexivity | rewrite Ha; reflexivity].
  - simpl in *. rewrite Ha. exact IH.
Qed.

Lemma str_all_zeros (n : nat) : str_all is_decimal (Float64.zeros n) = true.
Proof. induction n; simpl; [reflexivity | exact IHn]. Qed.

Lemma str_all_substring (f : ascii -> bool) (s : string) (n m : nat) :
  str_all f s = true -> str_all f (substring n m s) = true.
Proof.
  revert n m. induction s as [|a s' IH]; intros n m H.
  - destruct n, m; reflexivity.
  - simpl in H. apply andb_true_iff in H. destruct H as [Ha Hs].
    destruct n as [|n'].
    + destruct m as [|m']; simpl; [reflexivity|].
      rewrite Ha. apply IH, Hs.
    + simpl. apply IH, Hs.
Qed.

Lemma str_all_weaken (f g : ascii -> bool) (s : string) :
  (forall c, f c = true -> g c = true) -> str_all f s = true -> str_all g s = true.
Proof.
  intros Hfg. induction s as [|a s' IH]; simpl; intros H; [reflexivity|].
  apply andb_true_iff in H. destruct H as [Ha Hs].
  rewrite (Hfg _ Ha), (IH Hs). reflexivity.
Qed.

Lemma decimal_float_char (c : ascii) : is_decimal c = true -> float_char c = true.
Proof. intros H. unfold float_char. rewrite H. reflexivity. Qed.

Lemma format_digits_chars (ds : string) (decpt : Z) :
  str_all is_decimal ds = true ->
  str_all float_char (Float64.format_digits ds decpt) = true.
Proof.
  intros Hds.
  assert (Hf : str_all float_char ds = true)
    by (apply (str_all_weaken is_decimal); [apply decimal_float_char | exact Hds]).
  assert (Hz : forall z, str_all float_char (Float64.string_of_Z z) = true).
  { intros z. apply (str_all_weaken is_decimal);
      [apply decimal_float_char | apply str_all_string_of_Z]. }
  assert (H0 : forall n, str_all float_char (Float64.zeros n) = true).
  { intros n. apply (str_all_weaken is_decimal);
      [apply decimal_float_char | apply str_all_zeros]. }
  unfold Float64.format_digits.
  destruct (_ || _).
  - rewrite !str_all_app, Hz.
    assert (Hm : str_all float_char
                   match ds with
                   | String a EmptyString => ds
                   | String a (String _ _ as rest) => String a (String "." rest)
                   | EmptyString => ds
                   end = true).
    { destruct ds as [|a [|b rest]]; exact Hf. }
    rewrite Hm.
    destruct (_ <? 0); destruct (_ <? 10); reflexivity.
  - destruct (decpt <=? 0).
    + rewrite !str_all_app, H0, Hf. reflexivity.
    + destruct (_ <=? decpt).
      * rewrite !str_all_app, H0, Hf. reflexivity.
      * rewrite !str_all_app, !str_all_substring by exact Hf. reflexivity.
Qed.

Lemma to_str_chars (x : Float64.float) : str_all float_char (Float64.to_str x) = true.
Proof.
  destruct x as [s|s| |s m e]; simpl.
  - destruct s; reflexivity.
  - destruct s; reflexivity.
  - reflexivity.
  - unfold Float64.shortest_digits.
    destruct (Float64.shortest_from _ _ _ _ _ _) as [c n].
  unfold Float64.digits_text.
    unfold Float64.digits_text.
    rewrite str_all_app, format_digits_chars.
    + destruct s; reflexivity.
    + apply str_all_strip_trailing_zeros, str_all_string_of_Z.
Qed.

Lemma str_all_not_contains (f : ascii -> bool) (c : ascii) (s : string) :
  str_all f s = true -> f c = false -> str_contains c s = false.
Proof.
  intros Hs Hc. induction s as [|a s' IH]; simpl; [reflexivity|].
  simpl in Hs. apply andb_true_iff in Hs. destruct Hs as [Ha Hs].
  rewrite (IH Hs), orb_false_r.
  destruct (Ascii.eqb a c) eqn:E; [|reflexivity].
  apply Ascii.eqb_eq in E. subst a. congruence.
Qed.

Lemma convert_part_chars (divisor : Z) (metric : option string) (part tmp : string) :
  convert_part divisor metric part = Ok tmp -> str_all float_char tmp = true.
Proof.
  unfold convert_part.
  destruct (Float64.of_str part) as [x|e]; cbn [py_bind]; [|discriminate].
  destruct (read_metric metric) as [unit|e]; cbn [py_bind]; [|discriminate].
  destruct (dict_get conversion_dict unit) as [rate|e]; cbn [py_bind]; [|discriminate].
  intros H. injection H as <-. apply to_str_chars.
Qed.

Lemma converted_values_chars (divisor : Z) (unit : string) (parts : list string) :
  Forall (fun v => str_all float_char v = true) (converted_values divisor unit parts).
Proof.
  induction parts as [|part rest IH]; simpl.
  - constructor.
  - destruct (convert_part divisor (Some unit) part) as [tmp|e] eqn:E; simpl.
    + constructor; [exact (convert_part_chars _ _ _ _ E) | exact IH].
    + exact IH.
Qed.

Lemma converted_values_no_space (divisor : Z) (unit : string) (parts : list string) :
  Forall no_space (converted_values divisor unit parts).
Proof.
  eapply Forall_impl; [|apply converted_values_chars].
  intros v Hv. unfold no_space.
  apply (str_all_not_contains float_char); [exact Hv | reflexivity].
Qed.

Lemma converted_values_length (divisor : Z) (unit : string) (parts : list string) :
  In unit available_units ->
  Z.of_nat (List.length (converted_values divisor unit parts)) = count_numeric parts.
Proof.
  intros Hin. induction parts as [|part rest IH].
  - reflexivity.
  - rewrite count_numeric_cons, <- IH. unfold converted_values. cbn [flat_map].
    rewrite length_app.
    destruct (numeric part) eqn:Hnum.
    + destruct (convert_part_numeric divisor unit part Hin Hnum) as [tmp ->].
      cbn [List.length]. lia.
    + destruct (convert_part_not_numeric divisor (Some unit) part Hnum) as [e ->].
      cbn [List.length]. lia.
Qed.

Lemma count_numeric_removelast (parts : list string) :
  count_numeric parts <= count_numeric (removelast parts) + 1.
Proof.
  induction parts as [|part rest IH].
  - unfold count_numeric. simpl. lia.
  - destruct rest as [|part' rest'].
    + rewrite count_numeric_cons. cbn [removelast]. unfold count_numeric. simpl.
      destruct (numeric part); lia.
    + rewrite removelast_cons2, !(count_numeric_cons part). lia.
Qed.

(** ** What the parser and the resolver return *)

(** X1: no variant of the parser ever raises, and neither does the resolver
    applied to its output: the index after the split on x, the lookup of the
    unit in the table and the second call of [float] are all safe. *)
Theorem X1_parser_never_raises (kind : trait_kind) (answer : string) :
  (exists post_processed, normalize kind answer = Ok post_processed) /\
  (exists prediction, predict kind answer = Ok prediction).
Proof.
  split.
  - rewrite normalize_closed_form. eauto.
  - unfold predict. rewrite normalize_closed_form. cbn [py_bind].
    rewrite post_post_process_answer_spec. eauto.
Qed.

(** X2: a variant returns the sentinel for too many numbers exactly when a
    unit was found and three numeric parts stand before the last part of
    the processed answer. *)
Theorem X2_too_many_numbers_iff (kind : trait_kind) (answer : string) :
  normalize kind answer = Ok "Too many numbers" <->
  detected_metric kind answer <> None /\
  3 <= count_numeric (removelast (answer_parts kind answer)).
Proof.
  rewrite normalize_closed_form.
  destruct (detected_metric kind answer) as [unit|].
  - destruct (3 <=? _) eqn:E.
    + apply Z.leb_le in E. split; [intros _; split; [discriminate | exact E] | reflexivity].
    + apply Z.leb_gt in E. split; [|intros [_ H]; lia].
      intros H. exfalso. injection H as H.
      pose proof (converted_values_chars (divisor_of kind) unit (answer_parts kind answer))
        as Hall.
      destruct (converted_values _ _ _) as [|v rest]; [discriminate|].
      inversion Hall as [|? ? Hv _]; subst.
      destruct v as [|a v']; destruct rest as [|v1 rest']; simpl in H;
        try discriminate H;
        injection H as -> _; simpl in Hv; discriminate Hv.
  - split; [discriminate | intros [H _]; contradiction].
Qed.

Lemma X2_too_many_numbers_iff_witness :
  normalize LeafWidth "1 2 3 cm" = Ok "Too many numbers".
Proof.
  apply (proj2 (X2_too_many_numbers_iff LeafWidth "1 2 3 cm")).
  split; [vm_compute; discriminate | vm_compute; discriminate].
Defined.

(** X3: when a unit was found and fewer than three numeric parts stand
    before the last part, the variant returns the conversions of all the
    numeric parts of the processed answer, in their order, joined by single
    spaces; they are at most three, and none of them holds a space. *)
Theorem X3_all_numbers_kept (kind : trait_kind) (answer unit : string) :
  detected_metric kind answer = Some unit ->
  count_numeric (removelast (answer_parts kind answer)) < 3 ->
  let values := converted_values (divisor_of kind) unit (answer_parts kind answer) in
  normalize kind answer = Ok (join " " values) /\
  Z.of_nat (List.length values) = count_numeric (answer_parts kind answer) /\
  (List.length values <= 3)%nat /\
  Forall no_space values.
Proof.
  intros Hm Hlt values.
  pose proof (detected_metric_token _ _ _ Hm) as [Hin _].
  assert (Hlen : Z.of_nat (List.length values) = count_numeric (answer_parts kind answer))
    by (apply converted_values_length; exact Hin).
  split; [|split; [exact Hlen | split; [|apply converted_values_no_space]]].
  - rewrite normalize_closed_form, Hm.
    destruct (3 <=? _) eqn:E; [apply Z.leb_le in E; lia | reflexivity].
  - pose proof (count_numeric_removelast (answer_parts kind answer)). lia.
Qed.

Lemma X3_all_numbers_kept_witness :
  normalize Height "1.5 m, rarely 2-3" =
  Ok (join " " (converted_values 1000 "m" (answer_parts Height "1.5 m, rarely 2-3"))).
Proof.
  apply (X3_all_numbers_kept Height "1.5 m, rarely 2-3" "m").
  - vm_compute. reflexivity.
  - vm_compute. reflexivity.
Defined.

(** X4: the parser followed by the resolver gives -1 when no unit was
    found, when the processed answer has no numeric part, and when it has
    three or more numeric parts, whether the parser answered with its
    sentinel or let three values through; in every other case it gives what
    the resolver makes of the converted values. *)
Theorem X4_predict_unresolved (kind : trait_kind) (answer : string) :
  predict kind answer =
    Ok match detected_metric kind answer with
       | None => PyInt (-1)
       | Some unit =>
           if 3 <=? count_numeric (removelast (answer_parts kind answer))
           then PyInt (-1)
           else resolve_spec
                  (converted_values (divisor_of kind) unit (answer_parts kind answer))
       end /\
  (detected_metric kind answer = None \/
   count_numeric (answer_parts kind answer) = 0 \/
   3 <= count_numeric (answer_parts kind answer) ->
   predict kind answer = Ok (PyInt (-1))).
Proof.
  assert (Hcf : predict kind answer =
    Ok match detected_metric kind answer with
       | None => PyInt (-1)
       | Some unit =>
           if 3 <=? count_numeric (removelast (answer_parts kind answer))
           then PyInt (-1)
           else resolve_spec
                  (converted_values (divisor_of kind) unit (answer_parts kind answer))
       end).
  { unfold predict. rewrite normalize_closed_form. cbn [py_bind].
    destruct (detected_metric kind answer) as [unit|]; [|vm_compute; reflexivity].
    destruct (3 <=? _); [vm_compute; reflexivity|].
    pose proof (converted_values_no_space (divisor_of kind) unit (answer_parts kind answer))
      as Hns.
    destruct (converted_values _ _ _) as [|v rest] eqn:E; [vm_compute; reflexivity|].
    rewrite post_post_process_answer_spec, str_split_join;
      [reflexivity | discriminate | exact Hns]. }
  split; [exact Hcf|].
  intros H. rewrite Hcf.
  destruct (detected_metric kind answer) as [unit|] eqn:Hm; [|reflexivity].
  destruct (3 <=? _); [reflexivity|].
  pose proof (detected_metric_token _ _ _ Hm) as [Hin _].
  pose proof (converted_values_length (divisor_of kind) unit (answer_parts kind answer) Hin)
    as Hlen.
  destruct H as [H | [H | H]]; [discriminate | |].
  - destruct (converted_values _ _ _); [reflexivity|].
    rewrite H in Hlen. cbn [List.length] in Hlen. lia.
  - destruct (converted_values _ _ _) as [|v0 [|v1 [|v2 rest]]];
      cbn [List.length] in Hlen; try lia. reflexivity.
Qed.

Lemma X4_predict_unresolved_witness :
  predict Height "1.5 m, rarely 2-3" = Ok (PyInt (-1)).
Proof.
  apply (proj2 (X4_predict_unresolved Height "1.5 m, rarely 2-3")).
  right. right. vm_compute. discriminate.
Defined.

(** ** The two regular expressions *)

Lemma match_here_star (s : string) : match_here pattern_paren_star s = star_len s.
Proof.
  induction s as [|a s' IH].
  - reflexivity.
  - change (match_here pattern_paren_star (String a s'))
      with (match (if Ascii.eqb a ")" then Some 1%nat else None) with
            | Some n => Some n
            | None => if Ascii.eqb a "(" then option_map S (match_here pattern_paren_star s')
                      else None
            end).
    rewrite IH. cbn [star_len].
    destruct (Ascii.eqb a ")"); reflexivity.
Qed.

Lemma star_len_parens (s : string) (n : nat) :
  star_len s = Some n -> parens_prefix n s.
Proof.
  revert n. induction s as [|a s' IH]; intros n H; simpl in H.
  - discriminate.
  - unfold is_paren. destruct (Ascii.eqb a ")") eqn:E1.
    + injection H as <-. simpl. unfold is_paren. rewrite E1, orb_true_r. auto.
    + destruct (Ascii.eqb a "(") eqn:E2; [|discriminate].
      destruct (star_len s') as [k|]; [|discriminate].
      injection H as <-. simpl. unfold is_paren. rewrite E2. auto.
Qed.

Lemma is_paren_deleted (a : ascii) : is_paren a = true -> str_contains a "()" = true.
Proof.
  unfold is_paren. intros H. cbn [str_contains]. rewrite orb_false_r.
  rewrite (Ascii.eqb_sym "(" a), (Ascii.eqb_sym ")" a). exact H.
Qed.

Lemma re_sub_star_keeps (s : string) (skip : nat) :
  parens_prefix skip s ->
  translate_delete "()" (re_sub_from pattern_paren_star s skip) = translate_delete "()" s.
Proof.
  revert skip. induction s as [|a s' IH]; intros skip Hp.
  - reflexivity.
  - destruct skip as [|k].
    + cbn [re_sub_from]. rewrite match_here_star.
      destruct (star_len (String a s')) as [[|n]|] eqn:E.
      * cbn [translate_delete]. rewrite (IH O I). reflexivity.
      * apply star_len_parens in E. destruct E as [Ha Hn].
        rewrite (IH n Hn). cbn [translate_delete].
        rewrite (is_paren_deleted _ Ha). reflexivity.
      * cbn [translate_delete]. rewrite (IH O I). reflexivity.
    + destruct Hp as [Ha Hk]. cbn [re_sub_from]. rewrite (IH k Hk).
      cbn [translate_delete].
      rewrite (is_paren_deleted _ Ha). reflexivity.
Qed.

Lemma re_sub_star_no_closing (s : string) (skip : nat) :
  str_contains ")" (re_sub_from pattern_paren_star s skip) = false.
Proof.
  revert skip. induction s as [|a s' IH]; intros skip.
  - destruct skip; reflexivity.
  - destruct skip as [|k]; cbn [re_sub_from]; [|apply IH].
    rewrite match_here_star. cbn [star_len].
    destruct (Ascii.eqb a ")") eqn:E1; [apply IH|].
    destruct (Ascii.eqb a "(") eqn:E2.
    + destruct (star_len s') as [n|]; cbn [option_map]; [apply IH|].
      simpl. rewrite E1, IH. reflexivity.
    + simpl. rewrite E1, IH. reflexivity.
Qed.

(** X5: the substitution of the height and the leaf length variants deletes
    parentheses and nothing else: every other character of the text is
    kept, in its place, so the content of a parenthesis stays in the text;
    no closing parenthesis is left. *)
Theorem X5_star_pattern_deletes_parentheses_only (s : string) :
  translate_delete "()" (re_sub_empty pattern_paren_star s) = translate_delete "()" s /\
  str_contains ")" (re_sub_empty pattern_paren_star s) = false.
Proof.
  split.
  - apply (re_sub_star_keeps s O). exact I.
  - apply re_sub_star_no_closing.
Qed.

Lemma lazy_any (s : string) :
  match_here [(AnyChar, LazyStar); (Lit ")", Once)] s = any_len s.
Proof.
  induction s as [|b t IH].
  - reflexivity.
  - change (match_here [(AnyChar, LazyStar); (Lit ")", Once)] (String b t))
      with (match (if Ascii.eqb b ")" then Some 1%nat else None) with
            | Some n => Some n
            | None => if negb (Ascii.eqb b "010"%char)
                      then option_map S (match_here [(AnyChar, LazyStar); (Lit ")", Once)] t)
                      else None
            end).
    rewrite IH. cbn [any_len].
    destruct (Ascii.eqb b ")"); reflexivity.
Qed.

Lemma match_here_any (s : string) :
  match_here pattern_paren_any s =
  match s with
  | String a s' => if Ascii.eqb a "(" then option_map S (any_len s') else None
  | EmptyString => None
  end.
Proof.
  destruct s as [|a s']; [reflexivity|].
  rewrite <- lazy_any. reflexivity.
Qed.

Lemma any_len_content (c b : string) :
  str_contains ")" c = false -> str_contains "010"%char c = false ->
  any_len (c ++ String ")" b) = Some (S (String.length c)).
Proof.
  induction c as [|a c' IH]; simpl; intros H1 H2.
  - reflexivity.
  - apply orb_false_iff in H1. destruct H1 as [Ha1 Hc1].
    apply orb_false_iff in H2. destruct H2 as [Ha2 Hc2].
    rewrite Ha1, Ha2, (IH Hc1 Hc2). reflexivity.
Qed.

Lemma re_sub_from_skip (p : regex) (u v : string) :
  re_sub_from p (u ++ v) (String.length u) = re_sub_from p v O.
Proof.
  induction u as [|a u' IH]; simpl; [reflexivity | exact IH].
Qed.

Lemma re_sub_any_before (a t : string) :
  str_contains "(" a = false ->
  re_sub_from pattern_paren_any (a ++ t) O = a ++ re_sub_from pattern_paren_any t O.
Proof.
  induction a as [|c a' IH]; intros H.
  - reflexivity.
  - simpl in H. apply orb_false_iff in H. destruct H as [Hc Ha].
    change ((String c a') ++ t) with (String c (a' ++ t)).
    cbn [re_sub_from]. rewrite match_here_any, Hc, (IH Ha). reflexivity.
Qed.

(** X6: the substitution of the leaf width variant deletes the first
    parenthesis of a text together with its content, when the content holds
    no closing parenthesis and no newline, and goes on after it. *)
Theorem X6_any_pattern_deletes_content (a c b : string) :
  str_contains "(" a = false ->
  str_contains ")" c = false ->
  str_contains "010"%char c = false ->
  re_sub_empty pattern_paren_any (a ++ String "(" (c ++ String ")" b)) =
  a ++ re_sub_empty pattern_paren_any b.
Proof.
  intros Ha Hc1 Hc2. unfold re_sub_empty.
  rewrite (re_sub_any_before _ _ Ha). f_equal.
  cbn [re_sub_from]. rewrite match_here_any. cbn [Ascii.eqb Bool.eqb].
  rewrite (any_len_content _ _ Hc1 Hc2). cbn [option_map].
  change (String ")" b) with (String ")" EmptyString ++ b).
  rewrite <- append_assoc.
  replace (S (String.length c)) with (String.length (c ++ String ")" EmptyString)).
  - apply re_sub_from_skip.
  - clear. induction c as [|x c' IH]; simpl; [reflexivity | rewrite IH; reflexivity].
Qed.

Lemma X6_any_pattern_deletes_content_witness :
  re_sub_empty pattern_paren_any "3 m (rarely 10) tall" = "3 m  tall".
Proof.
  apply (X6_any_pattern_deletes_content "3 m " "rarely 10" " tall"); reflexivity.
Defined.

(** ** The dimension separator *)

Lemma str_split_x_head (a rest : string) :
  str_contains "x" a = false ->
  str_contains "x" (a ++ String "x" rest) = true /\
  str_split "x" (a ++ String "x" rest) = a :: str_split "x" rest.
Proof.
  intros Ha. split.
  - rewrite str_contains_app. simpl. apply orb_true_r.
  - apply str_split_app, Ha.
Qed.

(** X7: in an answer with the letter x, the leaf length variant reads its
    numbers from the text before the first x only, and the leaf width
    variant from the text between the first x and the second, or the end;
    the rest of the answer counts for the detection of the unit alone. *)
Theorem X7_dimension_split (a b tail : string) :
  str_contains "x" a = false ->
  str_contains "x" b = false ->
  tail = EmptyString \/ (exists c, tail = String "x" c) ->
  let answer := a ++ String "x" (b ++ tail) in
  normalize LeafLength answer =
    match detected_metric LeafLength answer with
    | None => Ok "No metric"
    | Some unit =>
        parts_loop 10 (Some unit)
          (str_split " " (replace "-" " " (re_sub_empty pattern_paren_star a))) 0 []
    end /\
  normalize LeafWidth answer =
    match detected_metric LeafWidth answer with
    | None => Ok "No metric"
    | Some unit =>
        parts_loop 10 (Some unit)
          (str_split " " (replace "-" " " (re_sub_empty pattern_paren_any b))) 0 []
    end.
Proof.
  intros Ha Hb Htail answer.
  destruct (str_split_x_head a (b ++ tail) Ha) as [Hx Hsplit].
  assert (Hb' : exists rest, str_split "x" (b ++ tail) = b :: rest).
  { destruct Htail as [-> | [c ->]].
    - rewrite append_empty_r, (str_split_no_sep _ _ Hb). eauto.
    - rewrite (str_split_app _ _ _ Hb). eauto. }
  destruct Hb' as [rest Hrest].
  split; rewrite normalize_detect;
    destruct (detected_metric _ answer) as [unit|]; try reflexivity;
    unfold after_detection; subst answer; rewrite Hx, Hsplit, Hrest; reflexivity.
Qed.

Lemma X7_dimension_split_witness :
  normalize LeafWidth "20-40x10-30 mm x 5" =
    match detected_metric LeafWidth "20-40x10-30 mm x 5" with
    | None => Ok "No metric"
    | Some unit =>
        parts_loop 10 (Some unit)
          (str_split " " (replace "-" " " (re_sub_empty pattern_paren_any "10-30 mm "))) 0 []
    end.
Proof.
  apply (proj2 (X7_dimension_split "20-40" "10-30 mm " (String "x" " 5")
                  eq_refl eq_refl (or_intror (ex_intro _ " 5" eq_refl)))).
Defined.

(** ** The sentinel for a missing unit *)

Lemma detected_metric_none_tokens (kind : trait_kind) (answer : string) :
  detected_metric kind answer = None ->
  forall u, In u available_units -> ~ In u (unit_tokens answer).
Proof.
  intros H u Hu Ht.
  assert (Hm : unit_matches (unit_tokens answer) u = true).
  { unfold unit_matches, str_in. apply existsb_exists. exists u.
    split; [exact Ht | apply String.eqb_refl]. }
  unfold detected_metric in H.
  destruct kind.
  - rewrite detect_unit_height in H. unfold first_unit in H.
    destruct (find _ _) eqn:E; [discriminate|].
    rewrite (find_none _ _ E u Hu) in Hm. discriminate.
  - rewrite detect_unit_leaf in H by discriminate. unfold last_unit in H.
    destruct (find _ _) eqn:E; [discriminate|].
    rewrite (find_none _ _ E u (proj1 (in_rev _ _) Hu)) in Hm. discriminate.
  - rewrite detect_unit_leaf in H by discriminate. unfold last_unit in H.
    destruct (find _ _) eqn:E; [discriminate|].
    rewrite (find_none _ _ E u (proj1 (in_rev _ _) Hu)) in Hm. discriminate.
Qed.

(** X8: a variant answers with the sentinel for a missing unit exactly
    when no unit symbol of the table is one of the space-separated tokens of
    the answer without its punctuation; the condition is the same for the
    three variants, which so agree on this sentinel. *)
Theorem X8_no_metric_iff (kind : trait_kind) (answer : string) :
  normalize kind answer = Ok "No metric" <->
  (forall u, In u available_units -> ~ In u (unit_tokens answer)).
Proof.
  split.
  - intros H. apply (detected_metric_none_tokens kind).
    rewrite normalize_closed_form in H.
    destruct (detected_metric kind answer) as [unit|]; [exfalso | reflexivity].
    injection H as H.
    destruct (3 <=? _); [discriminate|].
    pose proof (converted_values_chars (divisor_of kind) unit (answer_parts kind answer))
      as Hall.
    destruct (converted_values _ _ _) as [|v rest]; [discriminate|].
    inversion Hall as [|? ? Hv _]; subst.
    destruct v as [|a v']; destruct rest as [|v1 rest']; simpl in H;
      try discriminate H;
      injection H as -> _; simpl in Hv; discriminate Hv.
  - intros H. rewrite normalize_detect, (detected_metric_none kind answer H). reflexivity.
Qed.

Lemma X8_no_metric_iff_witness :
  normalize LeafLength "20 CM" = Ok "No metric".
Proof.
  apply (proj2 (X8_no_metric_iff LeafLength "20 CM")).
  intros u Hu Ht. simpl in Hu.
  repeat (destruct Hu as [<- | Hu]; [vm_compute in Ht; intuition discriminate|]).
  exact Hu.
Defined.

(** ** The selector: when it raises, and what it selects *)

Lemma argmax_loop_bound (rest : list Float64.float) (i : nat) (mp : Float64.float)
    (max_ind : nat) :
  (max_ind < i)%nat ->
  (argmax_loop rest i mp max_ind < i + List.length rest)%nat.
Proof.
  revert i mp max_ind. induction rest as [|x rest IH]; intros i mp max_ind H; simpl.
  - lia.
  - destruct (negb (Float64.leb x mp)).
    + destruct (Float64.is_nan x); [lia|].
      specialize (IH (S i) x i). lia.
    + specialize (IH (S i) mp max_ind). lia.
Qed.

Lemma np_argmax_bound (l : list Float64.float) :
  l <> [] -> exists i, np_argmax l = Ok i /\ (i < List.length l)%nat.
Proof.
  intros Hne. destruct l as [|x rest]; [contradiction|].
  simpl. destruct (Float64.is_nan x).
  - exists O. split; [reflexivity | lia].
  - eexists. split; [reflexivity|].
    pose proof (argmax_loop_bound rest 1 x 0). lia.
Qed.

Lemma argmax_loop_first_nan (l1 l2 : list Float64.float) (x mp : Float64.float)
    (i max_ind : nat) :
  Forall not_nan l1 -> Float64.is_nan x = true ->
  argmax_loop (l1 ++ x :: l2) i mp max_ind = (i + List.length l1)%nat.
Proof.
  intros Hl1 Hx. revert i mp max_ind.
  induction l1 as [|y l1' IH]; intros i mp max_ind.
  - simpl. destruct x; try discriminate Hx. simpl. lia.
  - inversion Hl1 as [|? ? Hy Hl1']; subst.
    cbn [app argmax_loop]. rewrite Hy.
    destruct (negb (Float64.leb y mp)); rewrite (IH Hl1'); simpl; lia.
Qed.

Lemma np_argmax_first_nan (l1 l2 : list Float64.float) (x : Float64.float) :
  Forall not_nan l1 -> Float64.is_nan x = true ->
  np_argmax (l1 ++ x :: l2) = Ok (List.length l1).
Proof.
  intros Hl1 Hx. destruct l1 as [|y l1'].
  - simpl. rewrite Hx. reflexivity.
  - inversion Hl1 as [|? ? Hy Hl1']; subst.
    cbn [app np_argmax]. rewrite Hy.
    rewrite (argmax_loop_first_nan _ _ _ _ _ _ Hl1' Hx). reflexivity.
Qed.

Section SelectorEdges.

Variable World : Type.
Variable model_pipeline : pipeline World.

(** With a question, and when every call returns, the selector returns the
    question, the answer and the rounded score of one and the same
    position. *)
Lemma QA_Prediction_aligned (Questions : list string) (d : string) (w w' : World)
    (outs : list qa_output) :
  str_any isdigit d = true -> Questions <> [] ->
  ask_all model_pipeline Questions d w = (Ok outs, w') ->
  exists i question res,
    nth_error Questions i = Some question /\
    nth_error outs i = Some res /\
    QA_Prediction Questions (PyStr d) model_pipeline w =
      (Ok (question, answer res, PyFloat (Float64.np_round (score res) 3)), w').
Proof.
  intros Hd Hne Hask.
  set (scores := map (fun res => Float64.np_round (score res) 3) outs).
  assert (Hlen : List.length outs = List.length Questions)
    by (eapply ask_all_length; exact Hask).
  assert (Hls : List.length scores = List.length outs) by apply length_map.
  assert (Hsne : scores <> []).
  { intros E. rewrite E in Hls. destruct Questions; [contradiction|].
    simpl in *. lia. }
  destruct (np_argmax_bound scores Hsne) as (i & Harg & Hi).
  destruct (nth_error Questions i) as [question|] eqn:Eq;
    [|apply nth_error_None in Eq; lia].
  destruct (nth_error outs i) as [res|] eqn:Er;
    [|apply nth_error_None in Er; lia].
  exists i, question, res. repeat split; try assumption.
  unfold QA_Prediction. rewrite Hd. cbn [negb].
  rewrite questions_loop_ask_all, Hask. cbn [app].
  fold scores. rewrite Harg. cbn [py_bind]. unfold py_index.
  rewrite Eq. cbn [py_bind].
  rewrite (map_nth_error answer _ _ Er). cbn [py_bind].
  subst scores.
  rewrite (map_nth_error (fun res => Float64.np_round (score res) 3) _ _ Er).
  reflexivity.
Qed.

(** An exception of a call is the exception of the selector. *)
Lemma QA_Prediction_call_raises (Questions : list string) (d : string) (w w' : World)
    (e : exn) :
  str_any isdigit d = true ->
  ask_all model_pipeline Questions d w = (Raise e, w') ->
  QA_Prediction Questions (PyStr d) model_pipeline w = (Raise e, w').
Proof.
  intros Hd Hask. unfold QA_Prediction. rewrite Hd. cbn [negb].
  rewrite questions_loop_ask_all, Hask. reflexivity.
Qed.

(** The selector raises when there is no question, or when a call does. *)
Lemma QA_Prediction_raises (Questions : list string) (Description : value)
    (w : World) (e : exn) :
  fst (QA_Prediction Questions Description model_pipeline w) = Raise e ->
  exists d, Description = PyStr d /\ str_any isdigit d = true /\
    ((Questions = [] /\ e = ValueError) \/
     fst (ask_all model_pipeline Questions d w) = Raise e).
Proof.
  intros H.
  destruct Description as [z|x|d|]; try discriminate H.
  destruct (str_any isdigit d) eqn:Hd;
    [|unfold QA_Prediction in H; rewrite Hd in H; discriminate H].
  exists d. split; [reflexivity|]. split; [exact Hd|].
  destruct (ask_all model_pipeline Questions d w) as [[outs|e0] w'] eqn:Hask.
  - destruct Questions as [|q qs].
    + left. split; [reflexivity|].
      unfold QA_Prediction in H. rewrite Hd in H. simpl in H. congruence.
    + destruct (QA_Prediction_aligned (q :: qs) d w w' outs Hd ltac:(discriminate) Hask)
        as (i & question & res & _ & _ & Hrun).
      rewrite Hrun in H. discriminate H.
  - right. rewrite (QA_Prediction_call_raises _ _ _ _ _ Hd Hask) in H.
    simpl in *. congruence.
Qed.

Lemma asked_until (before after : list string) (question d : string)
    (w w1 w2 : World) (outs : list qa_output) (e : exn) :
  ask_all model_pipeline before d w = (Ok outs, w1) ->
  model_pipeline question d w1 = (Raise e, w2) ->
  asked model_pipeline (before ++ question :: after) d w = (before ++ [question])%list.
Proof.
  revert w outs. induction before as [|b before IH]; intros w outs; simpl.
  - intros [= _ <-] Hq. rewrite Hq. reflexivity.
  - destruct (model_pipeline b d w) as [[res|e0] w3]; [|discriminate].
    destruct (ask_all model_pipeline before d w3) as [[more|e1] w4] eqn:Eb;
      [|discriminate].
    intros [= _ <-] Hq. rewrite (IH w3 more Eb Hq). reflexivity.
Qed.

End SelectorEdges.

(** X9: the selector raises in two cases only, both with a description that
    is a [str] with a digit.  Without a question it raises the [ValueError]
    of [numpy.argmax] and the capability has not been called.  When a call
    of the capability raises, after the calls for the questions before it
    have returned, the selector raises that exception: the state of the
    world is the one that the call left, and the calls made are those for
    the questions up to that one, none for the questions after it. *)
Theorem X9_selector_raises_iff (World : Type) (model_pipeline : pipeline World)
    (Questions : list string) (Description : value) (w : World) :
  (forall e,
     fst (QA_Prediction Questions Description model_pipeline w) = Raise e <->
     exists d, Description = PyStr d /\ str_any isdigit d = true /\
       ((Questions = [] /\ e = ValueError) \/
        exists before question after outs w1 w2,
          Questions = (before ++ question :: after)%list /\
          ask_all model_pipeline before d w = (Ok outs, w1) /\
          model_pipeline question d w1 = (Raise e, w2))) /\
  (forall d, Description = PyStr d -> str_any isdigit d = true -> Questions = [] ->
     QA_Prediction Questions Description model_pipeline w = (Raise ValueError, w)) /\
  (forall d before question after outs w1 w2 e,
     Description = PyStr d -> str_any isdigit d = true ->
     Questions = (before ++ question :: after)%list ->
     ask_all model_pipeline before d w = (Ok outs, w1) ->
     model_pipeline question d w1 = (Raise e, w2) ->
     QA_Prediction Questions Description model_pipeline w = (Raise e, w2) /\
     snd (snd (QA_Prediction Questions Description (recording model_pipeline) (w, []))) =
       map (fun question => (question, d)) (before ++ [question])).
Proof.
  assert (Hempty : forall d, str_any isdigit d = true ->
            QA_Prediction [] (PyStr d) model_pipeline w = (Raise ValueError, w)).
  { intros d Hd. unfold QA_Prediction. rewrite Hd. reflexivity. }
  split; [|split].
  - intros e. split.
    + intros H.
      destruct (QA_Prediction_raises World model_pipeline _ _ _ _ H)
        as (d & -> & Hd & [Hcase | Hcase]).
      * exists d. auto.
      * exists d. split; [reflexivity|]. split; [exact Hd|]. right.
        destruct (ask_all model_pipeline Questions d w) as [r w'] eqn:Hask.
        simpl in Hcase. subst r.
        destruct (proj1 (ask_all_raises World model_pipeline _ _ _ _ _) Hask)
          as (before & question & after & outs & w1 & Hsplit & Hb & Hq).
        exists before, question, after, outs, w1, w'. auto.
    + intros (d & -> & Hd & [[-> ->] | Hcase]).
      * rewrite (Hempty d Hd). reflexivity.
      * destruct Hcase as (before & question & after & outs & w1 & w2 & Hsplit & Hb & Hq).
        assert (Hask : ask_all model_pipeline Questions d w = (Raise e, w2)).
        { apply ask_all_raises. exists before, question, after, outs, w1. auto. }
        rewrite (QA_Prediction_call_raises World model_pipeline _ _ _ _ _ Hd Hask).
        reflexivity.
  - intros d -> Hd ->. exact (Hempty d Hd).
  - intros d before question after outs w1 w2 e -> Hd Hsplit Hb Hq.
    assert (Hask : ask_all model_pipeline Questions d w = (Raise e, w2)).
    { apply ask_all_raises. exists before, question, after, outs, w1. auto. }
    split.
    + exact (QA_Prediction_call_raises World model_pipeline _ _ _ _ _ Hd Hask).
    + rewrite QA_Prediction_state by exact Hd.
      rewrite ask_all_recording. cbn [snd app]. rewrite Hsplit.
      rewrite (asked_until World model_pipeline _ _ _ _ _ _ _ _ _ Hb Hq). reflexivity.
Qed.

(** A capability that raises [KeyError] at its second call. *)
Lemma X9_selector_raises_iff_witness :
  let model_pipeline : pipeline nat :=
    fun _ _ n =>
      (match n with
       | O => Ok {| answer := "2 m"; score := Float64.of_decimal false 9 (-1) |}
       | _ => Raise KeyError
       end, S n) in
  QA_Prediction ["How tall is the plant?"; "What is the height?"; "How high is it?"]
    (PyStr "Shrub, 20-37 cm tall.") model_pipeline O = (Raise KeyError, 2%nat) /\
  snd (snd (QA_Prediction
              ["How tall is the plant?"; "What is the height?"; "How high is it?"]
              (PyStr "Shrub, 20-37 cm tall.") (recording model_pipeline) (O, []))) =
    [("How tall is the plant?", "Shrub, 20-37 cm tall.");
     ("What is the height?", "Shrub, 20-37 cm tall.")].
Proof.
  intros model_pipeline.
  apply (proj2 (proj2 (X9_selector_raises_iff nat model_pipeline
                  ["How tall is the plant?"; "What is the height?"; "How high is it?"]
                  (PyStr "Shrub, 20-37 cm tall.") O))
           "Shrub, 20-37 cm tall." ["How tall is the plant?"] "What is the height?"
           ["How high is it?"]
           [{| answer := "2 m"; score := Float64.of_decimal false 9 (-1) |}]
           1%nat 2%nat KeyError); reflexivity.
Defined.

(** X10: for a [str] description with a digit and at least one question,
    when every call of the capability returns, the selector returns,
    whatever the scores are, a NaN included; the question and the answer
    that it returns belong to one and the same call, and its score is the
    score of that call rounded to three decimals: the quotient by 1000 of
    the integer nearest to the product of the score and 1000. *)
Theorem X10_selector_result_aligned (World : Type) (model_pipeline : pipeline World)
    (Questions : list string) (d : string) (w w' : World) (outs : list qa_output) :
  str_any isdigit d = true -> Questions <> [] ->
  ask_all model_pipeline Questions d w = (Ok outs, w') ->
  exists i question res rounded,
    nth_error Questions i = Some question /\
    nth_error outs i = Some res /\
    rounded_to_decimals 3 (score res) rounded /\
    QA_Prediction Questions (PyStr d) model_pipeline w =
      (Ok (question, answer res, PyFloat rounded), w').
Proof.
  intros Hd Hne Hask.
  destruct (QA_Prediction_aligned World model_pipeline _ _ _ _ _ Hd Hne Hask)
    as (i & question & res & Hq & Hr & Hrun).
  exists i, question, res, (Float64.np_round (score res) 3).
  repeat split; try assumption. apply np_round_rounded.
Qed.

Lemma X10_selector_result_aligned_witness :
  (exists i question res rounded,
     nth_error ["How wide is the leaf?"] i = Some question /\
     nth_error [{| answer := "3 cm"; score := Float64.of_decimal false 87654 (-5) |}] i
       = Some res /\
     rounded_to_decimals 3 (score res) rounded /\
     QA_Prediction ["How wide is the leaf?"] (PyStr "Leaf 3 cm wide.")
       (fun _ _ (n : nat) =>
          (Ok {| answer := "3 cm"; score := Float64.of_decimal false 87654 (-5) |}, S n))
       O =
       (Ok (question, answer res, PyFloat rounded), 1%nat)) /\
  QA_Prediction ["How wide is the leaf?"] (PyStr "Leaf 3 cm wide.")
    (fun _ _ (n : nat) =>
       (Ok {| answer := "3 cm"; score := Float64.of_decimal false 87654 (-5) |}, S n))
    O =
    (Ok ("How wide is the leaf?", "3 cm", PyFloat (Float64.of_decimal false 877 (-3))),
     1%nat).
Proof.
  split.
  - apply (X10_selector_result_aligned nat
             (fun _ _ (n : nat) =>
                (Ok {| answer := "3 cm"; score := Float64.of_decimal false 87654 (-5) |},
                 S n))
             ["How wide is the leaf?"] "Leaf 3 cm wide." O 1%nat).
    + reflexivity.
    + discriminate.
    + reflexivity.
  - vm_compute. reflexivity.
Defined.

(** X11: a score that is NaN wins over every number: when the capability
    returns a NaN score, the selector returns the question and the answer of
    the first call whose score is NaN, with the score NaN. *)
Theorem X11_selector_first_nan (World : Type) (model_pipeline : pipeline World)
    (Questions : list string) (d : string) (w : World)
    (before after : list qa_output) (res : qa_output) :
  str_any isdigit d = true ->
  fst (ask_all model_pipeline Questions d w) = Ok (before ++ res :: after)%list ->
  Forall (fun r => not_nan (score r)) before ->
  Float64.is_nan (score res) = true ->
  exists question,
    nth_error Questions (List.length before) = Some question /\
    QA_Prediction Questions (PyStr d) model_pipeline w =
      (Ok (question, answer res, PyFloat S754_nan),
       snd (ask_all model_pipeline Questions d w)).
Proof.
  intros Hd Houts Hbefore Hres.
  destruct (ask_all model_pipeline Questions d w) as [r w'] eqn:Hask.
  cbn [fst snd] in *. subst r.
  pose proof (ask_all_length World model_pipeline Questions d w w' _ Hask) as Hlen.
  rewrite length_app in Hlen. cbn [List.length] in Hlen.
  destruct (nth_error Questions (List.length before)) as [question|] eqn:Eq;
    [|apply nth_error_None in Eq; lia].
  exists question. split; [reflexivity|].
  assert (Hround : Float64.np_round (score res) 3 = S754_nan).
  { destruct (score res); try discriminate Hres. reflexivity. }
  unfold QA_Prediction. rewrite Hd. cbn [negb].
  rewrite questions_loop_ask_all, Hask. cbn [app].
  rewrite !map_app. cbn [map]. rewrite Hround.
  rewrite np_argmax_first_nan.
  - rewrite length_map. cbn [py_bind]. unfold py_index. rewrite Eq. cbn [py_bind].
    rewrite nth_error_app2 by (rewrite length_map; lia).
    rewrite length_map, Nat.sub_diag. cbn [nth_error py_bind].
    rewrite nth_error_app2 by (rewrite length_map; lia).
    rewrite length_map, Nat.sub_diag. reflexivity.
  - apply Forall_map. eapply Forall_impl; [|exact Hbefore].
    intros r. apply np_round_not_nan.
  - reflexivity.
Qed.

Lemma X11_selector_first_nan_witness :
  exists question,
    nth_error ["How tall is the plant?"; "What is the height?"] 1 = Some question /\
    QA_Prediction ["How tall is the plant?"; "What is the height?"]
      (PyStr "Tree to 3 m.")
      (fun question _ (n : nat) =>
         (Ok (if String.eqb question "How tall is the plant?"
              then {| answer := "3 m"; score := Float64.of_decimal false 99 (-2) |}
              else {| answer := "Tree"; score := S754_nan |}), S n)) O =
      (Ok (question, "Tree", PyFloat S754_nan), 2%nat).
Proof.
  apply (X11_selector_first_nan nat
           (fun question _ (n : nat) =>
              (Ok (if String.eqb question "How tall is the plant?"
                   then {| answer := "3 m"; score := Float64.of_decimal false 99 (-2) |}
                   else {| answer := "Tree"; score := S754_nan |}), S n))
           ["How tall is the plant?"; "What is the height?"] "Tree to 3 m." O
           [{| answer := "3 m"; score := Float64.of_decimal false 99 (-2) |}]
           [] {| answer := "Tree"; score := S754_nan |}).
  - reflexivity.
  - reflexivity.
  - repeat constructor.
  - reflexivity.
Defined.

(** ** The pass over the rows of a dataset *)

Lemma normalize_normalized (kind : trait_kind) (answer : string) :
  normalize kind answer = Ok (normalized kind answer).
Proof. apply normalize_closed_form. Qed.

Lemma list_comprehension_map (A B : Type) (f : A -> py B) (g : A -> B) (l : list A) :
  (forall x, f x = Ok (g x)) -> list_comprehension f l = Ok (map g l).
Proof.
  intros H. induction l as [|x rest IH]; simpl.
  - reflexivity.
  - rewrite H, IH. reflexivity.
Qed.

Lemma expected_calls_no_questions (rows : list (value * value)) :
  expected_calls [] rows = [].
Proof.
  induction rows as [|[description trait_value] rest IH]; [reflexivity|].
  unfold expected_calls in *. cbn [flat_map fst]. rewrite IH.
  destruct description as [z|x|d|]; try reflexivity.
  destruct (str_any isdigit d); reflexivity.
Qed.

Section DriverFacts.

Variable World : Type.
Variable model_pipeline : pipeline World.

Lemma QA_Prediction_degenerate (Questions : list string) (Description : value)
    (w : World) :
  degenerate Description = true ->
  QA_Prediction Questions Description model_pipeline w =
    (Ok (EmptyString, early_answer Description, PyInt 0), w).
Proof.
  intros H. destruct Description as [z|x|d|]; try reflexivity.
  simpl in H. unfold QA_Prediction. rewrite H. reflexivity.
Qed.

Lemma QA_Prediction_returns (Questions : list string) (Description : value)
    (w : World) :
  Questions <> [] -> never_raises model_pipeline ->
  exists r w', QA_Prediction Questions Description model_pipeline w = (Ok r, w').
Proof.
  intros Hne Hnr.
  destruct (QA_Prediction Questions Description model_pipeline w) as [[r|e] w'] eqn:E;
    [eauto|exfalso].
  destruct (QA_Prediction_raises World model_pipeline Questions Description w e)
    as (d & -> & Hd & [[Hq _] | Hcall]).
  - rewrite E. reflexivity.
  - contradiction.
  - destruct (asked_never_raises World model_pipeline Questions d w Hnr)
      as (outs & w1 & Hask).
    rewrite Hask in Hcall. discriminate Hcall.
Qed.

(** The lists of the loop grow by one entry for every row. *)
Lemma rows_loop_grows (Questions : list string) (rows : list (value * value))
    (acc acc' : collected) (w w' : World) :
  rows_loop Questions model_pipeline rows acc w = (Ok acc', w') ->
  exists qs ans ss,
    question_list acc' = (question_list acc ++ qs)%list /\
    answer_list acc' = (answer_list acc ++ ans)%list /\
    score_list acc' = (score_list acc ++ ss)%list /\
    true_list acc' = (true_list acc ++ map snd rows)%list /\
    description_list acc' = (description_list acc ++ map fst rows)%list /\
    List.length qs = List.length rows /\
    List.length ans = List.length rows /\
    List.length ss = List.length rows.
Proof.
  revert acc w. induction rows as [|[description trait_value] rest IH]; intros acc w H.
  - simpl in H. injection H as <- <-. exists [], [], [].
    rewrite !app_nil_r. repeat split; reflexivity.
  - simpl in H.
    destruct (QA_Prediction Questions description model_pipeline w)
      as [[[[ques a] sc]|e] w1]; [|discriminate H].
    destruct (IH _ _ H) as (qs & ans & ss & Hq & Ha & Hs & Ht & Hd & Lq & La & Ls).
    cbn [question_list answer_list score_list true_list description_list] in *.
    exists (ques :: qs), (a :: ans), (sc :: ss).
    rewrite Hq, Ha, Hs, Ht, Hd, <- !app_assoc. cbn [app map fst snd List.length].
    repeat split; try reflexivity; lia.
Qed.

Lemma rows_loop_selected (Questions : list string) (rows : list (value * value))
    (acc acc' : collected) (w w' : World) :
  rows_loop Questions model_pipeline rows acc w = (Ok acc', w') ->
  exists qs ans ss,
    question_list acc' = (question_list acc ++ qs)%list /\
    answer_list acc' = (answer_list acc ++ ans)%list /\
    score_list acc' = (score_list acc ++ ss)%list /\
    rows_selected Questions model_pipeline rows w qs ans ss w'.
Proof.
  revert acc w. induction rows as [|[description trait_value] rest IH]; intros acc w H.
  - simpl in H. injection H as <- <-. exists [], [], [].
    rewrite !app_nil_r. repeat split; reflexivity.
  - simpl in H.
    destruct (QA_Prediction Questions description model_pipeline w)
      as [[[[ques a] sc]|e] w1] eqn:E; [|discriminate H].
    destruct (IH _ _ H) as (qs & ans & ss & Hq & Ha & Hs & Hsel).
    cbn [question_list answer_list score_list] in *.
    exists (ques :: qs), (a :: ans), (sc :: ss).
    rewrite Hq, Ha, Hs, <- !app_assoc. cbn [app].
    repeat split; try reflexivity.
    simpl. exists w1. auto.
Qed.

Lemma rows_selected_length (Questions : list string) (rows : list (value * value))
    (w w' : World) (qs ans : list string) (ss : list value) :
  rows_selected Questions model_pipeline rows w qs ans ss w' ->
  List.length qs = List.length rows /\
  List.length ans = List.length rows /\
  List.length ss = List.length rows.
Proof.
  revert w qs ans ss.
  induction rows as [|[description trait_value] rest IH]; intros w qs ans ss H.
  - destruct qs, ans, ss; try contradiction. auto.
  - destruct qs as [|q qs], ans as [|a ans], ss as [|sc ss]; try contradiction.
    destruct H as (w1 & _ & H). destruct (IH _ _ _ _ H) as (A & B & C).
    simpl. auto.
Qed.

Lemma rows_loop_never_raises (Questions : list string) (rows : list (value * value))
    (acc : collected) (w : World) :
  Questions <> [] -> never_raises model_pipeline ->
  exists acc', fst (rows_loop Questions model_pipeline rows acc w) = Ok acc'.
Proof.
  intros Hne Hnr. revert acc w.
  induction rows as [|[description trait_value] rest IH]; intros acc w.
  - simpl. eauto.
  - simpl.
    destruct (QA_Prediction_returns Questions description w Hne Hnr)
      as ([[ques a] sc] & w1 & ->).
    apply IH.
Qed.

(** The loop over the rows raises when the selector does on a row, after
    the rows before it have been answered. *)
Lemma rows_loop_raises (Questions : list string) (rows : list (value * value))
    (acc : collected) (w w' : World) (e : exn) :
  rows_loop Questions model_pipeline rows acc w = (Raise e, w') ->
  exists before description trait_value after qs ans ss w1,
    rows = (before ++ (description, trait_value) :: after)%list /\
    rows_selected Questions model_pipeline before w qs ans ss w1 /\
    QA_Prediction Questions description model_pipeline w1 = (Raise e, w').
Proof.
  revert acc w. induction rows as [|[description trait_value] rest IH]; intros acc w H.
  - discriminate H.
  - simpl in H.
    destruct (QA_Prediction Questions description model_pipeline w)
      as [[[[ques a] sc]|e0] w1] eqn:E.
    + destruct (IH _ _ H)
        as (before & d1 & t1 & after & qs & ans & ss & w2 & -> & Hsel & Hq).
      exists ((description, trait_value) :: before), d1, t1, after,
             (ques :: qs), (a :: ans), (sc :: ss), w2.
      split; [reflexivity|]. split; [|exact Hq].
      simpl. exists w1. auto.
    + injection H as <- <-.
      exists [], description, trait_value, rest, [], [], [], w.
      split; [reflexivity|]. split; [reflexivity|exact E].
Qed.

(** The entries of a row on which the selector returns at once. *)
Lemma rows_loop_degenerate (Questions : list string) (rows : list (value * value))
    (acc acc' : collected) (w w' : World) (i : nat) (description trait_value : value) :
  rows_loop Questions model_pipeline rows acc w = (Ok acc', w') ->
  nth_error rows i = Some (description, trait_value) ->
  degenerate description = true ->
  nth_error (question_list acc') (List.length (question_list acc) + i) = Some EmptyString /\
  nth_error (answer_list acc') (List.length (answer_list acc) + i)
    = Some (early_answer description) /\
  nth_error (score_list acc') (List.length (score_list acc) + i) = Some (PyInt 0).
Proof.
  revert acc w i. induction rows as [|[d0 t0] rest IH]; intros acc w i H Hi Hdeg.
  - destruct i; discriminate Hi.
  - simpl in H. destruct i as [|k].
    + simpl in Hi. injection Hi as -> ->.
      rewrite (QA_Prediction_degenerate _ _ _ Hdeg) in H.
      destruct (rows_loop_grows _ _ _ _ _ _ H)
        as (qs & ans & ss & Hq & Ha & Hs & _).
      cbn [question_list answer_list score_list] in *.
      rewrite Hq, Ha, Hs, !Nat.add_0_r, <- !app_assoc.
      repeat split;
        (rewrite nth_error_app2 by lia; rewrite Nat.sub_diag; reflexivity).
    + simpl in Hi.
      destruct (QA_Prediction Questions d0 model_pipeline w)
        as [[[[ques a] sc]|e] w1]; [|discriminate H].
      destruct (IH _ _ k H Hi Hdeg) as (Hq & Ha & Hs).
      cbn [question_list answer_list score_list] in *.
      rewrite !length_app in Hq, Ha, Hs. cbn [List.length] in *.
      replace (List.length (question_list acc) + S k)%nat
        with (List.length (question_list acc) + 1 + k)%nat by lia.
      replace (List.length (answer_list acc) + S k)%nat
        with (List.length (answer_list acc) + 1 + k)%nat by lia.
      replace (List.length (score_list acc) + S k)%nat
        with (List.length (score_list acc) + 1 + k)%nat by lia.
      auto.
Qed.

End DriverFacts.

(** The calls of a pass are the first of the expected calls, and all of
    them when the pass returns. *)
Lemma rows_loop_calls (World : Type) (model_pipeline : pipeline World)
    (Questions : list string) (rows : list (value * value))
    (acc : collected) (w : World) (log : list call) :
  exists later,
    (log ++ expected_calls Questions rows)%list =
      (snd (snd (rows_loop Questions (recording model_pipeline) rows acc (w, log)))
       ++ later)%list /\
    (forall acc' st,
       rows_loop Questions (recording model_pipeline) rows acc (w, log) = (Ok acc', st) ->
       later = []).
Proof.
  revert acc w log.
  induction rows as [|[description trait_value] rest IH]; intros acc w log.
  - simpl. exists []. split; [reflexivity | auto].
  - cbn [rows_loop].
    unfold expected_calls. cbn [flat_map fst]. fold (expected_calls Questions rest).
    destruct (degenerate description) eqn:Hdeg.
    + rewrite (QA_Prediction_degenerate _ _ _ _ _ Hdeg).
      destruct (IH
        {| question_list := (question_list acc ++ [EmptyString])%list;
           answer_list := (answer_list acc ++ [early_answer description])%list;
           score_list := (score_list acc ++ [PyInt 0])%list;
           true_list := (true_list acc ++ [trait_value])%list;
           description_list := (description_list acc ++ [description])%list |}
        w log) as (later & Hl & Hok).
      exists later. split; [|exact Hok].
      rewrite <- Hl.
      destruct description as [z|x|d|]; try reflexivity.
      simpl in Hdeg. apply negb_true_iff in Hdeg. rewrite Hdeg. reflexivity.
    + destruct description as [z|x|d|]; try discriminate Hdeg.
      simpl in Hdeg. apply negb_false_iff in Hdeg. rewrite Hdeg.
      pose proof (QA_Prediction_state (World * list call)%type (recording model_pipeline)
                    Questions d (w, log) Hdeg) as Hw.
      rewrite ask_all_recording in Hw. cbn [snd] in Hw.
      destruct (QA_Prediction Questions (PyStr d) (recording model_pipeline) (w, log))
        as [[[[ques a] sc]|e] w1] eqn:E; cbn [snd] in Hw; subst w1.
      * assert (Hall : asked model_pipeline Questions d w = Questions).
        { destruct (ask_all (recording model_pipeline) Questions d (w, log))
            as [[outs|e] st] eqn:Hask.
          - rewrite ask_all_recording in Hask.
            destruct (ask_all model_pipeline Questions d w) as [r w2] eqn:Hplain.
            cbn [fst snd] in Hask. injection Hask as -> _.
            exact (asked_all _ _ _ _ _ _ _ Hplain).
          - rewrite (QA_Prediction_call_raises _ _ _ _ _ _ _ Hdeg Hask) in E.
            discriminate E. }
        rewrite Hall.
        match goal with
        | |- context [rows_loop _ _ rest ?acc1 (?w1, ?log1)] =>
            destruct (IH acc1 w1 log1) as (later & Hl & Hok)
        end.
        exists later. split; [|exact Hok].
        rewrite <- Hl, app_assoc. reflexivity.
      * destruct (asked_prefix World model_pipeline Questions d w) as (unasked & Hsplit).
        exists (map (fun question => (question, d)) unasked
                ++ expected_calls Questions rest)%list.
        split; [|discriminate]. cbn [snd].
        rewrite Hsplit at 1. rewrite map_app, <- !app_assoc. reflexivity.
Qed.

Lemma Forall2_map_right (A B : Type) (R : A -> B -> Prop) (f : A -> B) (l : list A) :
  (forall x, R x (f x)) -> Forall2 R l (map f l).
Proof.
  intros H. induction l as [|x rest IH]; simpl; constructor; auto.
Qed.

Lemma post_post_process_answer_resolved (post_processed : string) :
  post_post_process_answer post_processed =
  Ok (resolve_spec (str_split " " post_processed)).
Proof. apply post_post_process_answer_spec. Qed.

Lemma dataset_predictions_unfold (World : Type) (model_pipeline : pipeline World)
    (kind : trait_kind) (Questions : list string) (rows : list (value * value))
    (w : World) :
  dataset_predictions kind Questions model_pipeline rows w =
  match rows_loop Questions model_pipeline rows no_rows w with
  | (Ok acc, w') =>
      (Ok (acc, map (normalized kind) (answer_list acc),
           map (fun s => resolve_spec (str_split " " s))
             (map (normalized kind) (answer_list acc))), w')
  | (Raise e, w') => (Raise e, w')
  end.
Proof.
  unfold dataset_predictions.
  destruct (rows_loop Questions model_pipeline rows no_rows w) as [[acc|e] w'];
    [|reflexivity].
  rewrite (list_comprehension_map _ _ _ (normalized kind));
    [|intros x; apply normalize_normalized].
  cbn [py_bind].
  rewrite (list_comprehension_map _ _ _ (fun s => resolve_spec (str_split " " s)));
    [|intros x; apply post_post_process_answer_resolved].
  reflexivity.
Qed.

(** X12: a pass over the rows of a dataset returns when there is a
    question and no call of the capability raises.  When it returns, the
    question, the answer and the score at the position of a row are those
    that the selector returns for the description of that row, on the state
    of the world that the rows before it left, and the final state is the
    one that the last row left; the descriptions and the trait values of
    the rows are kept in their order; and the parsed answer and the
    prediction at the position of a row are those of its selected answer.
    When it raises, the selector raises that exception on a row, after the
    rows before it were answered. *)
Theorem X12_driver_one_prediction_per_row (World : Type)
    (model_pipeline : pipeline World) (kind : trait_kind)
    (Questions : list string) (rows : list (value * value)) (w : World) :
  (Questions <> [] -> never_raises model_pipeline ->
   exists r w', dataset_predictions kind Questions model_pipeline rows w = (Ok r, w')) /\
  (forall acc post_predictions post_post_predictions w',
     dataset_predictions kind Questions model_pipeline rows w =
       (Ok (acc, post_predictions, post_post_predictions), w') ->
     rows_selected Questions model_pipeline rows w
       (question_list acc) (answer_list acc) (score_list acc) w' /\
     description_list acc = map fst rows /\
     true_list acc = map snd rows /\
     List.length (question_list acc) = List.length rows /\
     List.length (answer_list acc) = List.length rows /\
     List.length (score_list acc) = List.length rows /\
     Forall2 (fun ans post => normalize kind ans = Ok post)
       (answer_list acc) post_predictions /\
     Forall2 (fun ans prediction => predict kind ans = Ok prediction)
       (answer_list acc) post_post_predictions) /\
  (forall e w',
     dataset_predictions kind Questions model_pipeline rows w = (Raise e, w') ->
     exists before description trait_value after qs ans ss w1,
       rows = (before ++ (description, trait_value) :: after)%list /\
       rows_selected Questions model_pipeline before w qs ans ss w1 /\
       QA_Prediction Questions description model_pipeline w1 = (Raise e, w')).
Proof.
  rewrite dataset_predictions_unfold.
  split; [|split].
  - intros Hne Hnr.
    destruct (rows_loop_never_raises World model_pipeline Questions rows no_rows w Hne Hnr)
      as [acc Hacc].
    destruct (rows_loop Questions model_pipeline rows no_rows w) as [r w'] eqn:E.
    simpl in Hacc. subst r. eauto.
  - intros acc post pp w' Hrun.
    destruct (rows_loop Questions model_pipeline rows no_rows w) as [[acc0|e] w0] eqn:E;
      [|discriminate Hrun].
    injection Hrun as <- <- <- <-.
    destruct (rows_loop_selected _ _ _ _ _ _ _ _ E) as (qs & ans & ss & Hq & Ha & Hs & Hsel).
    destruct (rows_loop_grows _ _ _ _ _ _ _ _ E)
      as (qs' & ans' & ss' & Hq' & Ha' & Hs' & Ht & Hd & Lq & La & Ls).
    simpl in Hq, Ha, Hs, Hq', Ha', Hs', Ht, Hd.
    split; [rewrite Hq, Ha, Hs; exact Hsel|].
    rewrite Hq', Ha', Hs', Ht, Hd.
    repeat split; try assumption.
    + apply Forall2_map_right. intros x. apply normalize_normalized.
    + rewrite map_map. apply Forall2_map_right. intros x.
      unfold predict. rewrite normalize_normalized. cbn [py_bind].
      apply post_post_process_answer_resolved.
  - intros e w' Hrun.
    destruct (rows_loop Questions model_pipeline rows no_rows w) as [[acc0|e0] w0] eqn:E;
      [discriminate Hrun|].
    injection Hrun as <- <-.
    exact (rows_loop_raises _ _ _ _ _ _ _ _ E).
Qed.

(** Two rows, the second without a description: the answer of the first
    row is the answer selected for its description, and the capability has
    been called twice, for the first row only. *)
Lemma X12_driver_one_prediction_per_row_witness :
  let model_pipeline : pipeline nat :=
    fun _ _ n =>
      (Ok {| answer := "20-37 cm"; score := Float64.of_decimal false 9 (-1) |}, S n) in
  let Questions := ["How tall is the plant?"; "What is the height?"] in
  let rows := [(PyStr "Shrub, 20-37 cm tall.", PyFloat (Float64.of_decimal false 4 (-1)));
               (PyFloat S754_nan, PyFloat (Float64.of_decimal false 2 0))] in
  exists acc post_predictions post_post_predictions w',
    dataset_predictions Height Questions model_pipeline rows O =
      (Ok (acc, post_predictions, post_post_predictions), w') /\
    rows_selected Questions model_pipeline rows O
      (question_list acc) (answer_list acc) (score_list acc) w' /\
    Forall2 (fun ans prediction => predict Height ans = Ok prediction)
      (answer_list acc) post_post_predictions.
Proof.
  intros model_pipeline Questions rows.
  destruct (X12_driver_one_prediction_per_row nat model_pipeline Height Questions rows O)
    as (Hreturns & Hrows & _).
  destruct Hreturns as ([[acc post] pp] & w' & Hrun).
  - discriminate.
  - intros question context n. eexists _, _. reflexivity.
  - exists acc, post, pp, w'.
    destruct (Hrows acc post pp w' Hrun) as (Hsel & _ & _ & _ & _ & _ & _ & Hpp).
    auto.
Defined.

Lemma expected_calls_length (Questions : list string) (rows : list (value * value)) :
  List.length (expected_calls Questions rows) =
  (List.length Questions *
   List.length (filter (fun row => negb (degenerate (fst row))) rows))%nat.
Proof.
  induction rows as [|[description trait_value] rest IH].
  - simpl. lia.
  - assert (Hc : expected_calls Questions ((description, trait_value) :: rest) =
                 (match description with
                  | PyStr d =>
                      if str_any isdigit d
                      then map (fun question => (question, d)) Questions
                      else []
                  | _ => []
                  end ++ expected_calls Questions rest)%list) by reflexivity.
    rewrite Hc, length_app. unfold call in *. rewrite IH. cbn [filter fst].
    destruct description as [z|x|d|]; cbn [degenerate negb List.length]; try lia.
    destruct (str_any isdigit d); cbn [negb List.length].
    + rewrite length_map, Nat.mul_succ_r. lia.
    + lia.
Qed.

(** X13: in a pass over the rows of a dataset in which no call of the
    capability raises, the capability is called for every question, in the
    order of the list, on every row whose description is a [str] with a
    digit, in the order of the rows, and on no other row: as many calls as
    questions times such rows.  The same holds of every pass that returns;
    and the calls of a pass that raises are the first of these calls, in
    the same order. *)
Theorem X13_driver_calls (World : Type) (model_pipeline : pipeline World)
    (kind : trait_kind) (Questions : list string) (rows : list (value * value))
    (w : World) :
  (never_raises model_pipeline ->
   snd (snd (dataset_predictions kind Questions (recording model_pipeline) rows (w, []))) =
     expected_calls Questions rows) /\
  (forall r st,
     dataset_predictions kind Questions (recording model_pipeline) rows (w, []) = (Ok r, st) ->
     snd st = expected_calls Questions rows) /\
  (exists later,
     expected_calls Questions rows =
       (snd (snd (dataset_predictions kind Questions (recording model_pipeline) rows (w, [])))
        ++ later)%list) /\
  List.length (expected_calls Questions rows) =
    (List.length Questions *
     List.length (filter (fun row => negb (degenerate (fst row))) rows))%nat.
Proof.
  destruct (rows_loop_calls World model_pipeline Questions rows no_rows w [])
    as (later & Hl & Hok).
  cbn [app] in Hl.
  assert (Hsnd : snd (dataset_predictions kind Questions (recording model_pipeline) rows (w, []))
                 = snd (rows_loop Questions (recording model_pipeline) rows no_rows (w, []))).
  { rewrite dataset_predictions_unfold.
    destruct (rows_loop Questions (recording model_pipeline) rows no_rows (w, []))
      as [[acc|e] st]; reflexivity. }
  assert (Hreturned : forall r st,
            dataset_predictions kind Questions (recording model_pipeline) rows (w, [])
              = (Ok r, st) ->
            snd st = expected_calls Questions rows).
  { intros r st Hrun. rewrite Hl.
    rewrite dataset_predictions_unfold in Hrun.
    destruct (rows_loop Questions (recording model_pipeline) rows no_rows (w, []))
      as [[acc|e] st0] eqn:E; [|discriminate Hrun].
    injection Hrun as _ <-. rewrite (Hok acc st0 eq_refl), app_nil_r. reflexivity. }
  split; [|split; [exact Hreturned|split; [|apply expected_calls_length]]].
  - intros Hnr.
    destruct (dataset_predictions kind Questions (recording model_pipeline) rows (w, []))
      as [[r|e] st] eqn:Hrun.
    + exact (Hreturned r st eq_refl).
    + destruct (Questions) as [|q qs] eqn:Hq.
      * rewrite expected_calls_no_questions in *. cbn [snd].
        rewrite <- Hsnd in Hl. cbn [snd] in Hl.
        symmetry in Hl. apply app_eq_nil in Hl. tauto.
      * exfalso.
        assert (Hrec : never_raises (recording model_pipeline)).
        { intros question context [w0 log0]. unfold recording. cbn [fst snd].
          destruct (Hnr question context w0) as (res & w1 & ->). eauto. }
        rewrite dataset_predictions_unfold in Hrun.
        destruct (rows_loop_never_raises _ (recording model_pipeline) (q :: qs) rows
                    no_rows (w, []) ltac:(discriminate) Hrec) as (acc & Hacc).
        destruct (rows_loop (q :: qs) (recording model_pipeline) rows no_rows (w, []))
          as [[acc0|e0] st0]; [discriminate Hrun | discriminate Hacc].
  - exists later. rewrite Hsnd. exact Hl.
Qed.

(** Three rows, the second without a digit: four calls. *)
Lemma X13_driver_calls_witness :
  snd (snd (dataset_predictions Height ["How tall is the plant?"; "What is the height?"]
              (recording (fun _ _ (n : nat) =>
                 (Ok {| answer := "2 m"; score := Float64.of_decimal false 9 (-1) |}, S n)))
              [(PyStr "Tree to 2 m.", PyNone); (PyStr "A tall tree.", PyNone);
               (PyStr "Shrub, 20-37 cm tall.", PyNone)] (O, []))) =
    expected_calls ["How tall is the plant?"; "What is the height?"]
      [(PyStr "Tree to 2 m.", PyNone); (PyStr "A tall tree.", PyNone);
       (PyStr "Shrub, 20-37 cm tall.", PyNone)].
Proof.
  apply (proj1 (X13_driver_calls nat
                  (fun _ _ (n : nat) =>
                     (Ok {| answer := "2 m"; score := Float64.of_decimal false 9 (-1) |}, S n))
                  Height ["How tall is the plant?"; "What is the height?"]
                  [(PyStr "Tree to 2 m.", PyNone); (PyStr "A tall tree.", PyNone);
                   (PyStr "Shrub, 20-37 cm tall.", PyNone)] O)).
  intros question context n. eexists _, _. reflexivity.
Defined.

(** X14: a row whose description is not a [str], or is a [str] without a
    digit, gets the empty question, the text of the early return, the
    score 0, the sentinel for a missing unit as its parsed answer and the
    prediction -1, at its own position in the lists, for each of the three
    traits. *)
Theorem X14_driver_degenerate_row (World : Type) (model_pipeline : pipeline World)
    (kind : trait_kind) (Questions : list string) (rows : list (value * value))
    (w w' : World) (acc : collected) (post_predictions : list string)
    (post_post_predictions : list value) (i : nat) (description trait_value : value) :
  dataset_predictions kind Questions model_pipeline rows w =
    (Ok (acc, post_predictions, post_post_predictions), w') ->
  nth_error rows i = Some (description, trait_value) ->
  degenerate description = true ->
  nth_error (question_list acc) i = Some EmptyString /\
  nth_error (answer_list acc) i = Some (early_answer description) /\
  nth_error (score_list acc) i = Some (PyInt 0) /\
  nth_error post_predictions i = Some "No metric" /\
  nth_error post_post_predictions i = Some (PyInt (-1)).
Proof.
  intros Hrun Hi Hdeg. rewrite dataset_predictions_unfold in Hrun.
  destruct (rows_loop Questions model_pipeline rows no_rows w) as [[acc0|e] w0] eqn:E;
    [|discriminate Hrun].
  injection Hrun as <- <- <- <-.
  destruct (rows_loop_degenerate _ _ _ _ _ _ _ _ _ _ _ E Hi Hdeg) as (Hq & Ha & Hs).
  simpl in Hq, Ha, Hs.
  assert (Hnm : normalized kind (early_answer description) = "No metric").
  { destruct kind; destruct description; vm_compute; reflexivity. }
  repeat split; try assumption.
  - rewrite (map_nth_error _ _ _ Ha), Hnm. reflexivity.
  - rewrite (map_nth_error _ _ _ (map_nth_error _ _ _ Ha)), Hnm. reflexivity.
Qed.

Lemma X14_driver_degenerate_row_witness :
  exists acc post_predictions post_post_predictions w',
    dataset_predictions LeafWidth ["How wide is the leaf?"]
      (fun _ _ (n : nat) =>
         (Ok {| answer := "3 cm"; score := Float64.of_decimal false 9 (-1) |}, S n))
      [(PyStr "Leaf 3 cm wide.", PyNone); (PyStr "Leaves broad.", PyNone)] O =
      (Ok (acc, post_predictions, post_post_predictions), w') /\
    nth_error (answer_list acc) 1 = Some "No Number" /\
    nth_error post_post_predictions 1 = Some (PyInt (-1)).
Proof.
  destruct (dataset_predictions LeafWidth ["How wide is the leaf?"]
              (fun _ _ (n : nat) =>
                 (Ok {| answer := "3 cm"; score := Float64.of_decimal false 9 (-1) |}, S n))
              [(PyStr "Leaf 3 cm wide.", PyNone); (PyStr "Leaves broad.", PyNone)] O)
    as [[[[acc post] pp]|e] w'] eqn:E.
  - exists acc, post, pp, w'. split; [reflexivity|].
    destruct (X14_driver_degenerate_row _ _ _ _ _ _ _ _ _ _ 1%nat
                (PyStr "Leaves broad.") PyNone E eq_refl eq_refl)
      as (_ & Ha & _ & _ & Hp).
    split; assumption.
  - vm_compute in E. discriminate E.
Defined.

(** ** When the variants agree on the unit *)

(** X15: when one unit symbol alone is among the tokens of an answer, the
    three variants detect that unit; they can differ only on answers with
    two or more different unit symbols. *)
Theorem X15_single_unit_agreement (kind : trait_kind) (answer u : string) :
  In u available_units ->
  In u (unit_tokens answer) ->
  (forall v, In v available_units -> In v (unit_tokens answer) -> v = u) ->
  detected_metric kind answer = Some u.
Proof.
  intros Hu Ht Honly.
  destruct (detected_metric kind answer) as [v|] eqn:E.
  - apply detected_metric_token in E. destruct E as [Hv Hvt].
    rewrite (Honly v Hv Hvt). reflexivity.
  - exfalso. exact (detected_metric_none_tokens kind answer E u Hu Ht).
Qed.

Lemma X15_single_unit_agreement_witness :
  detected_metric LeafLength "up to 2 ft long" = Some "ft".
Proof.
  apply X15_single_unit_agreement.
  - simpl. tauto.
  - vm_compute. tauto.
  - intros v Hv Ht. simpl in Hv.
    repeat (destruct Hv as [<- | Hv];
            [try reflexivity; vm_compute in Ht; exfalso; intuition discriminate|]).
    contradiction.
Defined.

(** ** The sign of what the parser and the resolver return *)

Lemma binary_round_aux_sign (mx ex : Z) (lx : location) :
  sign_clear (binary_round_aux Float64.prec Float64.emax false mx ex lx).
Proof.
  unfold binary_round_aux.
  destruct (shr_fexp _ _ mx ex lx) as [mrs' e'].
  destruct (shr_fexp _ _ _ e' loc_Exact) as [mrs'' e''].
  destruct (shr_m mrs'') as [|p|p]; simpl; try reflexivity.
  destruct (_ <=? _); reflexivity.
Qed.

Lemma binary_normalize_sign (m e : Z) :
  0 <= m -> sign_clear (binary_normalize Float64.prec Float64.emax m e false).
Proof.
  intros H. destruct m as [|p|p]; simpl; [reflexivity | | lia].
  unfold binary_round. destruct (shl_align _ _ _) as [mz ez].
  apply binary_round_aux_sign.
Qed.

Lemma of_decimal_sign (m e : Z) : sign_clear (Float64.of_decimal false m e).
Proof.
  unfold Float64.of_decimal. destruct m as [|p|p]; try reflexivity.
  destruct (0 <=? e) eqn:E.
  - apply Z.leb_le in E. apply binary_normalize_sign. cbn [cond_Zopp].
    apply Z.mul_nonneg_nonneg; [lia | apply Z.pow_nonneg; lia].
  - destruct (Z.div_eucl _ _) as [q r]. apply binary_round_aux_sign.
Qed.

Lemma mul_sign (x r : Float64.float) :
  sign_clear x -> positive_finite r -> sign_clear (Float64.mul x r).
Proof.
  destruct r as [| | |sr mr er]; try contradiction.
  intros Hx Hr. simpl in Hr. subst sr.
  destruct x as [s|s| |s m e]; simpl in *; subst; try reflexivity.
  apply binary_round_aux_sign.
Qed.

Lemma div_sign (x r : Float64.float) :
  sign_clear x -> positive_finite r -> sign_clear (Float64.div x r).
Proof.
  destruct r as [| | |sr mr er]; try contradiction.
  intros Hx Hr. simpl in Hr. subst sr.
  destruct x as [s|s| |s m e]; simpl in *; subst; try reflexivity.
  destruct (SFdiv_core_binary _ _ _ _ _ _) as [[mz ez] lz].
  apply binary_round_aux_sign.
Qed.

Lemma rint_sign (x : Float64.float) : sign_clear x -> sign_clear (Float64.rint x).
Proof.
  destruct x as [s|s| |s m e]; simpl; intros H; subst; try reflexivity.
  destruct (0 <=? e) eqn:E; [reflexivity|].
  apply Z.leb_gt in E. apply binary_normalize_sign. cbn [cond_Zopp].
  assert (Hd : 0 < 2 ^ (- e)) by (apply Z.pow_pos_nonneg; lia).
  pose proof (Z.div_pos (Zpos m) (2 ^ (- e)) ltac:(lia) Hd) as Hq.
  destruct (_ ?= _); [destruct (Z.even _)| |]; lia.
Qed.

Lemma np_round_sign (x : Float64.float) :
  sign_clear x -> sign_clear (Float64.np_round x 4).
Proof.
  intros H. unfold Float64.np_round.
  assert (Hf : positive_finite (Float64.of_Z (10 ^ 4))) by reflexivity.
  apply div_sign; [|exact Hf]. apply rint_sign. apply mul_sign; [exact H | exact Hf].
Qed.

Lemma conversion_rate_positive (unit : string) (rate : Float64.float) :
  dict_get conversion_dict unit = Ok rate -> positive_finite rate.
Proof.
  unfold conversion_dict, available_units, conversions. cbn [combine dict_get].
  repeat (destruct (String.eqb _ unit);
          [intros H; injection H as <-; reflexivity|]).
  discriminate.
Qed.

Lemma remove_underscores_chars (c prev : ascii) (s t : string) :
  Float64.remove_underscores prev s = Some t ->
  str_contains c t = true -> str_contains c s = true.
Proof.
  revert prev t. induction s as [|a s' IH]; intros prev t H Hc; simpl in H.
  - destruct (Ascii.eqb prev "_"); [discriminate|]. injection H as <-. discriminate Hc.
  - destruct (Ascii.eqb a "_").
    + destruct (is_decimal prev); [|discriminate].
      simpl. rewrite (IH _ _ H Hc). apply orb_true_r.
    + destruct (_ && _); [discriminate|].
      destruct (Float64.remove_underscores a s') as [t'|] eqn:E; [|discriminate].
      injection H as <-. simpl in Hc |- *.
      apply orb_true_iff in Hc. destruct Hc as [Hc|Hc].
      * rewrite Hc. reflexivity.
      * rewrite (IH _ _ E Hc). apply orb_true_r.
Qed.

Lemma lstrip_chars (c : ascii) (s : string) :
  str_contains c (Float64.lstrip s) = true -> str_contains c s = true.
Proof.
  induction s as [|a s' IH]; simpl; intros H; [discriminate|].
  destruct (Float64.is_space a); [|exact H].
  rewrite (IH H). apply orb_true_r.
Qed.

Lemma rstrip_chars (c : ascii) (s : string) :
  str_contains c (Float64.rstrip s) = true -> str_contains c s = true.
Proof.
  induction s as [|a s' IH]; simpl; intros H; [discriminate|].
  destruct (Float64.rstrip s') as [|b t].
  - destruct (Float64.is_space a); [discriminate|].
    simpl in H. rewrite orb_false_r in H. rewrite H. reflexivity.
  - simpl in H. apply orb_true_iff in H. destruct H as [H|H].
    + rewrite H. reflexivity.
    + rewrite (IH H). apply orb_true_r.
Qed.

Lemma of_str_body_sign (body : string) (x : Float64.float) :
  (let low := Float64.lower body in
   if String.eqb low "inf" || String.eqb low "infinity" then Ok (S754_infinity false)
   else if String.eqb low "nan" then Ok S754_nan
   else match Float64.parse_number body with
        | Some (m, e) => Ok (Float64.of_decimal false m e)
        | None => Raise ValueError
        end) = Ok x ->
  sign_clear x.
Proof.
  cbv zeta. destruct (_ || _); [intros H; injection H as <-; reflexivity|].
  destruct (String.eqb _ "nan"); [intros H; injection H as <-; exact I|].
  destruct (Float64.parse_number body) as [[m e]|]; [|discriminate].
  intros H. injection H as <-. apply of_decimal_sign.
Qed.

(** A text without a hyphen is never read as a negative number. *)
Lemma of_str_sign (p : string) (x : Float64.float) :
  str_contains "-" p = false -> Float64.of_str p = Ok x -> sign_clear x.
Proof.
  intros Hp. unfold Float64.of_str.
  destruct (Float64.remove_underscores _ p) as [t|] eqn:Et; [|discriminate].
  assert (Hs : str_contains "-" (Float64.strip t) = false).
  { destruct (str_contains "-" (Float64.strip t)) eqn:E; [|reflexivity].
    unfold Float64.strip in E. apply rstrip_chars, lstrip_chars in E.
    rewrite (remove_underscores_chars _ _ _ _ Et E) in Hp. discriminate. }
  destruct (Float64.strip t) as [|a u] eqn:Eu.
  - cbn [Float64.take_sign]. apply of_str_body_sign.
  - simpl in Hs. apply orb_false_iff in Hs. destruct Hs as [Ha _].
    assert (Hsign : Float64.take_sign (String a u) = (false, String a u)
                    \/ exists u', Float64.take_sign (String a u) = (false, u')).
    { unfold Float64.take_sign.
      destruct a as [[] [] [] [] [] [] [] []]; try discriminate Ha; eauto. }
    destruct Hsign as [-> | [u' ->]]; apply of_str_body_sign.
Qed.

Lemma remove_underscores_id (prev : ascii) (s : string) :
  Ascii.eqb prev "_" = false -> str_contains "_" s = false ->
  Float64.remove_underscores prev s = Some s.
Proof.
  revert prev. induction s as [|a s' IH]; intros prev Hprev Hs; simpl.
  - rewrite Hprev. reflexivity.
  - simpl in Hs. apply orb_false_iff in Hs. destruct Hs as [Ha Hs'].
    rewrite Ha, Hprev. cbn [andb]. rewrite (IH a Ha Hs'). reflexivity.
Qed.

Lemma rstrip_id (s : string) :
  str_all (fun c => negb (Float64.is_space c)) s = true -> Float64.rstrip s = s.
Proof.
  induction s as [|a s' IH]; simpl; intros H; [reflexivity|].
  apply andb_true_iff in H. destruct H as [Ha Hs]. rewrite (IH Hs).
  destruct s'; [|reflexivity].
  apply negb_true_iff in Ha. rewrite Ha. reflexivity.
Qed.

Lemma lstrip_id (s : string) :
  str_all (fun c => negb (Float64.is_space c)) s = true -> Float64.lstrip s = s.
Proof.
  destruct s as [|a s']; simpl; intros H; [reflexivity|].
  apply andb_true_iff in H. destruct H as [Ha _].
  apply negb_true_iff in Ha. rewrite Ha. reflexivity.
Qed.

Lemma float_char_not_space (c : ascii) :
  float_char c = true -> negb (Float64.is_space c) = true.
Proof.
  destruct c as [[] [] [] [] [] [] [] []]; intros H; try reflexivity; discriminate H.
Qed.

Lemma float_char_not_underscore (s : string) :
  str_all float_char s = true -> str_contains "_" s = false.
Proof.
  intros H. apply (str_all_not_contains float_char); [exact H | reflexivity].
Qed.

(** A printed float that starts with no sign is read back with the sign
    bit clear. *)
Lemma of_str_unsigned (v : string) (x : Float64.float) :
  str_all float_char v = true -> first_char_ok not_sign_char v ->
  Float64.of_str v = Ok x -> sign_clear x.
Proof.
  intros Hall Hfirst. unfold Float64.of_str.
  rewrite remove_underscores_id;
    [|reflexivity | apply float_char_not_underscore, Hall].
  assert (Hns : str_all (fun c => negb (Float64.is_space c)) v = true)
    by (apply (str_all_weaken float_char); [apply float_char_not_space | exact Hall]).
  unfold Float64.strip. rewrite (lstrip_id _ Hns), (rstrip_id _ Hns).
  assert (Hsign : Float64.take_sign v = (false, v)).
  { destruct v as [|a u]; [reflexivity|]. simpl in Hfirst.
    unfold not_sign_char in Hfirst. apply andb_true_iff in Hfirst.
    destruct Hfirst as [H1 H2]. apply negb_true_iff in H1, H2.
    unfold Float64.take_sign.
    destruct a as [[] [] [] [] [] [] [] []]; try reflexivity; discriminate. }
  rewrite Hsign. apply of_str_body_sign.
Qed.

Lemma first_char_app (f : ascii -> bool) (a b : string) :
  first_char_ok f a -> (a = EmptyString -> first_char_ok f b) ->
  first_char_ok f (a ++ b).
Proof.
  destruct a as [|c a']; simpl; auto.
Qed.

Lemma decimal_not_sign (c : ascii) : is_decimal c = true -> not_sign_char c = true.
Proof.
  destruct c as [[] [] [] [] [] [] [] []]; intros H; try reflexivity; discriminate H.
Qed.

Lemma first_char_digits (ds : string) :
  str_all is_decimal ds = true -> first_char_ok not_sign_char ds.
Proof.
  destruct ds as [|a rest]; simpl; [auto|].
  intros H. apply andb_true_iff in H. destruct H as [Ha _].
  apply decimal_not_sign, Ha.
Qed.

Lemma first_char_zeros (n : nat) : first_char_ok not_sign_char (Float64.zeros n).
Proof. destruct n; simpl; auto. Qed.

Lemma format_digits_first_char (ds : string) (decpt : Z) :
  str_all is_decimal ds = true ->
  first_char_ok not_sign_char (Float64.format_digits ds decpt).
Proof.
  intros Hds. pose proof (first_char_digits ds Hds) as Hf.
  unfold Float64.format_digits.
  destruct (_ || _).
  - apply first_char_app.
    + destruct ds as [|a [|b rest]]; simpl in *; auto.
    + intros _. reflexivity.
  - destruct (decpt <=? 0); [reflexivity|].
    destruct (_ <=? decpt).
    + apply first_char_app; [exact Hf|]. intros _.
      apply first_char_app; [apply first_char_zeros | intros _; reflexivity].
    + apply first_char_app.
      * apply first_char_digits, str_all_substring, Hds.
      * intros _. reflexivity.
Qed.

Lemma to_str_first_char (y : Float64.float) :
  sign_clear y -> first_char_ok not_sign_char (Float64.to_str y).
Proof.
  destruct y as [s|s| |s m e]; simpl; intros H; subst; try reflexivity.
  unfold Float64.shortest_digits.
  destruct (Float64.shortest_from _ _ _ _ _ _) as [c n].
  unfold Float64.digits_text.
  cbn [append]. apply format_digits_first_char.
  apply str_all_strip_trailing_zeros, str_all_string_of_Z.
Qed.

Lemma of_Z_divisor_positive (kind : trait_kind) :
  positive_finite (Float64.of_Z (divisor_of kind)).
Proof. destruct kind; reflexivity. Qed.

Lemma convert_part_sign (kind : trait_kind) (metric : option string) (part v : string) :
  str_contains "-" part = false ->
  convert_part (divisor_of kind) metric part = Ok v ->
  str_all float_char v = true /\ first_char_ok not_sign_char v.
Proof.
  intros Hp H. split; [exact (convert_part_chars _ _ _ _ H)|].
  unfold convert_part in H.
  destruct (Float64.of_str part) as [x|e] eqn:Ex; cbn [py_bind] in H; [|discriminate].
  destruct (read_metric metric) as [unit|e]; cbn [py_bind] in H; [|discriminate].
  destruct (dict_get conversion_dict unit) as [rate|e] eqn:Er; cbn [py_bind] in H;
    [|discriminate].
  injection H as <-. apply to_str_first_char, np_round_sign.
  apply div_sign; [|apply of_Z_divisor_positive].
  apply mul_sign; [exact (of_str_sign _ _ Hp Ex) | exact (conversion_rate_positive _ _ Er)].
Qed.

Lemma converted_values_unsigned (kind : trait_kind) (unit : string) (parts : list string) :
  Forall (fun p => str_contains "-" p = false) parts ->
  Forall (fun v => str_all float_char v = true /\ first_char_ok not_sign_char v)
    (converted_values (divisor_of kind) unit parts).
Proof.
  intros Hparts. induction Hparts as [|part rest Hp _ IH]; simpl.
  - constructor.
  - destruct (convert_part (divisor_of kind) (Some unit) part) as [v|e] eqn:E; simpl.
    + constructor; [exact (convert_part_sign _ _ _ _ Hp E) | exact IH].
    + exact IH.
Qed.

Lemma replace_removes (old new : ascii) (s : string) :
  Ascii.eqb new old = false -> str_contains old (replace old new s) = false.
Proof.
  intros Hne. induction s as [|a s' IH]; simpl; [reflexivity|].
  rewrite IH, orb_false_r.
  destruct (Ascii.eqb a old) eqn:E; [exact Hne | exact E].
Qed.

Lemma str_split_parts_without (c sep : ascii) (s : string) :
  str_contains c s = false ->
  Forall (fun p => str_contains c p = false) (str_split sep s).
Proof.
  induction s as [|a s' IH]; simpl; intros H.
  - repeat constructor.
  - apply orb_false_iff in H. destruct H as [Ha Hs]. specialize (IH Hs).
    destruct (Ascii.eqb a sep).
    + constructor; [reflexivity | exact IH].
    + destruct (str_split sep s') as [|w ws].
      * repeat constructor. simpl. rewrite Ha. reflexivity.
      * inversion IH as [|? ? Hw Hws]; subst.
        constructor; [|exact Hws]. simpl. rewrite Ha. exact Hw.
Qed.

Lemma answer_parts_no_hyphen (kind : trait_kind) (answer : string) :
  Forall (fun p => str_contains "-" p = false) (answer_parts kind answer).
Proof.
  unfold answer_parts. apply str_split_parts_without, replace_removes. reflexivity.
Qed.

Lemma predict_closed_form (kind : trait_kind) (answer : string) :
  predict kind answer =
  Ok match detected_metric kind answer with
     | None => PyInt (-1)
     | Some unit =>
         if 3 <=? count_numeric (removelast (answer_parts kind answer))
         then PyInt (-1)
         else resolve_spec
                (converted_values (divisor_of kind) unit (answer_parts kind answer))
     end.
Proof.
  unfold predict. rewrite normalize_closed_form. cbn [py_bind].
  destruct (detected_metric kind answer) as [unit|]; [|vm_compute; reflexivity].
  destruct (3 <=? _); [vm_compute; reflexivity|].
  pose proof (converted_values_no_space (divisor_of kind) unit (answer_parts kind answer))
    as Hns.
  destruct (converted_values _ _ _) as [|v rest] eqn:E; [vm_compute; reflexivity|].
  rewrite post_post_process_answer_spec, str_split_join;
    [reflexivity | discriminate | exact Hns].
Qed.

(** X16: the hyphen being replaced by a space before the parts are read,
    no part is read as a negative number: a float that the parser followed
    by the resolver returns has its sign bit clear or is NaN, and so never
    equals -1; a prediction equal to -1 is always the sentinel. *)
Theorem X16_prediction_never_negative (kind : trait_kind) (answer : string)
    (x : Float64.float) :
  predict kind answer = Ok (PyFloat x) ->
  sign_clear x /\ SFeqb x (Float64.of_Z (-1)) = false.
Proof.
  intros H.
  assert (Hx : sign_clear x).
  { rewrite predict_closed_form in H. injection H as H.
    destruct (detected_metric kind answer) as [unit|]; [|discriminate H].
    destruct (3 <=? _); [discriminate H|].
    pose proof (converted_values_unsigned kind unit (answer_parts kind answer)
                  (answer_parts_no_hyphen kind answer)) as Hall.
    destruct (converted_values _ _ _) as [|v0 [|v1 [|v2 rest]]];
      simpl in H; try discriminate H.
    - inversion Hall as [|? ? [Hc Hf] _]; subst.
      destruct (Float64.of_str v0) as [y|e] eqn:E; [|discriminate H].
      injection H as <-. exact (of_str_unsigned _ _ Hc Hf E).
    - inversion Hall as [|? ? _ Hrest]; subst.
      inversion Hrest as [|? ? [Hc Hf] _]; subst.
      destruct (Float64.of_str v0) as [y0|e0]; [|discriminate H].
      destruct (Float64.of_str v1) as [y1|e1] eqn:E; [|discriminate H].
      injection H as <-. exact (of_str_unsigned _ _ Hc Hf E). }
  split; [exact Hx|].
  destruct x as [s|s| |s m e]; simpl in Hx; subst; reflexivity.
Qed.

Lemma X16_prediction_never_negative_witness :
  sign_clear (Float64.of_decimal false 37 (-2)) /\
  SFeqb (Float64.of_decimal false 37 (-2)) (Float64.of_Z (-1)) = false.
Proof.
  apply (X16_prediction_never_negative Height "20-37 cm").
  vm_compute. reflexivity.
Defined.

(** ** Answers without a closing parenthesis *)

Lemma star_len_none (s : string) : str_contains ")" s = false -> star_len s = None.
Proof.
  induction s as [|a s' IH]; simpl; intros H; [reflexivity|].
  apply orb_false_iff in H. destruct H as [Ha Hs].
  rewrite Ha, (IH Hs). destruct (Ascii.eqb a "("); reflexivity.
Qed.

Lemma any_len_none (s : string) : str_contains ")" s = false -> any_len s = None.
Proof.
  induction s as [|a s' IH]; simpl; intros H; [reflexivity|].
  apply orb_false_iff in H. destruct H as [Ha Hs].
  rewrite Ha, (IH Hs). destruct (negb _); reflexivity.
Qed.

Lemma re_sub_no_closing (kind : trait_kind) (s : string) :
  str_contains ")" s = false -> re_sub_empty (pattern_of kind) s = s.
Proof.
  unfold re_sub_empty. induction s as [|a s' IH]; intros H; [reflexivity|].
  assert (Hs : str_contains ")" s' = false).
  { simpl in H. apply orb_false_iff in H. tauto. }
  cbn [re_sub_from].
  assert (Hm : match_here (pattern_of kind) (String a s') = None).
  { destruct kind; cbn [pattern_of].
    - rewrite match_here_star. apply star_len_none, H.
    - rewrite match_here_star. apply star_len_none, H.
    - rewrite match_here_any, (any_len_none _ Hs).
      destruct (Ascii.eqb a "("); reflexivity. }
  rewrite Hm, (IH Hs). reflexivity.
Qed.

(** X17: on an answer without the letter x and without a closing
    parenthesis, the leaf length and the leaf width variants return the
    same result: they detect the same unit and read the parts of the whole
    answer. *)
Theorem X17_leaf_variants_agree (answer : string) :
  str_contains "x" answer = false ->
  str_contains ")" answer = false ->
  normalize LeafLength answer = normalize LeafWidth answer /\
  normalize LeafWidth answer =
    match detected_metric LeafWidth answer with
    | None => Ok "No metric"
    | Some unit =>
        parts_loop 10 (Some unit) (str_split " " (replace "-" " " answer)) 0 []
    end.
Proof.
  intros Hx Hp.
  assert (Hw : normalize LeafWidth answer =
    match detected_metric LeafWidth answer with
    | None => Ok "No metric"
    | Some unit =>
        parts_loop 10 (Some unit) (str_split " " (replace "-" " " answer)) 0 []
    end).
  { rewrite normalize_detect. destruct (detected_metric LeafWidth answer); [|reflexivity].
    rewrite after_detection_parts. unfold answer_parts, kept_segment.
    rewrite Hx, (re_sub_no_closing LeafWidth _ Hp). reflexivity. }
  split; [|exact Hw].
  rewrite Hw, normalize_detect.
  change (detected_metric LeafLength answer) with (detected_metric LeafWidth answer).
  destruct (detected_metric LeafWidth answer); [|reflexivity].
  rewrite after_detection_parts. unfold answer_parts, kept_segment.
  rewrite Hx, (re_sub_no_closing LeafLength _ Hp). reflexivity.
Qed.

Lemma X17_leaf_variants_agree_witness :
  normalize LeafLength "2-5 cm" = normalize LeafWidth "2-5 cm".
Proof.
  apply (proj1 (X17_leaf_variants_agree "2-5 cm" eq_refl eq_refl)).
Defined.

(** * Printing a number and resolving it again *)

(** ** Rounding a number that needs no rounding *)

Lemma digits2_size (p : positive) : digits2_pos p = Pos.size p.
Proof. induction p as [p IH|p IH|]; simpl; rewrite ?IH; reflexivity. Qed.

Lemma digits2_log2 (p : positive) : Zpos (digits2_pos p) = Z.log2 (Zpos p) + 1.
Proof.
  rewrite digits2_size. destruct p as [p|p|]; simpl; try reflexivity;
    rewrite Pos2Z.inj_succ; lia.
Qed.

Lemma Zdigits2_log2 (z : Z) : 0 < z -> Zdigits2 z = Z.log2 z + 1.
Proof. destruct z; try lia. intros _. apply digits2_log2. Qed.

Lemma Zdigits2_mul_pow2 (z a : Z) : 0 < z -> 0 <= a -> Zdigits2 (z * 2 ^ a) = Zdigits2 z + a.
Proof.
  intros Hz Ha.
  assert (0 < z * 2 ^ a) by (apply Z.mul_pos_pos; [lia|]; apply Z.pow_pos_nonneg; lia).
  rewrite !Zdigits2_log2 by lia.
  rewrite Z.log2_mul_pow2 by lia. lia.
Qed.

Lemma Zdigits2_mul_le (a b : Z) : 0 < a -> 0 < b -> Zdigits2 (a * b) <= Zdigits2 a + Zdigits2 b.
Proof.
  intros Ha Hb.
  assert (0 < a * b) by (apply Z.mul_pos_pos; lia).
  rewrite !Zdigits2_log2 by lia.
  pose proof (Z.log2_mul_above a b ltac:(lia) ltac:(lia)). lia.
Qed.

Lemma iter_pos_iter (A : Type) (f : A -> A) (p : positive) (x : A) :
  iter_pos f p x = Pos.iter f x p.
Proof.
  revert x. induction p as [p IH|p IH|]; intros x; simpl.
  - rewrite !IH, !Pos.iter_swap. reflexivity.
  - rewrite !IH. reflexivity.
  - reflexivity.
Qed.

Lemma shr_1_double (z : Z) : 0 < z ->
  shr_1 {| shr_m := 2 * z; shr_r := false; shr_s := false |} =
  {| shr_m := z; shr_r := false; shr_s := false |}.
Proof. destruct z; try lia. reflexivity. Qed.

Lemma iter_shr_exact (p : positive) (z : Z) : 0 < z ->
  iter_pos shr_1 p {| shr_m := z * 2 ^ Zpos p; shr_r := false; shr_s := false |} =
  {| shr_m := z; shr_r := false; shr_s := false |}.
Proof.
  intros Hz. rewrite iter_pos_iter. revert z Hz.
  induction p as [|p IH] using Pos.peano_ind; intros z Hz.
  - replace (z * 2 ^ 1) with (2 * z) by lia. cbn [Pos.iter]. apply shr_1_double, Hz.
  - rewrite Pos.iter_succ_r.
    replace (z * 2 ^ Zpos (Pos.succ p)) with (2 * (z * 2 ^ Zpos p))
      by (rewrite Pos2Z.inj_succ, Z.pow_succ_r by lia; lia).
    rewrite shr_1_double.
    + apply IH, Hz.
    + apply Z.mul_pos_pos; [lia|]. apply Z.pow_pos_nonneg; lia.
Qed.

(** A number that is represented exactly is not changed by rounding. *)
Lemma binary_round_aux_exact (s : bool) (m : positive) (e a : Z) :
  bounded Float64.prec Float64.emax m e = true -> 0 <= a ->
  binary_round_aux Float64.prec Float64.emax s (Zpos m * 2 ^ a) (e - a) loc_Exact =
  S754_finite s m e.
Proof.
  intros Hb Ha. unfold bounded in Hb. apply andb_true_iff in Hb.
  destruct Hb as [Hc He]. unfold canonical_mantissa in Hc. apply Z.eqb_eq in Hc.
  unfold binary_round_aux.
  assert (H1 : shr_fexp Float64.prec Float64.emax (Zpos m * 2 ^ a) (e - a) loc_Exact =
               ({| shr_m := Zpos m; shr_r := false; shr_s := false |}, e)).
  { unfold shr_fexp. rewrite Zdigits2_mul_pow2 by lia.
    replace (Zdigits2 (Z.pos m) + a + (e - a)) with (Zpos (digits2_pos m) + e)
      by (simpl Zdigits2; lia).
    rewrite Hc. replace (e - (e - a)) with a by lia.
    unfold shr, shr_record_of_loc. destruct a as [|p|p]; try lia.
    - rewrite Z.mul_1_r, Z.sub_0_r. reflexivity.
    - rewrite iter_shr_exact by lia. f_equal. lia. }
  rewrite H1. cbn [shr_m loc_of_shr_record round_nearest_even].
  assert (H2 : shr_fexp Float64.prec Float64.emax (Zpos m) e loc_Exact =
               ({| shr_m := Zpos m; shr_r := false; shr_s := false |}, e)).
  { unfold shr_fexp. simpl Zdigits2. rewrite Hc, Z.sub_diag. reflexivity. }
  rewrite H2. cbn [shr_m]. rewrite He. reflexivity.
Qed.

Lemma iter_xO_pow2 (w d : positive) : Zpos (Pos.iter xO w d) = Zpos w * 2 ^ Zpos d.
Proof.
  induction d as [|d IH] using Pos.peano_ind.
  - simpl. lia.
  - rewrite Pos.iter_succ, Pos2Z.inj_succ, Z.pow_succ_r by lia.
    rewrite Pos2Z.inj_xO, IH. lia.
Qed.

Lemma bounded_digits (m : positive) (e : Z) :
  bounded Float64.prec Float64.emax m e = true ->
  Zpos (digits2_pos m) <= 53 /\ -1074 <= e.
Proof.
  unfold bounded, canonical_mantissa, fexp, emin, Float64.prec, Float64.emax.
  intros H. apply andb_true_iff in H. destruct H as [H _]. apply Z.eqb_eq in H. lia.
Qed.

Lemma div_eucl_exact (q d : Z) : 0 < d -> Z.div_eucl (q * d) d = (q, 0).
Proof.
  intros Hd.
  assert (H : Z.div_eucl (q * d) d = ((q * d) / d, (q * d) mod d)).
  { unfold Z.div, Z.modulo. destruct (Z.div_eucl (q * d) d). reflexivity. }
  rewrite H, Z.div_mul, Z.mod_mul by lia. reflexivity.
Qed.

Lemma new_location_exact (d : Z) : new_location d 0 = loc_Exact.
Proof. unfold new_location. destruct (Z.even d); reflexivity. Qed.

Lemma binary_round_exact (s : bool) (w m : positive) (e : Z) :
  bounded Float64.prec Float64.emax m e = true ->
  Zpos w * 2 ^ Z.max 0 (- e) = Zpos m * 2 ^ Z.max 0 e ->
  binary_round Float64.prec Float64.emax s w 0 = S754_finite s m e.
Proof.
  intros Hb Hv. pose proof Hb as Hb'.
  unfold bounded in Hb'. apply andb_true_iff in Hb'.
  destruct Hb' as [Hc _]. unfold canonical_mantissa in Hc. apply Z.eqb_eq in Hc.
  unfold binary_round.
  assert (Hdig : Zpos (digits2_pos w) + 0 = Zpos (digits2_pos m) + e).
  { destruct (Z.le_gt_cases 0 e) as [He|He].
    - rewrite Z.max_l, Z.max_r in Hv by lia. rewrite Z.pow_0_r, Z.mul_1_r in Hv.
      change (Zpos (digits2_pos w)) with (Zdigits2 (Zpos w)). rewrite Hv.
      rewrite Zdigits2_mul_pow2 by lia. simpl Zdigits2. lia.
    - rewrite Z.max_r, Z.max_l in Hv by lia. rewrite Z.pow_0_r, Z.mul_1_r in Hv.
      change (Zpos (digits2_pos m)) with (Zdigits2 (Zpos m)). rewrite <- Hv.
      rewrite Zdigits2_mul_pow2 by lia. simpl Zdigits2. lia. }
  rewrite Hdig, Hc.
  destruct (Z.le_gt_cases 0 e) as [He|He].
  - rewrite Z.max_l, Z.max_r in Hv by lia. rewrite Z.pow_0_r, Z.mul_1_r in Hv.
    assert (Hal : shl_align w 0 e = (w, 0)).
    { unfold shl_align. rewrite Z.sub_0_r. destruct e; try reflexivity. lia. }
    rewrite Hal, Hv. replace 0 with (e - e) at 1 by lia.
    apply binary_round_aux_exact; [exact Hb | exact He].
  - rewrite Z.max_r, Z.max_l in Hv by lia. rewrite Z.pow_0_r, Z.mul_1_r in Hv.
    assert (Hal : shl_align w 0 e = (m, e)).
    { unfold shl_align. rewrite Z.sub_0_r. destruct e as [|p|p]; try lia.
      f_equal. apply Pos2Z.inj. rewrite iter_xO_pow2.
      rewrite <- Hv. reflexivity. }
    rewrite Hal.
    replace (Zpos m) with (Zpos m * 2 ^ 0) by lia.
    replace e with (e - 0) at 1 by lia.
    apply binary_round_aux_exact; [exact Hb | lia].
Qed.

(** Reading a decimal numeral whose value is a binary64 number gives that
    number. *)
Lemma of_decimal_exact (s : bool) (M E : Z) (m : positive) (e : Z) :
  0 < M -> bounded Float64.prec Float64.emax m e = true ->
  same_value M E m e ->
  Float64.of_decimal s M E = S754_finite s m e.
Proof.
  intros HM Hb Hv. unfold same_value in Hv.
  destruct M as [|P|P]; try lia.
  unfold Float64.of_decimal.
  destruct (0 <=? E) eqn:EE.
  - apply Z.leb_le in EE.
    rewrite (Z.max_r 0 E), (Z.max_l 0 (- E)) in Hv by lia.
    rewrite Z.pow_0_r, Z.mul_1_r in Hv.
    assert (HW : 0 < Zpos P * 10 ^ E)
      by (apply Z.mul_pos_pos; [lia|]; apply Z.pow_pos_nonneg; lia).
    destruct (Zpos P * 10 ^ E) as [|w|w] eqn:EW; try lia.
    destruct s; cbn [cond_Zopp Z.opp binary_normalize];
      apply binary_round_exact; assumption.
  - apply Z.leb_gt in EE.
    rewrite (Z.max_l 0 E), (Z.max_r 0 (- E)) in Hv by lia.
    rewrite Z.pow_0_r, Z.mul_1_r in Hv.
    set (d := 10 ^ (- E)) in *.
    assert (Hd : 0 < d) by (apply Z.pow_pos_nonneg; lia).
    set (K := Z.max 0 (Zdigits2 d - Zdigits2 (Zpos P) + 64)).
    destruct (bounded_digits m e Hb) as [Hm53 Hemin].
    assert (HK : 0 <= e + K /\ Z.shiftl (Zpos P) K = Zpos m * 2 ^ (e + K) * d).
    { rewrite Z.shiftl_mul_pow2 by lia.
      destruct (Z.le_gt_cases 0 e) as [He|He].
      - rewrite Z.max_l, Z.max_r in Hv by lia. rewrite Z.pow_0_r, Z.mul_1_r in Hv.
        split; [lia|]. rewrite Hv, Z.pow_add_r by lia. ring.
      - rewrite Z.max_r, Z.max_l in Hv by lia. rewrite Z.pow_0_r, Z.mul_1_r in Hv.
        assert (Hdig : Zdigits2 (Zpos P) + (- e) <= 53 + Zdigits2 d).
        { rewrite <- Zdigits2_mul_pow2 by lia. rewrite Hv.
          pose proof (Zdigits2_mul_le (Zpos m) d ltac:(lia) Hd) as Hle.
          simpl Zdigits2 in Hle at 2. lia. }
        assert (HKe : 0 <= e + K) by lia.
        split; [exact HKe|].
        replace K with (- e + (e + K)) at 1 by lia.
        rewrite Z.pow_add_r by lia. rewrite Z.mul_assoc, Hv. ring. }
    destruct HK as [HKe HKv]. rewrite HKv.
    rewrite div_eucl_exact by exact Hd. rewrite new_location_exact.
    replace (- K) with (e - (e + K)) by lia.
    apply binary_round_aux_exact; assumption.
Qed.

(** ** The digits of a number and their value *)

Lemma take_digits_app (s rest : string) (acc count : Z) :
  str_all is_decimal s = true ->
  Float64.take_digits (s ++ rest) acc count =
  Float64.take_digits rest (digits_value acc s) (count + Float64.len s).
Proof.
  revert acc count. induction s as [|c s IH]; intros acc count H.
  - simpl. unfold Float64.len. simpl. rewrite Z.add_0_r. reflexivity.
  - simpl in H. apply andb_true_iff in H. destruct H as [Hc Hs].
    cbn [append Float64.take_digits digits_value]. rewrite Hc, (IH _ _ Hs).
    unfold Float64.len. cbn [String.length]. f_equal. lia.
Qed.

Lemma take_digits_all (s : string) (acc count : Z) :
  str_all is_decimal s = true ->
  Float64.take_digits s acc count = (digits_value acc s, count + Float64.len s, EmptyString).
Proof.
  intros H. pose proof (take_digits_app s EmptyString acc count H) as E.
  assert (Hs : s ++ EmptyString = s).
  { clear. induction s; simpl; [reflexivity | rewrite IHs; reflexivity]. }
  rewrite Hs in E. exact E.
Qed.

Lemma digits_value_app (s t : string) (acc : Z) :
  digits_value acc (s ++ t) = digits_value (digits_value acc s) t.
Proof. revert acc. induction s as [|c s IH]; intros acc; simpl; [reflexivity|apply IH]. Qed.

Lemma digits_value_zeros (n : nat) (acc : Z) :
  digits_value acc (Float64.zeros n) = acc * 10 ^ Z.of_nat n.
Proof.
  revert acc. induction n as [|n IH]; intros acc.
  - simpl. lia.
  - cbn [Float64.zeros digits_value]. rewrite IH.
    rewrite Nat2Z.inj_succ, Z.pow_succ_r by lia.
    change (digit_value "0") with 0. ring.
Qed.

Lemma len_app (s t : string) : Float64.len (s ++ t) = Float64.len s + Float64.len t.
Proof.
  unfold Float64.len. induction s as [|c s IH]; simpl String.length.
  - reflexivity.
  - rewrite !Nat2Z.inj_succ. simpl in IH. lia.
Qed.

Lemma len_zeros (n : nat) : Float64.len (Float64.zeros n) = Z.of_nat n.
Proof.
  unfold Float64.len. induction n as [|n IH]; [reflexivity|].
  cbn [Float64.zeros String.length]. rewrite !Nat2Z.inj_succ. lia.
Qed.

Lemma len_nonneg (s : string) : 0 <= Float64.len s.
Proof. unfold Float64.len. lia. Qed.

(** The value of the digits that print a number is the number. *)
Lemma digits_value_uint_acc (d : Decimal.uint) (acc : positive) :
  digits_value (Zpos acc) (NilEmpty.string_of_uint d) = Zpos (Pos.of_uint_acc d acc).
Proof.
  revert acc. induction d; intros acc; cbn [NilEmpty.string_of_uint digits_value Pos.of_uint_acc];
    try reflexivity;
    match goal with
    | |- digits_value (10 * _ + digit_value ?c) _ = _ =>
        let v := eval vm_compute in (digit_value c) in
        change (digit_value c) with v
    end;
    rewrite <- IHd; f_equal; lia.
Qed.

Lemma digits_value_uint (d : Decimal.uint) :
  digits_value 0 (NilEmpty.string_of_uint d) = Z.of_N (Pos.of_uint d).
Proof.
  induction d; cbn [NilEmpty.string_of_uint digits_value Pos.of_uint];
    try reflexivity; try exact IHd;
    match goal with
    | |- digits_value (10 * 0 + digit_value ?c) _ = _ =>
        let v := eval vm_compute in (10 * 0 + digit_value c) in
        change (10 * 0 + digit_value c) with v
    end;
    rewrite digits_value_uint_acc; reflexivity.
Qed.

Lemma digits_value_string_of_Z (c : Z) : 0 <= c -> digits_value 0 (Float64.string_of_Z c) = c.
Proof.
  intros Hc. unfold Float64.string_of_Z, NilZero.string_of_uint.
  assert (H : digits_value 0 (NilEmpty.string_of_uint (N.to_uint (Z.to_N c))) = c).
  { rewrite digits_value_uint. change (Pos.of_uint ?d) with (N.of_uint d).
    rewrite DecimalN.Unsigned.of_to. lia. }
  destruct (N.to_uint (Z.to_N c)) eqn:E; exact H.
Qed.

Lemma string_of_Z_nonempty (c : Z) : 1 <= Float64.len (Float64.string_of_Z c).
Proof.
  unfold Float64.string_of_Z, NilZero.string_of_uint, Float64.len.
  destruct (N.to_uint (Z.to_N c)); cbn [NilEmpty.string_of_uint String.length]; lia.
Qed.

(** The zeros that [strip_trailing_zeros] removes. *)
Lemma strip_trailing_zeros_spec (s : string) :
  exists t, s = Float64.strip_trailing_zeros s ++ Float64.zeros t.
Proof.
  induction s as [|a s IH].
  - exists O. reflexivity.
  - destruct IH as [t Ht]. cbn [Float64.strip_trailing_zeros].
    destruct (Float64.strip_trailing_zeros s) as [|b u] eqn:E.
    + destruct (Ascii.eqb a "0") eqn:Ea.
      * apply Ascii.eqb_eq in Ea. subst a. exists (S t). simpl in *. rewrite Ht at 1.
        reflexivity.
      * exists t. simpl in *. rewrite Ht at 1. reflexivity.
    + exists t. simpl in *. rewrite Ht at 1. reflexivity.
Qed.

Lemma substring_split (n : nat) (s : string) :
  (n <= String.length s)%nat ->
  s = substring 0 n s ++ substring n (String.length s - n) s /\
  String.length (substring 0 n s) = n.
Proof.
  revert s. induction n as [|n IH]; intros s H.
  - simpl. rewrite Nat.sub_0_r. split; [|destruct s; reflexivity].
    destruct s as [|c s]; [reflexivity|]. simpl.
    clear. f_equal. induction s as [|a s IH]; [reflexivity|].
    simpl. rewrite <- IH. reflexivity.
  - destruct s as [|c s]; [simpl in H; lia|].
    simpl in H. destruct (IH s ltac:(lia)) as [H1 H2].
    cbn [substring String.length Nat.sub]. split.
    + cbn [append]. f_equal. exact H1.
    + f_equal. exact H2.
Qed.

Lemma take_digits_stop (c : ascii) (r : string) (acc count : Z) :
  is_decimal c = false ->
  Float64.take_digits (String c r) acc count = (acc, count, String c r).
Proof. intros H. cbn [Float64.take_digits]. rewrite H. reflexivity. Qed.

(** Digits, a point and digits. *)
Lemma parse_number_point (u v : string) :
  str_all is_decimal u = true -> str_all is_decimal v = true ->
  1 <= Float64.len u ->
  Float64.parse_number (u ++ String "." v) =
  Some (digits_value 0 (u ++ v), - Float64.len v).
Proof.
  intros Hu Hv Hlen. unfold Float64.parse_number.
  rewrite take_digits_app by exact Hu.
  rewrite (take_digits_stop "." _ _ _ eq_refl). cbv beta iota zeta.
  rewrite (take_digits_all v _ _ Hv). cbv beta iota zeta.
  pose proof (len_nonneg v).
  destruct (_ <=? 0)%Z eqn:E; [apply Z.leb_le in E; lia|].
  rewrite digits_value_app. reflexivity.
Qed.

(** Digits and an exponent. *)
Lemma parse_number_exp (u w : string) (neg : bool) :
  str_all is_decimal u = true -> str_all is_decimal w = true ->
  1 <= Float64.len u -> 1 <= Float64.len w ->
  Float64.parse_number (u ++ String "e" (exponent_sign neg ++ w)) =
  Some (digits_value 0 u, cond_Zopp neg (digits_value 0 w) - 0).
Proof.
  intros Hu Hw Hlu Hlw. unfold Float64.parse_number.
  rewrite take_digits_app by exact Hu.
  rewrite (take_digits_stop "e" _ _ _ eq_refl). cbv beta iota zeta.
  destruct (_ <=? 0)%Z eqn:E; [apply Z.leb_le in E; lia|].
  change (Ascii.eqb "e" "e") with true. cbn [orb].
  assert (Hs : Float64.take_sign (exponent_sign neg ++ w) = (neg, w))
    by (destruct neg; reflexivity).
  rewrite Hs. rewrite (take_digits_all w _ _ Hw).
  assert (E2 : (0 + Float64.len w <=? 0)%Z = false) by (apply Z.leb_gt; lia).
  rewrite E2.
  reflexivity.
Qed.

(** Digits, a point, digits and an exponent. *)
Lemma parse_number_point_exp (u v w : string) (neg : bool) :
  str_all is_decimal u = true -> str_all is_decimal v = true ->
  str_all is_decimal w = true ->
  1 <= Float64.len u -> 1 <= Float64.len w ->
  Float64.parse_number (u ++ String "." (v ++ String "e" (exponent_sign neg ++ w))) =
  Some (digits_value 0 (u ++ v), cond_Zopp neg (digits_value 0 w) - Float64.len v).
Proof.
  intros Hu Hv Hw Hlu Hlw. unfold Float64.parse_number.
  rewrite take_digits_app by exact Hu.
  rewrite (take_digits_stop "." _ _ _ eq_refl). cbv beta iota zeta.
  rewrite take_digits_app by exact Hv.
  rewrite (take_digits_stop "e" _ _ _ eq_refl). cbv beta iota zeta.
  pose proof (len_nonneg v).
  destruct (_ <=? 0)%Z eqn:E; [apply Z.leb_le in E; lia|].
  change (Ascii.eqb "e" "e") with true. cbn [orb].
  assert (Hs : Float64.take_sign (exponent_sign neg ++ w) = (neg, w))
    by (destruct neg; reflexivity).
  rewrite Hs. rewrite (take_digits_all w _ _ Hw).
  assert (E2 : (0 + Float64.len w <=? 0)%Z = false) by (apply Z.leb_gt; lia).
  rewrite E2.
  rewrite digits_value_app. rewrite Z.add_0_l. reflexivity.
Qed.

Lemma str_app_assoc (a b c : string) : (a ++ b) ++ c = a ++ b ++ c.
Proof. induction a as [|x a IH]; simpl; [reflexivity | rewrite IH; reflexivity]. Qed.

Lemma digits_value_scale (s : string) (acc : Z) :
  digits_value acc s = acc * 10 ^ Float64.len s + digits_value 0 s.
Proof.
  revert acc. induction s as [|c s IH]; intros acc.
  - unfold Float64.len. simpl. lia.
  - cbn [digits_value]. rewrite IH. rewrite (IH (10 * 0 + digit_value c)).
    unfold Float64.len. cbn [String.length]. rewrite Nat2Z.inj_succ, Z.pow_succ_r by lia.
    ring.
Qed.

(** What [float] reads in the text of the digits [ds] with the point
    after [decpt] digits: the number of the digits and the exponent
    [decpt - len ds], or the number followed by zeros up to the point and
    one more, and the exponent -1. *)
Lemma parse_format (ds : string) (decpt : Z) :
  str_all is_decimal ds = true -> 1 <= Float64.len ds ->
  exists M E,
    Float64.parse_number (Float64.format_digits ds decpt) = Some (M, E) /\
    ((M = digits_value 0 ds /\ E = decpt - Float64.len ds) \/
     (Float64.len ds <= decpt /\
      M = digits_value 0 ds * 10 ^ (decpt - Float64.len ds + 1) /\ E = -1)).
Proof.
  intros Hds Hlen. unfold Float64.format_digits.
  destruct ((decpt <=? -4)%Z || (16 <? decpt)%Z) eqn:Eexp.
  - set (ex := decpt - 1).
    set (w := (if (Z.abs ex <? 10)%Z then "0" else EmptyString)
              ++ Float64.string_of_Z (Z.abs ex)).
    assert (Hw : str_all is_decimal w = true).
    { subst w. rewrite str_all_app, str_all_string_of_Z.
      destruct (Z.abs ex <? 10)%Z; reflexivity. }
    assert (Hlw : 1 <= Float64.len w).
    { subst w. rewrite len_app.
      pose proof (string_of_Z_nonempty (Z.abs ex)).
      pose proof (len_nonneg (if (Z.abs ex <? 10)%Z then "0" else EmptyString)). lia. }
    assert (Hvw : cond_Zopp (ex <? 0)%Z (digits_value 0 w) = ex).
    { subst w. rewrite digits_value_app.
      assert (H0 : digits_value 0 (if (Z.abs ex <? 10)%Z then "0" else EmptyString) = 0)
        by (destruct (Z.abs ex <? 10)%Z; reflexivity).
      rewrite H0, digits_value_string_of_Z by lia.
      destruct (ex <? 0)%Z eqn:E; cbn [cond_Zopp];
        [apply Z.ltb_lt in E | apply Z.ltb_ge in E]; lia. }
    destruct ds as [|a rest]; [unfold Float64.len in Hlen; simpl in Hlen; lia|].
    simpl in Hds. apply andb_true_iff in Hds. destruct Hds as [Ha Hrest].
    destruct rest as [|b rest'].
    + exists (digits_value 0 (String a EmptyString)), (ex - 0). split.
      * pose proof (parse_number_exp (String a EmptyString) w (ex <? 0)%Z) as P.
        rewrite Hvw in P.
        apply P; try assumption; try (simpl; rewrite Ha; reflexivity);
          unfold Float64.len; simpl; lia.
      * left. split; [reflexivity|]. unfold Float64.len. simpl. lia.
    + exists (digits_value 0 (String a EmptyString ++ String b rest')),
             (ex - Float64.len (String b rest')). split.
      * pose proof (parse_number_point_exp (String a EmptyString) (String b rest') w
                      (ex <? 0)%Z) as P.
        rewrite Hvw in P.
        apply P; try assumption; try (simpl; rewrite Ha; reflexivity);
          unfold Float64.len; simpl; lia.
      * left. split; [reflexivity|]. unfold Float64.len. cbn [String.length].
        rewrite !Nat2Z.inj_succ. lia.
  - apply orb_false_iff in Eexp. destruct Eexp as [E1 E2].
    apply Z.leb_gt in E1. apply Z.ltb_ge in E2.
    destruct (decpt <=? 0)%Z eqn:E0.
    + apply Z.leb_le in E0.
      set (z := Z.to_nat (- decpt)).
      exists (digits_value 0 ("0" ++ Float64.zeros z ++ ds)), (- Float64.len (Float64.zeros z ++ ds)).
      split.
      * apply (parse_number_point "0" (Float64.zeros z ++ ds)).
        -- reflexivity.
        -- rewrite str_all_app, str_all_zeros, Hds. reflexivity.
        -- unfold Float64.len. simpl. lia.
      * left. split.
        -- change (digits_value 0 ("0" ++ Float64.zeros z ++ ds))
             with (digits_value 0 (Float64.zeros z ++ ds)).
           rewrite digits_value_app, digits_value_zeros. reflexivity.
        -- rewrite len_app, len_zeros. subst z. lia.
    + apply Z.leb_gt in E0.
      destruct (Float64.len ds <=? decpt)%Z eqn:EL.
      * apply Z.leb_le in EL.
        set (z := Z.to_nat (decpt - Float64.len ds)).
        exists (digits_value 0 ((ds ++ Float64.zeros z) ++ "0")), (- Float64.len "0").
        split.
        -- rewrite <- str_app_assoc.
           apply (parse_number_point (ds ++ Float64.zeros z) "0").
           ++ rewrite str_all_app, str_all_zeros, Hds. reflexivity.
           ++ reflexivity.
           ++ rewrite len_app. pose proof (len_nonneg (Float64.zeros z)). lia.
        -- right. split; [exact EL|]. split; [|reflexivity].
           rewrite !digits_value_app, digits_value_zeros. cbn [digits_value].
           change (digit_value "0") with 0. subst z.
           rewrite Z2Nat.id by lia. rewrite Z.pow_add_r by lia. ring.
      * apply Z.leb_gt in EL.
        destruct (substring_split (Z.to_nat decpt) ds) as [Hsplit Hlu].
        { unfold Float64.len in EL. lia. }
        set (u := substring 0 (Z.to_nat decpt) ds) in *.
        set (v := substring (Z.to_nat decpt) (String.length ds - Z.to_nat decpt) ds) in *.
        assert (Huv : str_all is_decimal u = true /\ str_all is_decimal v = true).
        { rewrite Hsplit, str_all_app in Hds. apply andb_true_iff in Hds. exact Hds. }
        destruct Huv as [Hu Hv].
        exists (digits_value 0 (u ++ v)), (- Float64.len v). split.
        -- apply parse_number_point; try assumption.
           unfold Float64.len. rewrite Hlu. lia.
        -- left. split; [rewrite <- Hsplit; reflexivity|].
           assert (HL : Float64.len ds = Float64.len u + Float64.len v)
             by (rewrite Hsplit at 1; apply len_app).
           assert (Hlu' : Float64.len u = decpt) by (unfold Float64.len; rewrite Hlu; lia).
           lia.
Qed.

(** ** Reading the text of a number *)

Lemma starts_with_digit_app (a b : string) :
  starts_with_digit a -> starts_with_digit (a ++ b).
Proof. destruct a; simpl; [contradiction | auto]. Qed.

Lemma format_digits_starts_with_digit (ds : string) (decpt : Z) :
  str_all is_decimal ds = true -> 1 <= Float64.len ds ->
  starts_with_digit (Float64.format_digits ds decpt).
Proof.
  intros Hds Hlen.
  destruct ds as [|a rest]; [unfold Float64.len in Hlen; simpl in Hlen; lia|].
  pose proof Hds as Hds'. simpl in Hds'. apply andb_true_iff in Hds'.
  destruct Hds' as [Ha Hrest].
  unfold Float64.format_digits.
  destruct (_ || _).
  - apply starts_with_digit_app. destruct rest; exact Ha.
  - destruct (decpt <=? 0)%Z eqn:E0; [reflexivity|].
    apply Z.leb_gt in E0.
    destruct (_ <=? decpt)%Z.
    + exact Ha.
    + apply starts_with_digit_app.
      destruct (Z.to_nat decpt) as [|n] eqn:En; [lia|]. exact Ha.
Qed.

Lemma of_str_number (neg : bool) (s : string) :
  str_all float_char s = true -> starts_with_digit s ->
  Float64.of_str ((if neg then "-" else EmptyString) ++ s) =
  match Float64.parse_number s with
  | Some (m, e) => Ok (Float64.of_decimal neg m e)
  | None => Raise ValueError
  end.
Proof.
  intros Hall Hfirst. unfold Float64.of_str.
  set (v := (if neg then "-" else EmptyString) ++ s).
  assert (Hv : str_all float_char v = true).
  { subst v. rewrite str_all_app, Hall. destruct neg; reflexivity. }
  rewrite remove_underscores_id;
    [|reflexivity | apply float_char_not_underscore, Hv].
  assert (Hns : str_all (fun c => negb (Float64.is_space c)) v = true)
    by (apply (str_all_weaken float_char); [apply float_char_not_space | exact Hv]).
  unfold Float64.strip. rewrite (lstrip_id _ Hns), (rstrip_id _ Hns).
  destruct s as [|a u]; [contradiction|]. simpl in Hfirst.
  assert (Hsign : Float64.take_sign v = (neg, String a u)).
  { subst v. destruct neg; [reflexivity|]. cbn [append].
    unfold Float64.take_sign.
    destruct a as [[] [] [] [] [] [] [] []]; try reflexivity; discriminate. }
  rewrite Hsign.
  assert (Hlow : forall t, String.eqb (Float64.lower (String a u)) (String "i" t) = false /\
                           String.eqb (Float64.lower (String a u)) (String "n" t) = false).
  { intros t. cbn [Float64.lower String.eqb].
    destruct a as [[] [] [] [] [] [] [] []]; try discriminate Hfirst; split; reflexivity. }
  rewrite (proj1 (Hlow "nf")), (proj1 (Hlow "nfinity")), (proj2 (Hlow "an")).
  reflexivity.
Qed.

Lemma same_value_shift (c t j : Z) (m : positive) (e : Z) :
  0 <= t -> same_value (c * 10 ^ t) j m e -> same_value c (j + t) m e.
Proof.
  unfold same_value. intros Ht H.
  set (A := 2 ^ Z.max 0 (- e)) in *. set (B := Zpos m * 2 ^ Z.max 0 e) in *.
  destruct (Z.le_gt_cases 0 j) as [Hj|Hj].
  - rewrite (Z.max_r 0 j), (Z.max_l 0 (- j)) in H by lia.
    rewrite (Z.max_r 0 (j + t)), (Z.max_l 0 (- (j + t))) by lia.
    rewrite Z.pow_add_r by lia. rewrite <- H. ring.
  - rewrite (Z.max_l 0 j), (Z.max_r 0 (- j)) in H by lia.
    rewrite Z.pow_0_r, Z.mul_1_r in H.
    destruct (Z.le_gt_cases 0 (j + t)) as [Hjt|Hjt].
    + rewrite (Z.max_r 0 (j + t)), (Z.max_l 0 (- (j + t))) by lia.
      rewrite Z.pow_0_r, Z.mul_1_r.
      assert (Hp : 0 < 10 ^ (- j)) by (apply Z.pow_pos_nonneg; lia).
      apply (Z.mul_reg_r _ _ (10 ^ (- j))); [lia|].
      rewrite <- H. replace t with ((j + t) + (- j)) at 2 by lia.
      rewrite (Z.pow_add_r 10 (j + t) (- j)) by lia. ring.
    + rewrite (Z.max_l 0 (j + t)), (Z.max_r 0 (- (j + t))) by lia.
      rewrite Z.pow_0_r, Z.mul_1_r.
      assert (Hp : 0 < 10 ^ t) by (apply Z.pow_pos_nonneg; lia).
      apply (Z.mul_reg_r _ _ (10 ^ t)); [lia|].
      replace (c * A * 10 ^ t) with (c * 10 ^ t * A) by ring. rewrite H.
      replace (- j) with (- (j + t) + t) by lia.
      rewrite (Z.pow_add_r 10 (- (j + t)) t) by lia. ring.
Qed.

Lemma same_value_point_zero (c j : Z) (m : positive) (e : Z) :
  0 <= j -> same_value c j m e -> same_value (c * 10 ^ (j + 1)) (-1) m e.
Proof.
  unfold same_value. intros Hj H.
  rewrite (Z.max_r 0 j), (Z.max_l 0 (- j)) in H by lia.
  rewrite Z.pow_0_r, Z.mul_1_r in H.
  change (Z.max 0 (-1)) with 0. change (Z.max 0 (- -1)) with 1.
  rewrite Z.pow_0_r, Z.mul_1_r, Z.pow_1_r. rewrite <- H.
  rewrite Z.pow_add_r by lia. ring.
Qed.

(** What [float] reads in the text of [c * 10^(k-n)] is a numeral of the
    same value. *)
Lemma of_str_render (neg : bool) (c k n : Z) :
  0 < c ->
  exists M E,
    0 < M /\
    Float64.of_str ((if neg then "-" else EmptyString) ++ Float64.render c k n)
      = Ok (Float64.of_decimal neg M E) /\
    forall m e, same_value c (k - n) m e -> same_value M E m e.
Proof.
  intros Hc. unfold Float64.render, Float64.digits_text.
  set (ds0 := Float64.string_of_Z c).
  set (ds := Float64.strip_trailing_zeros ds0).
  destruct (strip_trailing_zeros_spec ds0) as [t Ht]. fold ds in Ht.
  assert (Hds0 : str_all is_decimal ds0 = true) by apply str_all_string_of_Z.
  assert (Hds : str_all is_decimal ds = true)
    by (apply str_all_strip_trailing_zeros, Hds0).
  assert (Hval : c = digits_value 0 ds * 10 ^ Z.of_nat t).
  { rewrite <- (digits_value_string_of_Z c) at 1 by lia. fold ds0. rewrite Ht.
    rewrite digits_value_app, digits_value_zeros. reflexivity. }
  assert (Hlen0 : Float64.len ds0 = Float64.len ds + Z.of_nat t).
  { rewrite Ht at 1. rewrite len_app, len_zeros. reflexivity. }
  assert (Hpos : 0 < digits_value 0 ds).
  { assert (0 < 10 ^ Z.of_nat t) by (apply Z.pow_pos_nonneg; lia). nia. }
  assert (Hlen : 1 <= Float64.len ds).
  { destruct ds; [simpl in Hpos; lia|]. unfold Float64.len. cbn [String.length]. lia. }
  set (decpt := k + (Float64.len ds0 - n)).
  destruct (parse_format ds decpt Hds Hlen) as (M & E & Hparse & Hform).
  exists M, E.
  assert (HM : 0 < M).
  { destruct Hform as [[-> _] | (Hle & -> & _)]; [exact Hpos|].
    apply Z.mul_pos_pos; [exact Hpos|]. apply Z.pow_pos_nonneg; lia. }
  split; [exact HM|]. split.
  - rewrite of_str_number.
    + rewrite Hparse. reflexivity.
    + apply format_digits_chars, Hds.
    + apply format_digits_starts_with_digit; assumption.
  - intros m e Hv. rewrite Hval in Hv.
    apply same_value_shift in Hv; [|lia].
    destruct Hform as [[-> ->] | (Hle & -> & ->)].
    + replace (decpt - Float64.len ds) with (k - n + Z.of_nat t) by (subst decpt; lia).
      exact Hv.
    + replace (decpt - Float64.len ds + 1) with ((k - n + Z.of_nat t) + 1)
        by (subst decpt; lia).
      apply same_value_point_zero; [subst decpt; lia | exact Hv].
Qed.

(** ** The search for the shortest text ends *)

Lemma SFeqb_finite (y : Float64.float) (m : positive) (e : Z) :
  SFeqb y (S754_finite false m e) = true -> y = S754_finite false m e.
Proof.
  unfold SFeqb, SFcompare.
  destruct y as [s|s| |s m' e']; try (destruct s; discriminate); try discriminate.
  destruct s; [discriminate|].
  destruct (Z.compare_spec e' e) as [He|He|He]; try discriminate.
  change (Pos.compare_cont Eq m' m) with (Pos.compare m' m).
  destruct (Pos.compare_spec m' m) as [Hm|Hm|Hm]; try discriminate.
  intros _. subst. reflexivity.
Qed.

Lemma SFeqb_finite_refl (m : positive) (e : Z) :
  SFeqb (S754_finite false m e) (S754_finite false m e) = true.
Proof.
  unfold SFeqb, SFcompare. rewrite Z.compare_refl.
  change (Pos.compare_cont Eq m m) with (Pos.compare m m).
  rewrite Pos.compare_refl. reflexivity.
Qed.

Lemma digits_at_reads_back (x : Float64.float) (num den k n c : Z) :
  Float64.digits_at x num den k n = Some c ->
  Float64.reads_back x (Float64.render c k n) = true.
Proof.
  unfold Float64.digits_at.
  set (sn := if (0 <=? k - n)%Z then num else num * 10 ^ (n - k)).
  set (sd := if (0 <=? k - n)%Z then den * 10 ^ (k - n) else den).
  set (lo := sn / sd). set (r := sn mod sd).
  destruct (r =? 0)%Z.
  - destruct (Float64.reads_back x (Float64.render lo k n)) eqn:E1; [|discriminate].
    intros [= <-]. exact E1.
  - destruct (Float64.reads_back x (Float64.render lo k n)) eqn:E1;
      destruct (Float64.reads_back x (Float64.render (lo + 1) k n)) eqn:E2;
      cbn [andb]; try discriminate.
    + destruct (2 * r ?= sd)%Z; [destruct (Z.even lo)| |]; intros [= <-]; assumption.
    + intros [= <-]. exact E1.
    + intros [= <-]. exact E2.
Qed.

Lemma shortest_from_found (fuel : nat) (x : Float64.float) (num den k n0 N : Z) :
  n0 <= N < n0 + Z.of_nat fuel ->
  Float64.digits_at x num den k N <> None ->
  Float64.digits_at x num den k (snd (Float64.shortest_from fuel x num den k n0)) =
    Some (fst (Float64.shortest_from fuel x num den k n0)).
Proof.
  revert n0. induction fuel as [|fuel IH]; intros n0 Hn HN.
  - simpl in Hn. lia.
  - cbn [Float64.shortest_from].
    destruct (Float64.digits_at x num den k n0) as [c|] eqn:E.
    + exact E.
    + apply IH; [|exact HN].
      assert (n0 <> N) by (intros ->; congruence).
      rewrite Nat2Z.inj_succ in Hn. lia.
Qed.

Lemma decpt_from_bounds (fuel : nat) (k num den : Z) :
  k <= Float64.decpt_from fuel k num den <= k + Z.of_nat fuel.
Proof.
  revert k den. induction fuel as [|fuel IH]; intros k den.
  - simpl. lia.
  - cbn [Float64.decpt_from]. destruct (num <? den)%Z; [lia|].
    specialize (IH (k + 1) (10 * den)). rewrite Nat2Z.inj_succ. lia.
Qed.

Lemma decpt_of_bounds (num den : Z) : -400 <= Float64.decpt_of num den <= 400.
Proof.
  unfold Float64.decpt_of.
  pose proof (decpt_from_bounds 800 (-400) (num * 10 ^ 400) den) as H.
  replace (Z.of_nat 800) with 800 in H by reflexivity. lia.
Qed.

(** With enough digits the decimal expansion of a binary64 number is
    complete, and [float] reads it back as the number. *)
Lemma digits_at_exact (m : positive) (e k N : Z) :
  bounded Float64.prec Float64.emax m e = true ->
  1 <= N -> (if (0 <=? e)%Z then k <= N else k - e <= N) ->
  Float64.digits_at (S754_finite false m e)
    (if (0 <=? e)%Z then Zpos m * 2 ^ e else Zpos m)
    (if (0 <=? e)%Z then 1 else 2 ^ (- e)) k N <> None.
Proof.
  intros Hb HN Hk.
  set (num := if (0 <=? e)%Z then Zpos m * 2 ^ e else Zpos m).
  set (den := if (0 <=? e)%Z then 1 else 2 ^ (- e)).
  unfold Float64.digits_at.
  set (sn := if (0 <=? k - N)%Z then num else num * 10 ^ (N - k)).
  set (sd := if (0 <=? k - N)%Z then den * 10 ^ (k - N) else den).
  assert (Hlo : exists lo, 0 < lo /\ sn = lo * sd /\ 0 < sd /\
                           same_value lo (k - N) m e).
  { subst sn sd num den. unfold same_value.
    destruct (0 <=? e)%Z eqn:Ee.
    - apply Z.leb_le in Ee.
      assert (Hp : 0 < Zpos m * 2 ^ e)
        by (apply Z.mul_pos_pos; [lia|]; apply Z.pow_pos_nonneg; lia).
      rewrite (Z.max_l 0 (- e)), (Z.max_r 0 e) by lia.
      destruct (0 <=? k - N)%Z eqn:Ek.
      + apply Z.leb_le in Ek. assert (k = N) by lia. subst k.
        rewrite Z.sub_diag. exists (Zpos m * 2 ^ e).
        change (Z.max 0 (- 0)) with 0. change (Z.max 0 0) with 0.
        rewrite !Z.pow_0_r. repeat split; lia.
      + apply Z.leb_gt in Ek.
        assert (Hq : 0 < 10 ^ (N - k)) by (apply Z.pow_pos_nonneg; lia).
        exists (Zpos m * 2 ^ e * 10 ^ (N - k)).
        rewrite (Z.max_l 0 (k - N)), (Z.max_r 0 (- (k - N))) by lia.
        replace (- (k - N)) with (N - k) by lia.
        rewrite !Z.pow_0_r. repeat split; lia.
    - apply Z.leb_gt in Ee.
      assert (Ek : (0 <=? k - N)%Z = false) by (apply Z.leb_gt; lia).
      rewrite Ek.
      rewrite (Z.max_r 0 (- e)), (Z.max_l 0 e) by lia.
      rewrite (Z.max_l 0 (k - N)), (Z.max_r 0 (- (k - N))) by lia.
      replace (- (k - N)) with (N - k) by lia.
      assert (H10 : 10 ^ (N - k) = 5 ^ (- e) * 10 ^ (N - k + e) * 2 ^ (- e)).
      { replace (N - k) with (- e + (N - k + e)) at 1 by lia.
        rewrite Z.pow_add_r by lia.
        change 10 with (2 * 5) at 1. rewrite Z.pow_mul_l. ring. }
      assert (H5 : 0 < 5 ^ (- e)) by (apply Z.pow_pos_nonneg; lia).
      assert (Hq : 0 < 10 ^ (N - k + e)) by (apply Z.pow_pos_nonneg; lia).
      assert (H2 : 0 < 2 ^ (- e)) by (apply Z.pow_pos_nonneg; lia).
      exists (Zpos m * (5 ^ (- e) * 10 ^ (N - k + e))).
      split; [apply Z.mul_pos_pos; [lia|]; apply Z.mul_pos_pos; lia|].
      split; [rewrite H10; ring|]. split; [exact H2|].
      rewrite !Z.pow_0_r, H10. ring. }
  destruct Hlo as (lo & Hpos & Hsn & Hsd & Hv).
  rewrite Hsn, Z.div_mul, Z.mod_mul by lia. cbn [Z.eqb].
  destruct (of_str_render false lo k N Hpos) as (M & E & HM & Hread & Hsame).
  cbn [append] in Hread.
  assert (Hok : Float64.reads_back (S754_finite false m e) (Float64.render lo k N) = true).
  { unfold Float64.reads_back. rewrite Hread.
    rewrite (of_decimal_exact false M E m e HM Hb (Hsame m e Hv)).
    apply SFeqb_finite_refl. }
  rewrite Hok. discriminate.
Qed.

Lemma binary_round_aux_opp (mx ex : Z) (lx : location) :
  binary_round_aux Float64.prec Float64.emax true mx ex lx =
  SFopp (binary_round_aux Float64.prec Float64.emax false mx ex lx).
Proof.
  unfold binary_round_aux.
  destruct (shr_fexp _ _ mx ex lx) as [mrs' e'].
  destruct (shr_fexp _ _ _ e' loc_Exact) as [mrs'' e''].
  destruct (shr_m mrs''); try reflexivity.
  destruct (_ <=? _)%Z; reflexivity.
Qed.

Lemma of_decimal_opp (M E : Z) :
  Float64.of_decimal true M E = SFopp (Float64.of_decimal false M E).
Proof.
  unfold Float64.of_decimal. destruct M as [|P|P]; try reflexivity.
  destruct (0 <=? E)%Z eqn:EE.
  - apply Z.leb_le in EE.
    assert (HW : 0 < Zpos P * 10 ^ E)
      by (apply Z.mul_pos_pos; [lia|]; apply Z.pow_pos_nonneg; lia).
    destruct (Zpos P * 10 ^ E) as [|w|w]; try lia.
    cbn [cond_Zopp Z.opp binary_normalize]. unfold binary_round.
    destruct (shl_align _ _ _) as [mz ez]. apply binary_round_aux_opp.
  - destruct (Z.div_eucl _ _) as [q r]. apply binary_round_aux_opp.
Qed.

(** The text of a number with a minus sign in front reads as the
    opposite number. *)
Lemma of_str_minus (R : string) (m : positive) (e : Z) :
  str_all float_char R = true -> first_char_ok not_sign_char R ->
  Float64.of_str R = Ok (S754_finite false m e) ->
  Float64.of_str ("-" ++ R) = Ok (S754_finite true m e).
Proof.
  intros Hall Hfirst. unfold Float64.of_str.
  assert (Hv : str_all float_char ("-" ++ R) = true)
    by (rewrite str_all_app, Hall; reflexivity).
  rewrite !remove_underscores_id;
    try reflexivity; try (apply float_char_not_underscore; assumption).
  assert (Hns : forall v, str_all float_char v = true ->
                  str_all (fun c => negb (Float64.is_space c)) v = true)
    by (intros v H; apply (str_all_weaken float_char);
        [apply float_char_not_space | exact H]).
  unfold Float64.strip.
  rewrite (lstrip_id _ (Hns _ Hall)), (rstrip_id _ (Hns _ Hall)).
  rewrite (lstrip_id _ (Hns _ Hv)), (rstrip_id _ (Hns _ Hv)).
  assert (Hsign : Float64.take_sign R = (false, R)).
  { destruct R as [|a u]; [reflexivity|]. simpl in Hfirst.
    unfold not_sign_char in Hfirst. apply andb_true_iff in Hfirst.
    destruct Hfirst as [H1 H2]. apply negb_true_iff in H1, H2.
    unfold Float64.take_sign.
    destruct a as [[] [] [] [] [] [] [] []]; try reflexivity; discriminate. }
  rewrite Hsign. change (Float64.take_sign ("-" ++ R)) with (true, R).
  cbv beta iota zeta. destruct (_ || _); [discriminate|].
  destruct (String.eqb _ "nan"); [discriminate|].
  destruct (Float64.parse_number R) as [[M E]|]; [|discriminate].
  intros [= H]. rewrite of_decimal_opp, H. reflexivity.
Qed.

(** Printing a binary64 number and reading the text gives the number. *)
Lemma of_str_to_str (x : Float64.float) :
  valid_binary Float64.prec Float64.emax x = true ->
  Float64.of_str (Float64.to_str x) = Ok x.
Proof.
  destruct x as [s|s| |s m e]; intros Hb;
    try (destruct s; reflexivity); try reflexivity.
  cbn [valid_binary] in Hb.
  unfold Float64.to_str, Float64.shortest_digits.
  set (num := if (0 <=? e)%Z then Zpos m * 2 ^ e else Zpos m).
  set (den := if (0 <=? e)%Z then 1 else 2 ^ (- e)).
  set (k := Float64.decpt_of num den).
  pose proof (decpt_of_bounds num den) as Hk. fold k in Hk.
  destruct (bounded_digits m e Hb) as [_ Hemin].
  set (N := Z.max 1 (if (0 <=? e)%Z then k else k - e)).
  assert (Hexact : Float64.digits_at (S754_finite false m e) num den k N <> None).
  { apply digits_at_exact; [exact Hb | subst N; lia |].
    subst N. destruct (0 <=? e)%Z; lia. }
  assert (HN : 1 <= N < 1 + Z.of_nat Float64.search_limit).
  { replace (Z.of_nat Float64.search_limit) with 1500 by reflexivity.
    subst N. destruct (0 <=? e)%Z; lia. }
  pose proof (shortest_from_found Float64.search_limit (S754_finite false m e)
                num den k 1 N HN Hexact) as Hfound.
  destruct (Float64.shortest_from Float64.search_limit (S754_finite false m e) num den k 1)
    as [c n].
  cbn [fst snd] in Hfound.
  apply digits_at_reads_back in Hfound.
  unfold Float64.reads_back, Float64.render in Hfound.
  destruct (Float64.digits_text c k n) as [ds decpt] eqn:Etext.
  destruct (Float64.of_str (Float64.format_digits ds decpt)) as [y|] eqn:Ey;
    [|discriminate].
  apply SFeqb_finite in Hfound. subst y.
  destruct s; [|exact Ey].
  unfold Float64.digits_text in Etext. injection Etext as <- <-.
  apply of_str_minus; [| |exact Ey].
  - apply format_digits_chars, str_all_strip_trailing_zeros, str_all_string_of_Z.
  - apply format_digits_first_char, str_all_strip_trailing_zeros, str_all_string_of_Z.
Qed.

(** ** What [float] returns is a binary64 number *)

Lemma shr_1_div2 (r : shr_record) : 0 <= shr_m r -> shr_m (shr_1 r) = shr_m r / 2.
Proof.
  destruct r as [m r s]. cbn [shr_m]. intros Hm.
  destruct m as [|[p|p|]|p]; try lia; cbn [shr_1 shr_m].
  - reflexivity.
  - apply (Z.div_unique_pos _ 2 (Zpos p) 1); lia.
  - apply (Z.div_unique_pos _ 2 (Zpos p) 0); lia.
  - reflexivity.
Qed.

Lemma shr_m_iter (p : positive) (r : shr_record) :
  0 <= shr_m r -> shr_m (iter_pos shr_1 p r) = shr_m r / 2 ^ Zpos p.
Proof.
  rewrite iter_pos_iter. revert r.
  induction p as [|p IH] using Pos.peano_ind; intros r Hr.
  - cbn [Pos.iter]. rewrite shr_1_div2 by exact Hr. reflexivity.
  - rewrite Pos.iter_succ_r.
    assert (H1 : 0 <= shr_m (shr_1 r)).
    { rewrite shr_1_div2 by exact Hr. apply Z.div_pos; lia. }
    rewrite IH by exact H1. rewrite shr_1_div2 by exact Hr.
    rewrite Pos2Z.inj_succ, Z.pow_succ_r by lia.
    rewrite Z.div_div by (try lia; apply Z.pow_pos_nonneg; lia). reflexivity.
Qed.

Lemma Zdigits2_div_pow2 (m n : Z) :
  0 <= n -> 0 < m / 2 ^ n -> Zdigits2 (m / 2 ^ n) = Zdigits2 m - n.
Proof.
  intros Hn Hq.
  assert (Hp : 0 < 2 ^ n) by (apply Z.pow_pos_nonneg; lia).
  assert (Hm : 2 ^ n <= m).
  { destruct (Z.lt_ge_cases m (2 ^ n)) as [H|H]; [|exact H].
    destruct (Z.lt_ge_cases m 0) as [H0|H0].
    - assert (m / 2 ^ n < 0) by (apply Z.div_lt_upper_bound; lia). lia.
    - rewrite Z.div_small in Hq by lia. lia. }
  rewrite !Zdigits2_log2 by lia.
  rewrite <- Z.shiftr_div_pow2 by lia. rewrite Z.log2_shiftr by lia.
  assert (n <= Z.log2 m).
  { rewrite <- (Z.log2_pow2 n) by lia. apply Z.log2_le_mono. exact Hm. }
  lia.
Qed.

Lemma round_nearest_even_cases (m : Z) (l : location) :
  round_nearest_even m l = m \/ round_nearest_even m l = m + 1.
Proof.
  destruct l as [|[| |]]; cbn [round_nearest_even]; auto.
  destruct (Z.even m); auto.
Qed.

Lemma Zdigits2_mono (a b : Z) : 0 <= a <= b -> Zdigits2 a <= Zdigits2 b.
Proof.
  intros H. destruct (Z.eq_dec a 0) as [->|Ha].
  - destruct b; simpl; lia.
  - rewrite !Zdigits2_log2 by lia.
    pose proof (Z.log2_le_mono a b ltac:(lia)). lia.
Qed.

Lemma shr_record_of_loc_m (m : Z) (l : location) : shr_m (shr_record_of_loc m l) = m.
Proof. destruct l as [|[| |]]; reflexivity. Qed.

(** Rounding gives a number of the format, when the number to round has
    no fewer digits than the format keeps. *)
Lemma binary_round_aux_valid (s : bool) (mx ex : Z) (lx : location) :
  0 < mx ->
  ex <= fexp Float64.prec Float64.emax (Zdigits2 mx + ex) ->
  valid_binary Float64.prec Float64.emax
    (binary_round_aux Float64.prec Float64.emax s mx ex lx) = true.
Proof.
  intros Hmx HP. unfold binary_round_aux.
  set (F := fexp Float64.prec Float64.emax (Zdigits2 mx + ex)) in *.
  (* the first shift *)
  assert (H1 : exists mrs', shr_fexp Float64.prec Float64.emax mx ex lx = (mrs', F) /\
                 shr_m mrs' = mx / 2 ^ (F - ex)).
  { unfold shr_fexp. fold F. unfold shr.
    destruct (F - ex) as [|p|p] eqn:En; try lia.
    - eexists. split; [f_equal; lia|].
      rewrite shr_record_of_loc_m, Z.pow_0_r, Z.div_1_r. reflexivity.
    - eexists. split; [f_equal; lia|].
      rewrite shr_m_iter by (rewrite shr_record_of_loc_m; lia).
      rewrite shr_record_of_loc_m. reflexivity. }
  destruct H1 as (mrs' & -> & Hm1).
  set (m1 := shr_m mrs') in *.
  set (m2 := round_nearest_even m1 (loc_of_shr_record mrs')).
  assert (Hp0 : 0 < 2 ^ (F - ex)) by (apply Z.pow_pos_nonneg; lia).
  assert (Hm1pos : 0 <= m1) by (rewrite Hm1; apply Z.div_pos; lia).
  assert (Hm2 : m1 <= m2 <= m1 + 1).
  { subst m2. destruct (round_nearest_even_cases m1 (loc_of_shr_record mrs')) as [-> | ->]; lia. }
  (* the exponent is the one of the format for what the first shift leaves *)
  assert (HF : 0 < m2 -> F <= fexp Float64.prec Float64.emax (Zdigits2 m2 + F)).
  { intros Hpos. destruct (Z.eq_dec m1 0) as [H0|H0].
    - assert (m2 = 1) by lia.
      assert (Hsmall : mx < 2 ^ (F - ex)).
      { destruct (Z.lt_ge_cases mx (2 ^ (F - ex))) as [Hlt|Hge]; [exact Hlt|].
        assert (1 <= mx / 2 ^ (F - ex)).
        { apply Z.div_le_lower_bound; lia. }
        lia. }
      assert (Hd : Zdigits2 mx <= F - ex).
      { rewrite Zdigits2_log2 by lia.
        pose proof (proj1 (Z.log2_lt_pow2 mx (F - ex) Hmx) Hsmall). lia. }
      replace m2 with 1 by lia. simpl Zdigits2.
      subst F. unfold fexp, emin, Float64.prec, Float64.emax in *. lia.
    - assert (Hd1 : Zdigits2 m1 = Zdigits2 mx - (F - ex)).
      { rewrite Hm1. apply Zdigits2_div_pow2; [lia|]. rewrite <- Hm1. lia. }
      pose proof (Zdigits2_mono m1 m2 ltac:(lia)) as Hmono.
      assert (HF1 : fexp Float64.prec Float64.emax (Zdigits2 m1 + F) = F).
      { rewrite Hd1. replace (Zdigits2 mx - (F - ex) + F) with (Zdigits2 mx + ex) by lia.
        reflexivity. }
      rewrite <- HF1 at 1. unfold fexp. lia. }
  (* the second shift *)
  unfold shr_fexp at 1.
  destruct (Z.eq_dec m2 0) as [Hz|Hnz].
  - fold m2. rewrite Hz. cbn [Zdigits2 shr_record_of_loc].
    unfold shr. destruct (_ - F) as [|p|p]; cbn [shr_m]; try reflexivity.
    rewrite shr_m_iter by (cbn [shr_m]; lia). cbn [shr_m].
    rewrite Z.div_0_l by (apply Z.pow_nonzero; lia). reflexivity.
  - fold m2. assert (Hpos : 0 < m2) by lia. specialize (HF Hpos).
    cbn [shr_record_of_loc]. unfold shr.
    destruct (fexp Float64.prec Float64.emax (Zdigits2 m2 + F) - F) as [|p|p] eqn:En;
      try lia.
    + cbn [shr_m]. destruct m2 as [|q|q] eqn:Eq; try lia.
      destruct (F <=? Float64.emax - Float64.prec)%Z eqn:Ee; [|reflexivity].
      cbn [valid_binary]. unfold bounded, canonical_mantissa.
      change (Zpos (digits2_pos q)) with (Zdigits2 (Zpos q)).
      rewrite Ee, andb_true_r. apply Z.eqb_eq. lia.
    + rewrite shr_m_iter by (cbn [shr_m]; lia). cbn [shr_m].
      destruct (m2 / 2 ^ Zpos p) as [|q|q] eqn:Eq; try reflexivity.
      destruct (F + Zpos p <=? Float64.emax - Float64.prec)%Z eqn:Ee; [|reflexivity].
      cbn [valid_binary]. unfold bounded, canonical_mantissa.
      rewrite Ee, andb_true_r. apply Z.eqb_eq.
      change (Zpos (digits2_pos q)) with (Zdigits2 (Zpos q)).
      rewrite <- Eq. rewrite Zdigits2_div_pow2 by lia.
      replace (Zdigits2 m2 - Zpos p + (F + Zpos p)) with (Zdigits2 m2 + F) by lia.
      lia.
Qed.

Lemma binary_round_valid (s : bool) (w : positive) :
  valid_binary Float64.prec Float64.emax
    (binary_round Float64.prec Float64.emax s w 0) = true.
Proof.
  unfold binary_round.
  set (F := fexp Float64.prec Float64.emax (Zpos (digits2_pos w) + 0)).
  unfold shl_align. destruct (F - 0) as [|p|p] eqn:En.
  - apply binary_round_aux_valid; [lia|]. simpl Zdigits2. fold F. lia.
  - apply binary_round_aux_valid; [lia|]. simpl Zdigits2. fold F. lia.
  - apply binary_round_aux_valid; [lia|].
    rewrite iter_xO_pow2. rewrite Zdigits2_mul_pow2 by lia.
    simpl Zdigits2. replace (Zpos (digits2_pos w) + Zpos p + F)
      with (Zpos (digits2_pos w) + 0) by lia.
    fold F. lia.
Qed.

Lemma pow2_le_digits (z : Z) : 0 < z -> 2 ^ (Zdigits2 z - 1) <= z < 2 ^ Zdigits2 z.
Proof.
  intros Hz. rewrite Zdigits2_log2 by exact Hz.
  pose proof (Z.log2_spec z Hz) as H.
  replace (Z.log2 z + 1 - 1) with (Z.log2 z) by lia.
  replace (Z.log2 z + 1) with (Z.succ (Z.log2 z)) by lia. exact H.
Qed.

(** What [float] computes from a numeral is a binary64 number. *)
Lemma of_decimal_valid (s : bool) (M E : Z) :
  valid_binary Float64.prec Float64.emax (Float64.of_decimal s M E) = true.
Proof.
  unfold Float64.of_decimal. destruct M as [|P|P]; try reflexivity.
  destruct (0 <=? E)%Z eqn:EE.
  - apply Z.leb_le in EE.
    assert (HW : 0 < Zpos P * 10 ^ E)
      by (apply Z.mul_pos_pos; [lia|]; apply Z.pow_pos_nonneg; lia).
    destruct (Zpos P * 10 ^ E) as [|w|w]; try lia.
    destruct s; cbn [cond_Zopp Z.opp binary_normalize]; apply binary_round_valid.
  - apply Z.leb_gt in EE.
    set (d := 10 ^ (- E)).
    assert (Hd : 0 < d) by (apply Z.pow_pos_nonneg; lia).
    set (K := Z.max 0 (Zdigits2 d - Zdigits2 (Zpos P) + 64)).
    assert (Hdiv : Z.div_eucl (Z.shiftl (Zpos P) K) d =
                   (Z.shiftl (Zpos P) K / d, Z.shiftl (Zpos P) K mod d)).
    { unfold Z.div, Z.modulo. destruct (Z.div_eucl _ d). reflexivity. }
    rewrite Hdiv. rewrite Z.shiftl_mul_pow2 by lia.
    set (q := Zpos P * 2 ^ K / d).
    assert (Hq : 2 ^ 63 <= q).
    { subst q. apply Z.div_le_lower_bound; [exact Hd|].
      pose proof (pow2_le_digits d Hd) as [_ Hdu].
      pose proof (pow2_le_digits (Zpos P) ltac:(lia)) as [HPl _].
      assert (HK : 0 <= K) by lia.
      assert (Hdp : 1 <= Zdigits2 (Zpos P)) by (simpl; lia).
      assert (Hdd : 0 <= Zdigits2 d) by (destruct d; simpl; lia).
      assert (H1 : d * 2 ^ 63 <= 2 ^ (Zdigits2 d + 63)).
      { rewrite Z.pow_add_r by lia. apply Z.mul_le_mono_nonneg_r; lia. }
      assert (H2 : 2 ^ (Zdigits2 d + 63) <= 2 ^ (Zdigits2 (Zpos P) - 1 + K)).
      { apply Z.pow_le_mono_r; lia. }
      assert (H3 : 2 ^ (Zdigits2 (Zpos P) - 1 + K) <= Zpos P * 2 ^ K).
      { rewrite Z.pow_add_r by lia. apply Z.mul_le_mono_nonneg_r; [|exact HPl].
        apply Z.pow_nonneg. lia. }
      lia. }
    assert (Hq0 : 0 < q) by (pose proof (Z.pow_pos_nonneg 2 63); lia).
    apply binary_round_aux_valid; [exact Hq0|].
    assert (Hdq : 64 <= Zdigits2 q).
    { rewrite Zdigits2_log2 by exact Hq0.
      pose proof (Z.log2_le_mono _ _ Hq) as Hl. rewrite Z.log2_pow2 in Hl by lia. lia. }
    unfold fexp, emin, Float64.prec, Float64.emax. lia.
Qed.

Lemma of_str_valid (p : string) (x : Float64.float) :
  Float64.of_str p = Ok x -> valid_binary Float64.prec Float64.emax x = true.
Proof.
  unfold Float64.of_str.
  destruct (Float64.remove_underscores _ p) as [t|]; [|discriminate].
  destruct (Float64.take_sign (Float64.strip t)) as [neg body].
  cbv zeta. destruct (_ || _); [intros [= <-]; reflexivity|].
  destruct (String.eqb _ _); [intros [= <-]; reflexivity|].
  destruct (Float64.parse_number body) as [[m e]|]; [|discriminate].
  intros [= <-]. apply of_decimal_valid.
Qed.

(** ** The resolver *)

Lemma to_str_no_space (x : Float64.float) : no_space (Float64.to_str x).
Proof.
  unfold no_space.
  apply (str_all_not_contains float_char); [apply to_str_chars | reflexivity].
Qed.

Lemma resolve_printed (x : Float64.float) :
  binary64 x ->
  post_post_process_answer (join " " [Float64.to_str x]) = Ok (PyFloat x).
Proof.
  intros Hx. rewrite post_post_process_answer_spec.
  rewrite str_split_join;
    [|discriminate | repeat constructor; apply to_str_no_space].
  cbn [resolve_spec]. rewrite (of_str_to_str x Hx). reflexivity.
Qed.

Lemma resolved_binary64 (answer : string) (x : Float64.float) :
  post_post_process_answer answer = Ok (PyFloat x) -> binary64 x.
Proof.
  rewrite post_post_process_answer_spec. unfold resolve_spec, binary64.
  destruct (str_split " " answer) as [|p0 [|p1 [|p2 rest]]]; try discriminate.
  - destruct (Float64.of_str p0) as [y|e] eqn:E; [|discriminate].
    intros [= <-]. exact (of_str_valid _ _ E).
  - destruct (Float64.of_str p0) as [y0|e0]; [|discriminate].
    destruct (Float64.of_str p1) as [y1|e1] eqn:E; [|discriminate].
    intros [= <-]. exact (of_str_valid _ _ E).
Qed.

(** C4: the resolver returns -1 on the two sentinel texts, on the empty
    sequence, on one element that does not read as a number and on every
    shape other than one or two elements that read as numbers; it returns
    the number of a single valid element, and the number of the second of
    two valid elements.  Resolving is idempotent: every binary64 number,
    printed and given to the resolver as a single element, comes back
    unchanged; the numbers that the resolver returns are binary64 numbers,
    so that this holds of every number it has resolved. *)
Theorem C4_resolver_cases :
  post_post_process_answer "No metric" = Ok (PyInt (-1)) /\
  post_post_process_answer "Too many numbers" = Ok (PyInt (-1)) /\
  post_post_process_answer (join " " []) = Ok (PyInt (-1)) /\
  (forall p, no_space p -> ~ valid_number p ->
     post_post_process_answer (join " " [p]) = Ok (PyInt (-1))) /\
  (forall p x, no_space p -> Float64.of_str p = Ok x ->
     post_post_process_answer (join " " [p]) = Ok (PyFloat x)) /\
  (forall p0 p1 x0 x1, no_space p0 -> no_space p1 ->
     Float64.of_str p0 = Ok x0 -> Float64.of_str p1 = Ok x1 ->
     post_post_process_answer (join " " [p0; p1]) = Ok (PyFloat x1)) /\
  (forall elements, Forall no_space elements ->
     ~ (exists p, elements = [p] /\ valid_number p) ->
     ~ (exists p0 p1, elements = [p0; p1] /\ valid_number p0 /\ valid_number p1) ->
     post_post_process_answer (join " " elements) = Ok (PyInt (-1))) /\
  (forall answer,
     post_post_process_answer answer = Ok (resolve_spec (str_split " " answer))) /\
  (forall x, binary64 x ->
     no_space (Float64.to_str x) /\
     Float64.of_str (Float64.to_str x) = Ok x /\
     post_post_process_answer (join " " [Float64.to_str x]) = Ok (PyFloat x)) /\
  (forall answer x,
     post_post_process_answer answer = Ok (PyFloat x) ->
     binary64 x /\
     post_post_process_answer (join " " [Float64.to_str x]) = Ok (PyFloat x)) /\
  Forall (fun x => post_post_process_answer (Float64.to_str x) = Ok (PyFloat x))
    [ Float64.of_decimal false 37 (-2); Float64.of_decimal false 18 (-1);
      Float64.of_decimal false 4 0; Float64.of_decimal false 3 0 ].
Proof.
  split; [vm_compute; reflexivity|].
  split; [vm_compute; reflexivity|].
  split; [vm_compute; reflexivity|].
  split; [|split; [|split; [|split; [|split; [|split; [|split]]]]]].
  - intros p Hp Hv. rewrite post_post_process_answer_spec.
    rewrite str_split_join; [|discriminate|repeat constructor; exact Hp].
    simpl. destruct (Float64.of_str p) as [x|e] eqn:E; [|reflexivity].
    exfalso. apply Hv. exists x. exact E.
  - intros p x Hp E. rewrite post_post_process_answer_spec.
    rewrite str_split_join; [|discriminate|repeat constructor; exact Hp].
    simpl. rewrite E. reflexivity.
  - intros p0 p1 x0 x1 H0 H1 E0 E1. rewrite post_post_process_answer_spec.
    rewrite str_split_join; [|discriminate|repeat constructor; assumption].
    simpl. rewrite E0, E1. reflexivity.
  - intros elements Hall H1 H2. rewrite post_post_process_answer_spec.
    destruct elements as [|p0 rest]; [reflexivity|].
    rewrite str_split_join by (discriminate || exact Hall).
    destruct rest as [|p1 [|p2 rest]]; simpl.
    + destruct (Float64.of_str p0) as [x|e] eqn:E; [|reflexivity].
      exfalso. apply H1. exists p0. split; [reflexivity|]. exists x. exact E.
    + destruct (Float64.of_str p0) as [x0|e0] eqn:E0; [|reflexivity].
      destruct (Float64.of_str p1) as [x1|e1] eqn:E1; [|reflexivity].
      exfalso. apply H2. exists p0, p1.
      split; [reflexivity|]. split; [exists x0; exact E0 | exists x1; exact E1].
    + reflexivity.
  - apply post_post_process_answer_spec.
  - intros x Hx. split; [apply to_str_no_space|].
    split; [apply of_str_to_str, Hx | apply resolve_printed, Hx].
  - intros answer x H. pose proof (resolved_binary64 answer x H) as Hx.
    split; [exact Hx | apply resolve_printed, Hx].
  - repeat constructor; apply (resolve_printed _ eq_refl).
Qed.

Lemma C4_resolver_cases_witness :
  post_post_process_answer (join " " ["150.0"]) = Ok (PyFloat (Float64.of_decimal false 150 0)) /\
  post_post_process_answer (join " " ["2.0"; "4.0"]) = Ok (PyFloat (Float64.of_decimal false 4 0)) /\
  post_post_process_answer (join " " ["m"]) = Ok (PyInt (-1)) /\
  post_post_process_answer (join " " ["1.5"; "2.0"; "3.0"]) = Ok (PyInt (-1)) /\
  post_post_process_answer
    (join " " [Float64.to_str (S754_finite true 7070651414971679 (-1000))])
    = Ok (PyFloat (S754_finite true 7070651414971679 (-1000))) /\
  post_post_process_answer
    (join " " [Float64.to_str (Float64.of_decimal false 37 (-2))])
    = Ok (PyFloat (Float64.of_decimal false 37 (-2))).
Proof.
  destruct C4_resolver_cases
    as (_ & _ & _ & Hbad & Hone & Htwo & Hshape & _ & Hprinted & Hagain & _).
  split; [|split; [|split; [|split; [|split]]]].
  - apply Hone; vm_compute; reflexivity.
  - apply (Htwo "2.0" "4.0" (Float64.of_decimal false 2 0)); vm_compute; reflexivity.
  - apply Hbad; [reflexivity|]. intros [x Hx]. vm_compute in Hx. discriminate.
  - apply Hshape.
    + repeat constructor.
    + intros [p [Hp _]]. discriminate.
    + intros [p0 [p1 [Hp _]]]. discriminate.
  - apply (Hprinted (S754_finite true 7070651414971679 (-1000))). reflexivity.
  - apply (Hagain "0.2 0.37"). vm_compute. reflexivity.
Defined.
